(** * Aviation compliance checker: rule catalog, rule engine and report aggregation

    A shallow embedding of [src/rules.ts] (the four rule catalogs) and
    [src/checker.ts] (class [ComplianceChecker]) together with the properties
    of the rule engine and of the report it builds.

    Conventions of the embedding.
    - A JavaScript string is the list of its UTF-16 code units ([jsstring]).
    - Counters ([number] values that only ever hold array lengths and
      increments of them) are [nat].
    - Regular expressions are kept as syntax trees and run by a backtracking
      matcher written after the continuation-passing matchers of ECMA-262
      (clause "RegExp pattern semantics").
    - What the code obtains from its host (file contents, glob expansion, the
      wall clock, the date parser of [new Date(string)]) is a record [Host];
      what it changes (console output, how often the clock was read) is a
      record [World]. Methods that use either live in the monad [M]. *)

From Stdlib Require Import List Bool Arith NArith ZArith QArith Lia Ascii.
From Stdlib Require String DecimalString.
From Stdlib Require Import FunctionalExtensionality Permutation.
Import ListNotations.
Import String.StringSyntax.
Local Open Scope string_scope.
Local Open Scope nat_scope.

Set Implicit Arguments.

(* ================================================================== *)
(** ** JavaScript strings *)
(* ================================================================== *)

Module JS.

(** A string value: a finite sequence of 16-bit code units. *)
Definition jsstring := list N.

(** An ASCII literal of the source, as code units. *)
Definition str (s : String.string) : jsstring :=
  List.map N_of_ascii (String.list_ascii_of_string s).

(** Characters written with an escape in the source, or that a literal of
    this file cannot hold. *)
Definition nl : jsstring := [10%N].          (* "\n" *)
Definition dquote : jsstring := [34%N].      (* a double quote *)

(** [String(n)] / template interpolation of a non-negative integer. *)
Definition num (n : nat) : jsstring :=
  str (DecimalString.NilEmpty.string_of_uint (Nat.to_uint n)).

(** [a === b] on strings: the same code units in the same order. *)
Fixpoint eqb (a b : jsstring) : bool :=
  match a, b with
  | [], [] => true
  | x :: a', y :: b' => N.eqb x y && eqb a' b'
  | _, _ => false
  end.

(** JavaScript truthiness of a string: every string but the empty one. *)
Definition truthy (s : jsstring) : bool :=
  match s with [] => false | _ :: _ => true end.

End JS.
Import JS.

(* ================================================================== *)
(** ** Regular expressions *)
(* ================================================================== *)

Module RegExp.

(** Members of a character class. *)
Inductive ClassAtom :=
| CChar (c : N)            (* a single character *)
| CRange (lo hi : N)       (* lo-hi *)
| CDigit                   (* \d *)
| CSpace.                  (* \s *)

(** The syntax of the patterns that occur in the catalog. Quantifiers are
    the greedy ones; [RGroup] is a capturing group. *)
Inductive Regex :=
| REmpty
| RSet (A : list ClassAtom)                 (* x, [..], \d, \s *)
| RDot                                      (* . *)
| RWordB                                    (* \b *)
| RSeq (r1 r2 : Regex)
| RAlt (r1 r2 : Regex)
| RQuant (r : Regex) (min : nat) (max : option nat)
| RGroup (r : Regex).

(** A regular expression object: pattern and the [i] flag. No pattern of the
    source carries [g], [y], [m], [s] or [u]. *)
Record RegExp := mkRegExp { pattern : Regex; ignoreCase : bool }.

Definition Nrange (lo hi : N) : list N :=
  List.map (fun k => (lo + N.of_nat k)%N) (seq 0 (N.to_nat (hi + 1 - lo))).

(** WhiteSpace and LineTerminator code points (the set of [\s]). *)
Definition WhiteSpace : list N :=
  [9; 10; 11; 12; 13; 32; 160; 5760]%N ++ Nrange 8192 8202
  ++ [8232; 8233; 8239; 8287; 12288; 65279]%N.

Definition isLineTerminator (ch : N) : bool :=
  existsb (N.eqb ch) [10; 13; 8232; 8233]%N.

Definition atom_chars (a : ClassAtom) : list N :=
  match a with
  | CChar c => [c]
  | CRange lo hi => Nrange lo hi
  | CDigit => Nrange 48 57
  | CSpace => WhiteSpace
  end.

(** [Canonicalize] without the [u] flag: the upper-case mapping, except that
    a code unit of 128 or more is never mapped below 128. Every character and
    class written in the catalog is ASCII, so only the ASCII part of the
    mapping can decide a comparison; code units from 128 on are left as they
    are here. *)
Definition Canonicalize (ic : bool) (ch : N) : N :=
  if ic && (97 <=? ch)%N && (ch <=? 122)%N then (ch - 32)%N else ch.

(** [\w]: letters, digits and the underscore. *)
Definition IsWordChar (o : option N) : bool :=
  match o with
  | None => false
  | Some ch =>
      ((48 <=? ch) && (ch <=? 57) || (65 <=? ch) && (ch <=? 90)
       || (97 <=? ch) && (ch <=? 122) || (ch =? 95))%N
  end.

(** The matcher state: the code unit before the current position (for [\b])
    and the input that is still to be read. [endIndex] of the standard is the
    length of the input minus [length rest]. *)
Record MatchState := mkState { prev : option N; rest : jsstring }.

Definition MatchResult := option MatchState.
Definition Continuation := MatchState -> MatchResult.
Definition Matcher := MatchState -> Continuation -> MatchResult.

Definition CharacterSetMatcher (ic : bool) (member : N -> bool) : Matcher :=
  fun x c =>
    match rest x with
    | [] => None
    | ch :: s => if member ch then c (mkState (Some ch) s) else None
    end.

Definition set_member (ic : bool) (A : list ClassAtom) (ch : N) : bool :=
  existsb (fun a => (Canonicalize ic a =? Canonicalize ic ch)%N)
          (flat_map atom_chars A).

(** The first [min] iterations of a quantified atom are mandatory. *)
Fixpoint RepeatMin (m : Matcher) (min : nat) (k : Matcher) : Matcher :=
  match min with
  | O => k
  | S min' => fun x c => m x (fun y => RepeatMin m min' k y c)
  end.

(** Then at most [n] further greedy iterations. An iteration that does not
    move the end index is rejected (step 2.b of RepeatMatcher; matching only
    moves forward, so "did not move" is "is not strictly further"). *)
Fixpoint RepeatOpt (m : Matcher) (n : nat) : Matcher :=
  fun x c =>
    match n with
    | O => c x
    | S n' =>
        let d : Continuation := fun y =>
          if (length (rest y) <? length (rest x))%nat
          then RepeatOpt m n' y c else None in
        match m x d with
        | Some z => Some z
        | None => c x
        end
    end.

(** [RepeatMatcher(m, min, max, greedy = true)]. With no upper bound the
    number of further iterations is bounded by the input left, because each
    one consumes at least one code unit: any larger bound gives the same
    result (see [RepeatOpt_enough]). *)
Definition RepeatMatcher (m : Matcher) (min : nat) (max : option nat) : Matcher :=
  RepeatMin m min
    (fun x c =>
       match max with
       | Some mx => RepeatOpt m (mx - min) x c
       | None => RepeatOpt m (S (length (rest x))) x c
       end).

Fixpoint CompileSubpattern (ic : bool) (r : Regex) : Matcher :=
  match r with
  | REmpty => fun x c => c x
  | RSet A => CharacterSetMatcher ic (set_member ic A)
  | RDot => CharacterSetMatcher ic (fun ch => negb (isLineTerminator ch))
  | RWordB => fun x c =>
      let a := IsWordChar (prev x) in
      let b := IsWordChar (hd_error (rest x)) in
      if xorb a b then c x else None
  | RSeq r1 r2 => fun x c =>
      CompileSubpattern ic r1 x (fun y => CompileSubpattern ic r2 y c)
  | RAlt r1 r2 => fun x c =>
      match CompileSubpattern ic r1 x c with
      | Some z => Some z
      | None => CompileSubpattern ic r2 x c
      end
  | RQuant r' min max => RepeatMatcher (CompileSubpattern ic r') min max
  | RGroup r' => CompileSubpattern ic r'
  end.

(** One attempt at one start position ([RegExpBuiltinExec], step 12.c). *)
Definition match_here (re : RegExp) (p : option N) (s : jsstring) : MatchResult :=
  CompileSubpattern (ignoreCase re) (pattern re) (mkState p s) Some.

(** The loop of [RegExpBuiltinExec] for a regular expression that is neither
    global nor sticky: start positions are tried from index 0 upwards, the
    end of the input included. The result is the input from the start of the
    match, and the input after its end. *)
Fixpoint exec_from (re : RegExp) (p : option N) (s : jsstring)
  : option (jsstring * jsstring) :=
  match match_here re p s with
  | Some y => Some (s, rest y)
  | None =>
      match s with
      | [] => None
      | ch :: s' => exec_from re (Some ch) s'
      end
  end.

Definition exec (re : RegExp) (s : jsstring) : option (jsstring * jsstring) :=
  exec_from re None s.

(** [re.test(s)]. *)
Definition test (re : RegExp) (s : jsstring) : bool :=
  match exec re s with Some _ => true | None => false end.

(** [s.match(re)[0]] for a non-global [re]: the matched text, if any. *)
Definition String_match (re : RegExp) (s : jsstring) : option jsstring :=
  match exec re s with
  | Some (from, after) => Some (firstn (length from - length after) from)
  | None => None
  end.

(** *** Pattern notation *)

Definition chr (a : ascii) : Regex := RSet [CChar (N_of_ascii a)].

(** A run of literal characters. *)
Fixpoint lit_chars (l : list ascii) : Regex :=
  match l with
  | [] => REmpty
  | [a] => chr a
  | a :: l' => RSeq (chr a) (lit_chars l')
  end.
Definition lit (s : String.string) : Regex :=
  lit_chars (String.list_ascii_of_string s).

Definition digit : Regex := RSet [CDigit].                 (* \d *)
Definition space : Regex := RSet [CSpace].                 (* \s *)
Definition star (r : Regex) : Regex := RQuant r 0 None.    (* r*  *)
Definition plus (r : Regex) : Regex := RQuant r 1 None.    (* r+  *)
Definition opt (r : Regex) : Regex := RQuant r 0 (Some 1). (* r?  *)
Definition rep (r : Regex) (a b : nat) : Regex := RQuant r a (Some b). (* r{a,b} *)
Definition AZ : ClassAtom := CRange 65 90.                 (* A-Z *)
Definition D09 : ClassAtom := CRange 48 57.                (* 0-9 *)

Fixpoint seqs (l : list Regex) : Regex :=
  match l with
  | [] => REmpty
  | [r] => r
  | r :: l' => RSeq r (seqs l')
  end.

Fixpoint alts (l : list Regex) : Regex :=
  match l with
  | [] => REmpty
  | [r] => r
  | r :: l' => RAlt r (alts l')
  end.

End RegExp.

(* ================================================================== *)
(** ** Data model ([rules.ts], [checker.ts]) *)
(* ================================================================== *)

Inductive Severity := error | warning | info.

Inductive Category := maintenance | pilot_log | airworthiness | weight_balance.

Inductive Status := PASS | FAIL | WARNING.

Record ComplianceViolation := mkViolation {
  ruleId : jsstring;
  line : option nat;
  message : jsstring;
  severity : Severity;
  regulation : jsstring;
  suggestion : option jsstring
}.

Record FileComplianceResult := mkFileResult {
  filename : jsstring;
  violations : list ComplianceViolation;
  status : Status
}.

Record SeverityCounts := mkCounts {
  count_error : nat;
  count_warning : nat;
  count_info : nat
}.

Record ComplianceReport := mkReport {
  totalFiles : nat;
  filesChecked : nat;
  totalViolations : nat;
  violationsBySeverity : SeverityCounts;
  fileResults : list FileComplianceResult;
  summary : jsstring
}.

Record CheckOptions := mkOptions {
  checkMaintenanceLogs : bool;
  checkPilotLogs : bool;
  checkAirworthiness : bool;
  checkWeightBalance : bool
}.

Definition Severity_eqb (a b : Severity) : bool :=
  match a, b with
  | error, error | warning, warning | info, info => true
  | _, _ => false
  end.

Definition Status_eqb (a b : Status) : bool :=
  match a, b with
  | PASS, PASS | FAIL, FAIL | WARNING, WARNING => true
  | _, _ => false
  end.

(* ================================================================== *)
(** ** Effects: host, world and the monad of methods *)
(* ================================================================== *)

(** A thrown value. *)
Inductive JsError := Error (msg : jsstring).

(** Completion of a call: a value or a thrown error. *)
Inductive Completion (A : Type) :=
| Normal (a : A)
| Throw (e : JsError).
Arguments Normal {A} a.
Arguments Throw {A} e.

(** What a run reads from its environment.
    - [readFileSync f]: the UTF-8 decoded content of [f], or [None] when the
      call throws;
    - [glob p]: how the call of the glob library on pattern [p] completes
      (with the ignore list and [nodir] of the source applied): the paths
      the pattern resolves to, or the error the call throws. The library
      rejects some patterns, for one a pattern of more than 65536
      characters, with a [TypeError];
    - [Date_parse s]: the time value of [new Date(s)] in milliseconds, [None]
      for an invalid date (time value [NaN]). For strings that are not in the
      ISO format the result is implementation-defined, hence a host function;
    - [Date_now k]: the time value the clock shows the [k]-th time it is
      read. *)
Record Host := mkHost {
  readFileSync : jsstring -> option jsstring;
  glob : jsstring -> Completion (list jsstring);
  Date_parse : jsstring -> option Z;
  Date_now : nat -> Z
}.

(** What a run changes: how often the clock has been read, and the lines
    written with [console.error] (label and error value). *)
Record World := mkWorld {
  clock_reads : nat;
  console : list (jsstring * JsError)
}.

Definition M (A : Type) := Host -> World -> World * Completion A.

Definition ret {A} (a : A) : M A := fun _ w => (w, Normal a).

Definition bind {A B} (m : M A) (f : A -> M B) : M B :=
  fun h w =>
    match m h w with
    | (w', Normal a) => f a h w'
    | (w', Throw e) => (w', Throw e)
    end.

Definition throw {A} (e : JsError) : M A := fun _ w => (w, Throw e).

(** [try { body } catch (e) { handler e }]. *)
Definition try_catch {A} (body : M A) (handler : JsError -> M A) : M A :=
  fun h w =>
    match body h w with
    | (w', Normal a) => (w', Normal a)
    | (w', Throw e) => handler e h w'
    end.

Notation "x <- m ;; k" := (bind m (fun x => k))
  (at level 61, m at next level, right associativity).
Notation "m ;;; k" := (bind m (fun _ => k))
  (at level 61, right associativity).

(** [for (const x of xs) body], with the variables the body assigns passed
    along as [acc]. *)
Fixpoint for_of {A S} (xs : list A) (acc : S) (body : A -> S -> M S) : M S :=
  match xs with
  | [] => ret acc
  | x :: xs' => acc' <- body x acc ;; for_of xs' acc' body
  end.

(** [fs.readFileSync(filename, 'utf-8')]. *)
Definition fs_readFileSync (f : jsstring) : M jsstring :=
  fun h w =>
    match readFileSync h f with
    | Some content => (w, Normal content)
    | None => (w, Throw (Error (str "ENOENT: no such file or directory, open '"
                                  ++ f ++ str "'")))
    end.

(** [await glob(pattern, {...})]: the matches, or the error of the call,
    which the caller does not catch. *)
Definition glob_async (pattern : jsstring) : M (list jsstring) :=
  fun h w => (w, glob h pattern).

(** [new Date().getTime()]: reads the clock. *)
Definition new_Date_getTime : M Z :=
  fun h w =>
    (mkWorld (S (clock_reads w)) (console w), Normal (Date_now h (clock_reads w))).

(** [new Date(s).getTime()]: [None] stands for [NaN]. *)
Definition new_Date_of_getTime (s : jsstring) : M (option Z) :=
  fun h w => (w, Normal (Date_parse h s)).

(** [console.error(label, e)]. *)
Definition console_error (label : jsstring) (e : JsError) : M unit :=
  fun _ w => (mkWorld (clock_reads w) (console w ++ [(label, e)]), Normal tt).

(* ================================================================== *)
(** ** The rule catalogs ([rules.ts]) *)
(* ================================================================== *)

Record ComplianceRule := mkRule {
  rule_id : jsstring;
  rule_name : jsstring;
  rule_description : jsstring;
  rule_category : Category;
  rule_severity : Severity;
  rule_regulation : jsstring;
  check : jsstring -> jsstring -> M (list ComplianceViolation)
}.

Module Rules.
Import RegExp.

(** An entry of the [requiredFields] / [documents] / [requiredData] tables. *)
Record Item := mkItem {
  item_field : jsstring;
  item_pattern : RegExp;
  item_name : jsstring
}.

(** [items.forEach(it => { if (!it.pattern.test(content)) violations.push(mk it) })]
    on the array [violations]. *)
Definition forEach_missing (items : list Item) (content : jsstring)
    (mk : Item -> ComplianceViolation)
    (violations : list ComplianceViolation) : list ComplianceViolation :=
  fold_left
    (fun violations it =>
       if negb (test (item_pattern it) content)
       then violations ++ [mk it]
       else violations)
    items violations.

Definition sep : Regex := RSet [CChar 45; CChar 47].         (* [-\/] *)
Definition colon_opt : Regex := seqs [star space; opt (lit ":"); star space].
Definition decimal : Regex := seqs [plus digit; opt (lit "."); star digit].

(** [\d{1,2}[-\/]\d{1,2}[-\/]\d{2,4}] *)
Definition date_shape : Regex :=
  seqs [rep digit 1 2; sep; rep digit 1 2; sep; rep digit 2 4].

(** [[A-Z]-?[A-Z0-9]+] *)
Definition tail_number : Regex :=
  seqs [RSet [AZ]; opt (lit "-"); plus (RSet [AZ; D09])].

(** *** 14 CFR Part 43: maintenance *)

Definition MAINT001_requiredFields : list Item :=
  [ mkItem (str "description")
      (mkRegExp (seqs [lit "description"; colon_opt; plus RDot]) true)
      (str "Description of work performed");
    mkItem (str "date")
      (mkRegExp (seqs [lit "date"; colon_opt; date_shape]) true)
      (str "Date of completion");
    mkItem (str "aircraft")
      (mkRegExp
         (seqs [RGroup (alts [lit "aircraft";
                              seqs [lit "tail"; star space; lit "number"];
                              lit "registration"]);
                colon_opt; tail_number]) true)
      (str "Aircraft identification");
    mkItem (str "signature")
      (mkRegExp
         (seqs [RGroup (alts [lit "signature";
                              seqs [lit "signed"; star space; lit "by"];
                              lit "mechanic"]);
                colon_opt; plus RDot]) true)
      (str "Signature and certificate number") ].

Definition MAINT001_check (content : jsstring) : list ComplianceViolation :=
  forEach_missing MAINT001_requiredFields content
    (fun it =>
       mkViolation (str "MAINT-001") None
         (str "Missing required field: " ++ item_name it)
         error
         (str "14 CFR 43.9(a)")
         (Some (str "Add " ++ item_field it ++ str " field to maintenance log entry")))
    [].

Definition returnToServicePattern : RegExp :=
  mkRegExp
    (alts [seqs [lit "return"; opt (RGroup (lit "ed")); plus space; lit "to";
                 plus space; lit "service"];
           seqs [lit "approved"; plus space; lit "for"; plus space; lit "return"]])
    true.

Definition MAINT002_check (content : jsstring) : list ComplianceViolation :=
  if negb (test returnToServicePattern content)
  then [ mkViolation (str "MAINT-002") None
           (str "Missing return to service statement")
           error
           (str "14 CFR 43.9(a)(4)")
           (Some (str "Include " ++ dquote ++ str "Approved for return to service"
                  ++ dquote ++ str " or equivalent statement")) ]
  else [].

Definition annualPattern : RegExp :=
  mkRegExp (seqs [lit "annual"; plus space; lit "inspection"]) true.

Definition appendixDPattern : RegExp :=
  mkRegExp
    (RGroup (alts [seqs [lit "appendix"; plus space; lit "d"];
                   seqs [lit "14"; plus space; lit "cfr"; plus space; lit "43";
                         plus space; lit "appendix"; plus space; lit "d"]]))
    true.

Definition MAINT003_check (content : jsstring) : list ComplianceViolation :=
  let isAnnualInspection := test annualPattern content in
  if isAnnualInspection then
    let appendixDReference := test appendixDPattern content in
    if negb appendixDReference
    then [ mkViolation (str "MAINT-003") None
             (str "Annual inspection must reference 14 CFR 43 Appendix D")
             error
             (str "14 CFR 91.409(a)")
             (Some (str "Include reference to " ++ dquote ++ str "14 CFR 43 Appendix D"
                    ++ dquote ++ str " in annual inspection entry")) ]
    else []
  else [].

Definition adPattern : RegExp :=
  mkRegExp
    (seqs [RWordB; lit "AD"; plus space; rep digit 2 4; lit "-"; rep digit 2 2;
           lit "-"; rep digit 2 2])
    true.

Definition compliancePattern : RegExp :=
  mkRegExp
    (seqs [RGroup (alts [lit "complied"; lit "compliance"; lit "complies"]);
           plus space; lit "with"])
    true.

Definition MAINT004_check (content : jsstring) : list ComplianceViolation :=
  let hasADReference := test adPattern content in
  if hasADReference then
    if negb (test compliancePattern content)
    then [ mkViolation (str "MAINT-004") None
             (str "AD reference found but compliance statement missing")
             warning
             (str "14 CFR 39")
             (Some (str "Include statement confirming AD compliance")) ]
    else []
  else [].

Definition maintenanceLogRules : list ComplianceRule :=
  [ mkRule (str "MAINT-001")
      (str "Maintenance Log Entry Required Fields")
      (str "Maintenance records must include required information per 14 CFR 43.9")
      maintenance error (str "14 CFR 43.9(a)")
      (fun content filename => ret (MAINT001_check content));
    mkRule (str "MAINT-002")
      (str "Return to Service Statement")
      (str "Maintenance must include return to service statement")
      maintenance error (str "14 CFR 43.9(a)(4)")
      (fun content _ => ret (MAINT002_check content));
    mkRule (str "MAINT-003")
      (str "Annual Inspection Documentation")
      (str "Annual inspections must reference 14 CFR 43 Appendix D")
      maintenance error (str "14 CFR 91.409(a)")
      (fun content _ => ret (MAINT003_check content));
    mkRule (str "MAINT-004")
      (str "Airworthiness Directive Compliance")
      (str "AD compliance must be documented")
      maintenance warning (str "14 CFR 39")
      (fun content _ => ret (MAINT004_check content)) ].

(** *** 14 CFR Part 61: pilot logbook *)

Definition PILOT001_requiredFields : list Item :=
  [ mkItem (str "date")
      (mkRegExp (seqs [lit "date"; colon_opt; date_shape]) true)
      (str "Date");
    mkItem (str "aircraft")
      (mkRegExp
         (seqs [RGroup (alts [lit "aircraft"; lit "make"; lit "model"]);
                colon_opt; plus RDot]) true)
      (str "Aircraft make and model");
    mkItem (str "registration")
      (mkRegExp
         (seqs [RGroup (alts [lit "tail"; lit "registration";
                              seqs [lit "N"; star space; lit "number"]]);
                colon_opt; tail_number]) true)
      (str "Aircraft registration");
    mkItem (str "flight-time")
      (mkRegExp
         (seqs [RGroup (alts [seqs [lit "total"; plus space; lit "time"];
                              seqs [lit "flight"; plus space; lit "time"];
                              lit "duration"]);
                colon_opt; decimal]) true)
      (str "Total flight time") ].

Definition PILOT001_check (content : jsstring) : list ComplianceViolation :=
  forEach_missing PILOT001_requiredFields content
    (fun it =>
       mkViolation (str "PILOT-001") None
         (str "Missing required field: " ++ item_name it)
         error
         (str "14 CFR 61.51(b)")
         (Some (str "Add " ++ item_field it ++ str " to logbook entry")))
    [].

Definition nightPattern : RegExp := mkRegExp (lit "night") true.

Definition nightTimePattern : RegExp :=
  mkRegExp
    (seqs [RGroup (alts [seqs [lit "night"; plus space; lit "time"];
                         seqs [lit "night"; plus space; lit "flight"]]);
           colon_opt; decimal])
    true.

Definition PILOT002_check (content : jsstring) : list ComplianceViolation :=
  if test nightPattern content && negb (test nightTimePattern content)
  then [ mkViolation (str "PILOT-002") None
           (str "Night operation indicated but night time not logged")
           warning
           (str "14 CFR 61.51(b)(3)")
           (Some (str "Log night flight time separately")) ]
  else [].

Definition approachPattern : RegExp :=
  mkRegExp (RGroup (alts [lit "approach"; lit "approaches"; lit "IAP"])) true.

Definition approachDetailsPattern : RegExp :=
  mkRegExp
    (seqs [RGroup (alts [lit "ILS"; lit "VOR"; lit "RNAV"; lit "GPS"; lit "LOC";
                         lit "NDB"]);
           plus space; opt (RGroup (lit "RWY")); star space; rep digit 1 2;
           opt (RSet [CChar 76; CChar 82; CChar 67])])
    true.

Definition PILOT003_check (content : jsstring) : list ComplianceViolation :=
  if test approachPattern content then
    if negb (test approachDetailsPattern content)
    then [ mkViolation (str "PILOT-003") None
             (str "Instrument approach logged without type and runway")
             warning
             (str "14 CFR 61.51(g)")
             (Some (str "Include approach type (ILS, RNAV, etc.) and runway")) ]
    else []
  else [].

Definition pilotLogRules : list ComplianceRule :=
  [ mkRule (str "PILOT-001")
      (str "Logbook Entry Required Fields")
      (str "Pilot logbook entries must contain required information per 14 CFR 61.51")
      pilot_log error (str "14 CFR 61.51(b)")
      (fun content _ => ret (PILOT001_check content));
    mkRule (str "PILOT-002")
      (str "Night Flight Time Logging")
      (str "Night time must be logged if operation occurred after sunset")
      pilot_log warning (str "14 CFR 61.51(b)(3)")
      (fun content _ => ret (PILOT002_check content));
    mkRule (str "PILOT-003")
      (str "Instrument Approach Logging")
      (str "Instrument approaches must include location and type")
      pilot_log warning (str "14 CFR 61.51(g)")
      (fun content _ => ret (PILOT003_check content)) ].

(** *** Airworthiness documentation *)

Definition wbPattern : RegExp :=
  mkRegExp
    (seqs [lit "weight"; plus space; RGroup (alts [lit "and"; lit "&"]);
           plus space; lit "balance"])
    true.

Definition AROW001_documents : list Item :=
  [ mkItem [] (mkRegExp (seqs [lit "airworthiness"; plus space; lit "certificate"]) true)
      (str "Airworthiness Certificate");
    mkItem [] (mkRegExp (RGroup (alts [lit "registration"; lit "n-number"])) true)
      (str "Registration");
    mkItem []
      (mkRegExp
         (RGroup (alts [seqs [lit "operating"; plus space; lit "limitations"];
                        seqs [lit "pilot"; plus space; lit "operating"; plus space;
                              lit "handbook"];
                        lit "POH"])) true)
      (str "Operating Limitations");
    mkItem [] wbPattern (str "Weight and Balance") ].

Definition AROW001_check (content : jsstring) : list ComplianceViolation :=
  forEach_missing AROW001_documents content
    (fun it =>
       mkViolation (str "AROW-001") None
         (str "Missing AROW document reference: " ++ item_name it)
         error
         (str "14 CFR 91.203")
         (Some (str "Ensure " ++ item_name it ++ str " is documented and current")))
    [].

(** [/(\d{1,2}[-\/]\d{1,2}[-\/]\d{2,4})/]: no flag. Its one capturing group
    encloses the whole pattern, so [match[1]] is the matched text. *)
Definition datePattern : RegExp := mkRegExp (RGroup date_shape) false.

Definition INSP001_violation : ComplianceViolation :=
  mkViolation (str "INSP-001") None
    (str "Annual inspection appears to be out of date")
    error
    (str "14 CFR 91.409(a)")
    (Some (str "Annual inspection must be completed within preceding 12 calendar months")).

(** [(today.getTime() - inspectionDate.getTime()) / (1000 * 60 * 60 * 24)],
    [None] for [NaN]. Time values are integers of magnitude at most 8.64e15;
    the quotient is kept exact. It is only ever compared with 365, and the
    nearest quotients on either side of 365 differ from it by more than 1e-8,
    far beyond the rounding of a double, so the comparison is the code's. *)
Definition daysSince (today : Z) (inspectionDate : option Z) : option Q :=
  match inspectionDate with
  | Some t => Some (inject_Z (today - t) / inject_Z (1000 * 60 * 60 * 24))%Q
  | None => None
  end.

(** [x > 365] on numbers: false when [x] is [NaN]. *)
Definition gt_365 (x : option Q) : bool :=
  match x with
  | Some q => negb (Qle_bool q (inject_Z 365))
  | None => false
  end.

Definition INSP001_check (content : jsstring) : M (list ComplianceViolation) :=
  if test annualPattern content then
    match String_match datePattern content with
    | Some match1 =>
        inspectionDate <- new_Date_of_getTime match1 ;;
        today <- new_Date_getTime ;;
        let daysSinceInspection := daysSince today inspectionDate in
        if gt_365 daysSinceInspection
        then ret [INSP001_violation]
        else ret []
    | None => ret []
    end
  else ret [].

Definition airworthinessRules : list ComplianceRule :=
  [ mkRule (str "AROW-001")
      (str "AROW Document Checklist")
      (str "Aircraft must have required documents (AROW)")
      airworthiness error (str "14 CFR 91.203")
      (fun content _ => ret (AROW001_check content));
    mkRule (str "INSP-001")
      (str "Inspection Currency")
      (str "Annual inspection must be current")
      airworthiness error (str "14 CFR 91.409(a)")
      (fun content _ => INSP001_check content) ].

(** *** Weight and balance *)

(** [/empty\s+weight\s*:?\s*\d+/i] *)
Definition emptyWeightPattern : RegExp :=
  mkRegExp (seqs [lit "empty"; plus space; lit "weight"; colon_opt; plus digit]) true.

(** [/(center\s+of\s+gravity|CG)\s*:?\s*\d+\.?\d*/i] *)
Definition cgPattern : RegExp :=
  mkRegExp
    (seqs [RGroup (alts [seqs [lit "center"; plus space; lit "of"; plus space;
                               lit "gravity"];
                         lit "CG"]);
           colon_opt; decimal]) true.

(** [/useful\s+load\s*:?\s*\d+/i] *)
Definition usefulLoadPattern : RegExp :=
  mkRegExp (seqs [lit "useful"; plus space; lit "load"; colon_opt; plus digit]) true.

Definition WB001_requiredData : list Item :=
  [ mkItem [] emptyWeightPattern (str "Empty Weight");
    mkItem [] cgPattern (str "CG Location");
    mkItem [] usefulLoadPattern (str "Useful Load") ].

Definition WB001_violation (it : Item) : ComplianceViolation :=
  mkViolation (str "WB-001") None
    (str "Missing weight and balance data: " ++ item_name it)
    error
    (str "14 CFR 91.9")
    (Some (str "Include " ++ item_name it ++ str " in weight and balance documentation")).

Definition WB001_check (content : jsstring) : list ComplianceViolation :=
  if test wbPattern content
  then forEach_missing WB001_requiredData content WB001_violation []
  else [].

Definition weightBalanceRules : list ComplianceRule :=
  [ mkRule (str "WB-001")
      (str "Weight and Balance Data")
      (str "Current weight and balance data must be available")
      weight_balance error (str "14 CFR 91.9")
      (fun content _ => ret (WB001_check content)) ].

Definition allRules : list ComplianceRule :=
  maintenanceLogRules ++ pilotLogRules ++ airworthinessRules ++ weightBalanceRules.

End Rules.

(* ================================================================== *)
(** ** The checker ([checker.ts], class [ComplianceChecker]) *)
(* ================================================================== *)

Module Checker.
Import Rules.

Record ComplianceChecker := mkChecker {
  options : CheckOptions;
  rules : list ComplianceRule
}.

(** [loadRules()], on the field [this.rules]: one [push(...catalog)] per
    enabled category. *)
Definition loadRules (options : CheckOptions) (rules : list ComplianceRule)
  : list ComplianceRule :=
  let rules := if checkMaintenanceLogs options
               then rules ++ maintenanceLogRules else rules in
  let rules := if checkPilotLogs options
               then rules ++ pilotLogRules else rules in
  let rules := if checkAirworthiness options
               then rules ++ airworthinessRules else rules in
  let rules := if checkWeightBalance options
               then rules ++ weightBalanceRules else rules in
  rules.

(** [new ComplianceChecker(options)]: [rules] starts empty and the
    constructor calls [loadRules]. *)
Definition new_ComplianceChecker (options : CheckOptions) : ComplianceChecker :=
  mkChecker options (loadRules options []).

(** [new Set(array)] followed by spreading it back into an array: values in
    the order of their first insertion; strings are compared by value. *)
Definition Set_add (s : list jsstring) (x : jsstring) : list jsstring :=
  if existsb (JS.eqb x) s then s else s ++ [x].

Definition Set_of_array (l : list jsstring) : list jsstring :=
  fold_left Set_add l [].

Definition findFiles (patterns : list jsstring) : M (list jsstring) :=
  allFiles <- for_of patterns []
                (fun pattern allFiles =>
                   matches <- glob_async pattern ;;
                   ret (allFiles ++ matches)) ;;
  ret (Set_of_array allFiles).

Definition determineStatus (violations : list ComplianceViolation) : Status :=
  let hasErrors := existsb (fun v => Severity_eqb (severity v) error) violations in
  let hasWarnings := existsb (fun v => Severity_eqb (severity v) warning) violations in
  if hasErrors then FAIL
  else if hasWarnings then WARNING
  else PASS.

(** The text of the first argument of [console.error] in [checkFile]. *)
Definition error_label (rule : ComplianceRule) (filename : jsstring) : jsstring :=
  str "Error checking rule " ++ rule_id rule ++ str " on " ++ filename ++ str ":".

(** The body of the rule loop of [checkFile]: the [try] / [catch] around
    one rule, on the array [violations]. *)
Definition run_rule (content filename : jsstring)
    (rule : ComplianceRule) (violations : list ComplianceViolation)
  : M (list ComplianceViolation) :=
  try_catch
    (ruleViolations <- check rule content filename ;;
     ret (violations ++ ruleViolations))
    (fun e =>
       console_error (error_label rule filename) e ;;;
       ret violations).

Definition checkFile (this : ComplianceChecker) (filename : jsstring)
  : M FileComplianceResult :=
  content <- fs_readFileSync filename ;;
  violations <- for_of (rules this) [] (run_rule content filename) ;;
  let status := determineStatus violations in
  ret (mkFileResult filename violations status).

(** [violationsBySeverity[violation.severity]++] *)
Definition increment (c : SeverityCounts) (s : Severity) : SeverityCounts :=
  match s with
  | error => mkCounts (S (count_error c)) (count_warning c) (count_info c)
  | warning => mkCounts (count_error c) (S (count_warning c)) (count_info c)
  | info => mkCounts (count_error c) (count_warning c) (S (count_info c))
  end.

Definition has_status (s : Status) (r : FileComplianceResult) : bool :=
  Status_eqb (status r) s.

(** Characters of the report texts outside ASCII. *)
Definition check_mark : jsstring := [9989%N].            (* U+2705 *)
Definition warning_sign : jsstring := [9888; 65039]%N.   (* U+26A0 U+FE0F *)
Definition cross_mark : jsstring := [10060%N].           (* U+274C *)
Definition info_sign : jsstring := [8505; 65039]%N.      (* U+2139 U+FE0F *)
Definition airplane : jsstring := [9992; 65039]%N.       (* U+2708 U+FE0F *)

Definition generateReport (fileResults : list FileComplianceResult)
  : ComplianceReport :=
  let totalViolations :=
    fold_left (fun sum r => sum + length (violations r)) fileResults 0 in
  let violationsBySeverity :=
    fold_left
      (fun counts result =>
         fold_left (fun counts violation => increment counts (severity violation))
                   (violations result) counts)
      fileResults (mkCounts 0 0 0) in
  let failedFiles := length (filter (has_status FAIL) fileResults) in
  let warningFiles := length (filter (has_status WARNING) fileResults) in
  let passedFiles := length (filter (has_status PASS) fileResults) in
  let summary := str "Aviation Compliance Check Complete" ++ nl ++ nl in
  let summary := summary ++ str "Files Checked: " ++ num (length fileResults) ++ nl in
  let summary := summary ++ check_mark ++ str " Passed: " ++ num passedFiles ++ nl in
  let summary := summary ++ warning_sign ++ str "  Warnings: " ++ num warningFiles ++ nl in
  let summary := summary ++ cross_mark ++ str " Failed: " ++ num failedFiles ++ nl ++ nl in
  let summary := summary ++ str "Total Violations: " ++ num totalViolations ++ nl in
  let summary := summary ++ str "  - Errors: "
                   ++ num (count_error violationsBySeverity) ++ nl in
  let summary := summary ++ str "  - Warnings: "
                   ++ num (count_warning violationsBySeverity) ++ nl in
  let summary := summary ++ str "  - Info: "
                   ++ num (count_info violationsBySeverity) ++ nl in
  mkReport (length fileResults) (length fileResults) totalViolations
           violationsBySeverity fileResults summary.

Definition checkFiles (this : ComplianceChecker) (filePatterns : list jsstring)
  : M ComplianceReport :=
  files <- findFiles filePatterns ;;
  fileResults <- for_of files []
                   (fun file fileResults =>
                      result <- checkFile this file ;;
                      ret (fileResults ++ [result])) ;;
  ret (generateReport fileResults).

(** *** [generateMarkdownReport]

    The method body is a sequence of statements over two objects: the
    argument [report] and the local string [markdown]. Both are kept in the
    store the statements run on, so that what the method does to either can
    be stated. *)
Record MdStore := mkMdStore {
  md_report : ComplianceReport;
  markdown : jsstring
}.

Definition Stmt := MdStore -> MdStore.

(** [markdown += s] *)
Definition append (s : jsstring) : Stmt :=
  fun st => mkMdStore (md_report st) (markdown st ++ s).

(** A statement in which [report] is read: it sees the report of the store
    it runs on. *)
Definition reading (k : ComplianceReport -> Stmt) : Stmt :=
  fun st => k (md_report st) st.

Definition skip : Stmt := fun st => st.

Definition block (l : list Stmt) : Stmt :=
  fun st => fold_left (fun st s => s st) l st.

(** [xs.forEach(x => body x)] *)
Definition forEach {A} (xs : list A) (body : A -> Stmt) : Stmt :=
  fun st => fold_left (fun st x => body x st) xs st.

Definition severity_icon (s : Severity) : jsstring :=
  match s with
  | error => cross_mark
  | warning => warning_sign
  | info => info_sign
  end.

(** The four statements both violation loops share, for a given icon. *)
Definition emit_violation (icon : jsstring) (v : ComplianceViolation) : Stmt :=
  block
    [ append (icon ++ str " **" ++ ruleId v ++ str "**: " ++ message v ++ nl);
      append (str "   - *Regulation:* " ++ regulation v ++ nl);
      match suggestion v with
      | Some s =>
          if truthy s
          then append (str "   - *Suggestion:* " ++ s ++ nl)
          else skip
      | None => skip
      end;
      append nl ].

Definition file_heading (file : FileComplianceResult) : Stmt :=
  append (str "### `" ++ filename file ++ str "`" ++ nl ++ nl).

Definition generateMarkdownReport_body : Stmt :=
  block
    [ append (str "## Summary" ++ nl ++ nl);
      reading (fun report =>
        append (str "- **Files Checked:** " ++ num (filesChecked report) ++ nl));
      reading (fun report =>
        append (str "- **Total Violations:** " ++ num (totalViolations report) ++ nl));
      reading (fun report =>
        append (str "- **Errors:** " ++ num (count_error (violationsBySeverity report))
                ++ str " " ++ cross_mark ++ nl));
      reading (fun report =>
        append (str "- **Warnings:** "
                ++ num (count_warning (violationsBySeverity report))
                ++ str " " ++ warning_sign ++ nl));
      reading (fun report =>
        append (str "- **Info:** " ++ num (count_info (violationsBySeverity report))
                ++ str " " ++ info_sign ++ nl ++ nl));
      (* Group results by status *)
      reading (fun report =>
        let failedFiles := filter (has_status FAIL) (fileResults report) in
        let warningFiles := filter (has_status WARNING) (fileResults report) in
        let passedFiles := filter (has_status PASS) (fileResults report) in
        block
          [ if 0 <? length failedFiles then
              block
                [ append (str "## " ++ cross_mark ++ str " Failed Files" ++ nl ++ nl);
                  forEach failedFiles (fun file =>
                    block
                      [ file_heading file;
                        forEach (violations file) (fun v =>
                          let icon := severity_icon (severity v) in
                          emit_violation icon v) ]) ]
            else skip;
            if 0 <? length warningFiles then
              block
                [ append (str "## " ++ warning_sign
                          ++ str " Files with Warnings" ++ nl ++ nl);
                  forEach warningFiles (fun file =>
                    block
                      [ file_heading file;
                        forEach (violations file) (fun v =>
                          emit_violation warning_sign v) ]) ]
            else skip;
            if 0 <? length passedFiles then
              block
                [ append (str "## " ++ check_mark ++ str " Passed Files" ++ nl ++ nl);
                  forEach passedFiles (fun file =>
                    append (str "- `" ++ filename file ++ str "`" ++ nl));
                  append nl ]
            else skip;
            append (str "---" ++ nl ++ nl);
            append
              (str "*Generated by [Aviation Compliance Checker](https://github.com/marketplace/actions/aviation-compliance-checker)*"
               ++ nl) ]) ].

(** The store when the method returns. *)
Definition generateMarkdownReport_run (report : ComplianceReport) : MdStore :=
  generateMarkdownReport_body
    (mkMdStore report
       (str "# " ++ airplane ++ str " Aviation Compliance Report" ++ nl ++ nl)).

Definition generateMarkdownReport (report : ComplianceReport) : jsstring :=
  markdown (generateMarkdownReport_run report).

End Checker.

(* ================================================================== *)
(** ** A concrete host, for running the engine on examples *)
(* ================================================================== *)

Module Sample.

(** Decimal digits to a number; [None] on anything else. *)
Fixpoint parse_digits (acc : Z) (s : jsstring) : option Z :=
  match s with
  | [] => Some acc
  | ch :: s' =>
      if ((48 <=? ch) && (ch <=? 57))%N
      then parse_digits (10 * acc + Z.of_N (ch - 48))%Z s'
      else None
  end.

Definition is_sep (ch : N) : bool := ((ch =? 45) || (ch =? 47))%N.

(** The text before the first separator, and what follows it. *)
Fixpoint split_sep (s : jsstring) : jsstring * option jsstring :=
  match s with
  | [] => ([], None)
  | ch :: s' =>
      if is_sep ch then ([], Some s')
      else let (a, b) := split_sep s' in (ch :: a, b)
  end.

(** Days from 1970-01-01 to the given day of the proleptic Gregorian
    calendar. *)
Definition days_from_civil (y m d : Z) : Z :=
  (let y' := if m <=? 2 then y - 1 else y in
   let era := y' / 400 in
   let yoe := y' - era * 400 in
   let doy := (153 * (m + (if 2 <? m then -3 else 9)) + 2) / 5 + d - 1 in
   let doe := yoe * 365 + yoe / 4 - yoe / 100 + doy in
   era * 146097 + doe - 719468)%Z.

(** A date parser in the manner of the engines' legacy parsers:
    month, day, year; years below 50 are 20xx, years from 50 to 99 are 19xx;
    UTC. Anything else is an invalid date. *)
Definition Date_parse_mdy (s : jsstring) : option Z :=
  match split_sep s with
  | (ms, Some s1) =>
      match split_sep s1 with
      | (ds, Some ys) =>
          match parse_digits 0 ms, parse_digits 0 ds, parse_digits 0 ys with
          | Some m, Some d, Some y =>
              if (1 <=? m) && (m <=? 12) && (1 <=? d) && (d <=? 31)
                 && negb (Nat.eqb (length ys) 0)
              then
                let y := if y <? 50 then y + 2000
                         else if y <? 100 then y + 1900 else y in
                Some (days_from_civil y m d * 86400000)
              else None
          | _, _, _ => None
          end
      | _ => None
      end
  | _ => None
  end%Z.

Fixpoint lookup {V} (k : jsstring) (l : list (jsstring * V)) : option V :=
  match l with
  | [] => None
  | (k', v) :: l' => if JS.eqb k k' then Some v else lookup k l'
  end.

(** The longest pattern the glob library takes. *)
Definition max_pattern_length : N := 65536%N.

(** A host with the given files, glob expansions and a clock that shows
    [now] at every reading. As the glob library does, it rejects a pattern
    that is too long. *)
Definition host (files : list (jsstring * jsstring))
    (globs : list (jsstring * list jsstring)) (now : Z) : Host :=
  mkHost (fun f => lookup f files)
         (fun p =>
            if (max_pattern_length <? N.of_nat (length p))%N
            then Throw (Error (str "pattern is too long"))
            else Normal (match lookup p globs with Some l => l | None => [] end))
         Date_parse_mdy
         (fun _ => now).

Definition world0 : World := mkWorld 0 [].

(** 2025-06-01 and 2026-06-01, 00:00 UTC. *)
Definition june_2025 : Z := 1748736000000%Z.
Definition june_2026 : Z := 1780272000000%Z.

(** A weight-and-balance sheet without a useful-load entry. *)
Definition wb_sheet : jsstring :=
  str "Weight and Balance" ++ nl ++ str "Empty Weight: 1500" ++ nl
  ++ str "CG: 38.5" ++ nl.

(** An inspection record dated 15 January 2025. *)
Definition inspection_log : jsstring :=
  str "Annual inspection completed 01/15/2025." ++ nl.

(** A rule whose check throws, and one that reports an information note. *)
Definition throwing_rule : ComplianceRule :=
  mkRule (str "X-THROW") [] [] maintenance error []
    (fun _ _ => throw (Error (str "boom"))).

Definition note (id : jsstring) (sev : Severity) : ComplianceViolation :=
  mkViolation id None (str "note") sev (str "reg") None.

Definition noting_rule (id : jsstring) : ComplianceRule :=
  mkRule id [] [] maintenance info []
    (fun _ _ => ret [note id info]).

(** A checker whose second rule throws. *)
Definition three_rules : Checker.ComplianceChecker :=
  Checker.mkChecker (mkOptions false false false false)
    [noting_rule (str "A"); throwing_rule; noting_rule (str "B")].

(** One inspection record, found by one pattern; the two hosts differ in
    the clock only. *)
Definition one_log (now : Z) : Host :=
  host [(str "log.md", inspection_log)] [(str "*.md", [str "log.md"])] now.

End Sample.

(* ================================================================== *)
(** ** Reference definitions the properties are stated against *)
(* ================================================================== *)

Module Spec.
Import Rules Checker.

(** The catalogs in catalog order, each with the flag that enables it. *)
Definition catalogs (o : CheckOptions) : list (bool * list ComplianceRule) :=
  [ (checkMaintenanceLogs o, maintenanceLogRules);
    (checkPilotLogs o, pilotLogRules);
    (checkAirworthiness o, airworthinessRules);
    (checkWeightBalance o, weightBalanceRules) ].

(** Concatenation of the enabled catalogs. *)
Definition enabled_union (o : CheckOptions) : list ComplianceRule :=
  flat_map (fun c : bool * list ComplianceRule => if fst c then snd c else [])
           (catalogs o).

(** Whether the category of a rule is enabled. *)
Definition category_enabled (o : CheckOptions) (c : Category) : bool :=
  match c with
  | maintenance => checkMaintenanceLogs o
  | pilot_log => checkPilotLogs o
  | airworthiness => checkAirworthiness o
  | weight_balance => checkWeightBalance o
  end.

(** Deduplication of a rule list by rule id, first occurrence kept. *)
Fixpoint dedup_rules (seen : list jsstring) (l : list ComplianceRule)
  : list ComplianceRule :=
  match l with
  | [] => []
  | r :: l' =>
      if existsb (JS.eqb (rule_id r)) seen
      then dedup_rules seen l'
      else r :: dedup_rules (rule_id r :: seen) l'
  end.

(** What every rule of a list does on one document, in order: the rule, and
    how its check completed in the world the rules before it left behind
    (a throwing rule leaves the line [checkFile] logs for it). *)
Fixpoint rule_outcomes (rules : list ComplianceRule) (content filename : jsstring)
    (h : Host) (w : World)
  : list (ComplianceRule * Completion (list ComplianceViolation)) :=
  match rules with
  | [] => []
  | rule :: rules' =>
      let (w1, o) := check rule content filename h w in
      let w2 := match o with
                | Normal _ => w1
                | Throw e => fst (console_error (error_label rule filename) e h w1)
                end in
      (rule, o) :: rule_outcomes rules' content filename h w2
  end.

(** The violations a rule contributes: none when its check threw. *)
Definition contribution
    (ro : ComplianceRule * Completion (list ComplianceViolation))
  : list ComplianceViolation :=
  match snd ro with
  | Normal vs => vs
  | Throw _ => []
  end.

(** The console line a rule causes: one when its check threw. *)
Definition logged (filename : jsstring)
    (ro : ComplianceRule * Completion (list ComplianceViolation))
  : list (jsstring * JsError) :=
  match snd ro with
  | Normal _ => []
  | Throw e => [(error_label (fst ro) filename, e)]
  end.

(** A check that leaves the console alone. *)
Definition quiet (rule : ComplianceRule) : Prop :=
  forall content filename h w,
    console (fst (check rule content filename h w)) = console w.


(** Every glob call of a pattern list returns: [ls] holds the matches of
    each pattern, in pattern order. *)
Definition resolved (h : Host) (patterns : list jsstring)
    (ls : list (list jsstring)) : Prop :=
  Forall2 (fun p matches => glob h p = Normal matches) patterns ls.

(** How the glob calls of a pattern list complete, taken together: all the
    matches in pattern order, or the error of the first call that throws. *)
Fixpoint resolve (h : Host) (patterns : list jsstring)
  : Completion (list jsstring) :=
  match patterns with
  | [] => Normal []
  | p :: ps =>
      match glob h p with
      | Throw e => Throw e
      | Normal matches =>
          match resolve h ps with
          | Normal rest => Normal (matches ++ rest)
          | Throw e => Throw e
          end
      end
  end.

(** A name some pattern of the list resolves to. *)
Definition resolves_to (h : Host) (patterns : list jsstring) (f : jsstring) : Prop :=
  exists p matches, In p patterns /\ glob h p = Normal matches /\ In f matches.


(** The violation WB-001 reports for a missing item, written out. *)
Definition wb_missing (name : jsstring) : ComplianceViolation :=
  mkViolation (str "WB-001") None
    (str "Missing weight and balance data: " ++ name)
    error
    (str "14 CFR 91.9")
    (Some (str "Include " ++ name ++ str " in weight and balance documentation")).


(** *** The markdown report, as a text built from its parts *)

Definition render_suggestion (v : ComplianceViolation) : jsstring :=
  match suggestion v with
  | Some s => if truthy s then str "   - *Suggestion:* " ++ s ++ nl else []
  | None => []
  end.

Definition render_violation (icon : jsstring) (v : ComplianceViolation) : jsstring :=
  icon ++ str " **" ++ ruleId v ++ str "**: " ++ message v ++ nl
  ++ str "   - *Regulation:* " ++ regulation v ++ nl
  ++ render_suggestion v
  ++ nl.

(** A file with its violations, each under the icon [icon_of] gives it. *)
Definition render_file (icon_of : ComplianceViolation -> jsstring)
    (f : FileComplianceResult) : jsstring :=
  str "### `" ++ filename f ++ str "`" ++ nl ++ nl
  ++ concat (List.map (fun v => render_violation (icon_of v) v) (violations f)).

Definition render_passed (f : FileComplianceResult) : jsstring :=
  str "- `" ++ filename f ++ str "`" ++ nl.

(** A section: nothing for an empty group, else heading, entries, trailer. *)
Definition render_group (heading : jsstring)
    (entry : FileComplianceResult -> jsstring) (trailer : jsstring)
    (files : list FileComplianceResult) : jsstring :=
  match files with
  | [] => []
  | _ :: _ => heading ++ concat (List.map entry files) ++ trailer
  end.

(** The header: title and the five summary lines, from the stored counts. *)
Definition render_header (checked total : nat) (c : SeverityCounts) : jsstring :=
  str "# " ++ airplane ++ str " Aviation Compliance Report" ++ nl ++ nl
  ++ str "## Summary" ++ nl ++ nl
  ++ str "- **Files Checked:** " ++ num checked ++ nl
  ++ str "- **Total Violations:** " ++ num total ++ nl
  ++ str "- **Errors:** " ++ num (count_error c) ++ str " " ++ cross_mark ++ nl
  ++ str "- **Warnings:** " ++ num (count_warning c) ++ str " " ++ warning_sign ++ nl
  ++ str "- **Info:** " ++ num (count_info c) ++ str " " ++ info_sign ++ nl ++ nl.

Definition render_footer : jsstring :=
  str "---" ++ nl ++ nl
  ++ str "*Generated by [Aviation Compliance Checker](https://github.com/marketplace/actions/aviation-compliance-checker)*"
  ++ nl.

(** Failed files, then files with warnings, then passed files; each group
    keeps the order of the list it is taken from. *)
Definition render_groups (files : list FileComplianceResult) : jsstring :=
  render_group (str "## " ++ cross_mark ++ str " Failed Files" ++ nl ++ nl)
               (render_file (fun v => severity_icon (severity v))) []
               (filter (has_status FAIL) files)
  ++ render_group (str "## " ++ warning_sign ++ str " Files with Warnings" ++ nl ++ nl)
                  (render_file (fun _ => warning_sign)) []
                  (filter (has_status WARNING) files)
  ++ render_group (str "## " ++ check_mark ++ str " Passed Files" ++ nl ++ nl)
                  render_passed nl
                  (filter (has_status PASS) files).

Definition render (report : ComplianceReport) : jsstring :=
  render_header (filesChecked report) (totalViolations report)
                (violationsBySeverity report)
  ++ render_groups (fileResults report)
  ++ render_footer.

(** A statement of the markdown method emits [text] when all it does is to
    append [text] (which may read the report) to [markdown]. *)
Definition emits (s : Stmt) (text : ComplianceReport -> jsstring) : Prop :=
  forall st, s st = mkMdStore (md_report st) (markdown st ++ text (md_report st)).

(** Some violation of the list has severity [s]. *)
Definition has_severity (s : Severity) (vs : list ComplianceViolation) : Prop :=
  exists v, In v vs /\ severity v = s.

(** The sum of the three per-severity counts. *)
Definition counts_total (c : SeverityCounts) : nat :=
  count_error c + count_warning c + count_info c.

(** The code unit before the position that splits a string after [a]. *)
Fixpoint last_before (p : option N) (a : jsstring) : option N :=
  match a with
  | [] => p
  | ch :: a' => last_before (Some ch) a'
  end.

End Spec.

(* ================================================================== *)
(** ** The action ([main.ts]) *)
(* ================================================================== *)

Module Main.
Import Rules Checker.

(** *** String methods *)

(** [s.split(sep)] for a one-character separator. *)
Fixpoint split_on (sep : N) (s : jsstring) : list jsstring :=
  match s with
  | [] => [[]]
  | ch :: s' =>
      if N.eqb ch sep then [] :: split_on sep s'
      else match split_on sep s' with
           | [] => [[ch]]
           | piece :: pieces => (ch :: piece) :: pieces
           end
  end.

(** White space and line terminators, which [trim] removes. *)
Definition is_space (ch : N) : bool := existsb (N.eqb ch) RegExp.WhiteSpace.

Fixpoint trimStart (s : jsstring) : jsstring :=
  match s with
  | [] => []
  | ch :: s' => if is_space ch then trimStart s' else s
  end.

Definition trimEnd (s : jsstring) : jsstring := rev (trimStart (rev s)).

(** [s.trim()] *)
Definition trim (s : jsstring) : jsstring := trimEnd (trimStart s).

Fixpoint startsWith (s pat : jsstring) : bool :=
  match pat, s with
  | [], _ => true
  | p :: pat', ch :: s' => N.eqb p ch && startsWith s' pat'
  | _ :: _, [] => false
  end.

(** [s.includes(pat)] *)
Fixpoint includes (s pat : jsstring) : bool :=
  startsWith s pat
  || match s with
     | [] => false
     | _ :: s' => includes s' pat
     end.

(** *** What the action does to its surroundings *)

Inductive Level := LError | LWarning | LNotice.

(** The calls the action makes, in the order it makes them:
    [core.info], [core.error] / [core.warning] / [core.notice] (with the
    [file] and [title] of the annotation when given), [core.startGroup],
    [core.endGroup], [core.setOutput], [core.setFailed], a file written by
    [fs.writeFileSync], and the three requests to the issue-comment API. *)
Inductive Event :=
| Info (msg : jsstring)
| Annotate (level : Level) (msg : jsstring) (props : option (jsstring * jsstring))
| StartGroup (name : jsstring)
| EndGroup
| SetOutput (name value : jsstring)
| SetFailed (msg : jsstring)
| WriteFile (path data : jsstring)
| ListComments (owner repo : jsstring) (issue_number : nat)
| UpdateComment (owner repo : jsstring) (comment_id : nat) (body : jsstring)
| CreateComment (owner repo : jsstring) (issue_number : nat) (body : jsstring).

(** An issue comment as the action reads it: [id], [user?.type], [body]. *)
Record Comment := mkComment {
  comment_id : nat;
  user_type : option jsstring;
  comment_body : option jsstring
}.

(** What the action reads from the runner and from GitHub.
    - [getInput name]: the value of [core.getInput(name)];
    - [report_path]: [path.join(process.cwd(), 'aviation-compliance-report.md')];
    - [writeFileSync path data]: [None] when the file is written, the error
      when the call throws;
    - [pull_request]: the number of [github.context.payload.pull_request],
      if there is one;
    - [context_repo]: [github.context.repo], a getter that may throw;
    - [getOctokit token]: the error when the client cannot be built;
    - [listComments], [updateComment], [createComment]: how the requests
      complete;
    - [toISOString t]: [new Date(t).toISOString()];
    - [String_of_error e]: the text of [e] in a template literal. *)
Record Env := mkEnv {
  getInput : jsstring -> jsstring;
  report_path : jsstring;
  writeFileSync : jsstring -> jsstring -> option JsError;
  pull_request : option nat;
  context_repo : Completion (jsstring * jsstring);
  getOctokit : jsstring -> option JsError;
  listComments : jsstring -> jsstring -> nat -> Completion (list Comment);
  updateComment : jsstring -> jsstring -> nat -> jsstring -> option JsError;
  createComment : jsstring -> jsstring -> nat -> jsstring -> option JsError;
  toISOString : Z -> jsstring;
  String_of_error : JsError -> jsstring
}.

(** The state of a run of the action: the world of the checker and the calls
    made so far. *)
Record Process := mkProcess {
  world : World;
  trace : list Event
}.

Definition Act (A : Type) := Env -> Host -> Process -> Process * Completion A.

Definition retA {A} (a : A) : Act A := fun _ _ p => (p, Normal a).

Definition bindA {A B} (m : Act A) (f : A -> Act B) : Act B :=
  fun env h p =>
    match m env h p with
    | (p', Normal a) => f a env h p'
    | (p', Throw e) => (p', Throw e)
    end.

Definition try_catchA {A} (body : Act A) (handler : JsError -> Act A) : Act A :=
  fun env h p =>
    match body env h p with
    | (p', Normal a) => (p', Normal a)
    | (p', Throw e) => handler e env h p'
    end.

Notation "x <~ m ;; k" := (bindA m (fun x => k))
  (at level 61, m at next level, right associativity).
Notation "m ;;~ k" := (bindA m (fun _ => k))
  (at level 61, right associativity).

Definition ask : Act Env := fun env _ p => (p, Normal env).

(** A call of the checker, in its own monad. *)
Definition liftM {A} (m : M A) : Act A :=
  fun _ h p =>
    match m h (world p) with
    | (w', c) => (mkProcess w' (trace p), c)
    end.

Definition emit (e : Event) : Act unit :=
  fun _ _ p => (mkProcess (world p) (trace p ++ [e]), Normal tt).

(** A value or the error thrown in its place. *)
Definition of_completion {A} (c : Completion A) : Act A :=
  fun _ _ p => (p, c).

(** A call that may throw. *)
Definition or_throw (r : option JsError) : Act unit :=
  of_completion (match r with None => Normal tt | Some e => Throw e end).

(** [xs.forEach(x => body x)] *)
Fixpoint forEachA {A} (xs : list A) (body : A -> Act unit) : Act unit :=
  match xs with
  | [] => retA tt
  | x :: xs' => body x ;;~ forEachA xs' body
  end.

(** Characters of the messages outside ASCII (UTF-16 code units). *)
Definition departure : jsstring := [55357; 57067]%N.     (* U+1F6EB *)
Definition page : jsstring := [55357; 56516]%N.          (* U+1F4C4 *)
Definition clipboard : jsstring := [55357; 56523]%N.     (* U+1F4CB *)
Definition bulb : jsstring := [55357; 56481]%N.          (* U+1F4A1 *)
Definition speech : jsstring := [55357; 56492]%N.        (* U+1F4AC *)

Definition comma : N := 44%N.

(** The text the action looks for in the comments of a pull request. *)
Definition marker : jsstring := str "Aviation Compliance Report".

(** [comment.user?.type === 'Bot' && comment.body?.includes(marker)] *)
Definition is_bot_report (c : Comment) : bool :=
  match user_type c with
  | Some ty => JS.eqb ty (str "Bot")
  | None => false
  end
  && match comment_body c with
     | Some b => includes b marker
     | None => false
     end.

Definition comment_body_of (markdown iso : jsstring) : jsstring :=
  markdown ++ nl ++ nl ++ str "<sub>Last updated: " ++ iso ++ str "</sub>".

Definition postPRComment (token markdown : jsstring) : Act unit :=
  try_catchA
    (env <~ ask ;;
     or_throw (getOctokit env token) ;;~
     match pull_request env with
     | None => retA tt
     | Some pull_number =>
         owner_repo <~ of_completion (context_repo env) ;;
         let owner := fst owner_repo in
         let repo := snd owner_repo in
         emit (ListComments owner repo pull_number) ;;~
         comments <~ of_completion (listComments env owner repo pull_number) ;;
         let botComment := find is_bot_report comments in
         now <~ liftM new_Date_getTime ;;
         let commentBody := comment_body_of markdown (toISOString env now) in
         match botComment with
         | Some c =>
             emit (UpdateComment owner repo (comment_id c) commentBody) ;;~
             or_throw (updateComment env owner repo (comment_id c) commentBody) ;;~
             emit (Info (speech ++ str " Updated existing PR comment"))
         | None =>
             emit (CreateComment owner repo pull_number commentBody) ;;~
             or_throw (createComment env owner repo pull_number commentBody) ;;~
             emit (Info (speech ++ str " Posted PR comment"))
         end
     end)
    (fun error =>
       env <~ ask ;;
       emit (Annotate LWarning
               (str "Failed to post PR comment: " ++ String_of_error env error)
               None)).

(** [`${fileResult.status}`] *)
Definition status_text (s : Status) : jsstring :=
  match s with
  | PASS => str "PASS"
  | FAIL => str "FAIL"
  | WARNING => str "WARNING"
  end.

(** The body of the inner loop of the violations group. *)
Definition log_violation (fileResult : FileComplianceResult)
    (violation : ComplianceViolation) : Act unit :=
  let icon := match severity violation with
              | error => cross_mark
              | warning => warning_sign
              | info => info_sign
              end in
  let message := icon ++ str " [" ++ ruleId violation ++ str "] "
                 ++ message violation in
  let props := Some (filename fileResult, regulation violation) in
  match severity violation with
  | error => emit (Annotate LError message props)
  | warning => emit (Annotate LWarning message props)
  | info => emit (Annotate LNotice message props)
  end ;;~
  match suggestion violation with
  | Some s =>
      if truthy s
      then emit (Info (str "   " ++ bulb ++ str " Suggestion: " ++ s))
      else retA tt
  | None => retA tt
  end.

(** "Display detailed violations": the group of annotations. *)
Definition log_violations (report : ComplianceReport) : Act unit :=
  if 0 <? totalViolations report then
    emit (StartGroup (clipboard ++ str " Compliance Violations")) ;;~
    forEachA (fileResults report) (fun fileResult =>
      if 0 <? length (violations fileResult) then
        emit (Info (nl ++ page ++ str " " ++ filename fileResult ++ str " ("
                    ++ status_text (status fileResult) ++ str ")")) ;;~
        forEachA (violations fileResult) (log_violation fileResult)
      else retA tt) ;;~
    emit EndGroup
  else retA tt.

(** "Fail if configured and violations found": the last statement. *)
Definition conclude (failOnViolation : bool) (report : ComplianceReport) : Act unit :=
  let errors := count_error (violationsBySeverity report) in
  if failOnViolation && (0 <? errors) then
    emit (SetFailed (cross_mark ++ str " Found " ++ num errors
                     ++ str " compliance error(s)"))
  else if (errors =? 0) && (totalViolations report =? 0) then
    emit (Info (check_mark ++ str " All files passed aviation compliance checks!"))
  else
    emit (Info (warning_sign ++ str " Found " ++ num (totalViolations report)
                ++ str " violation(s), but not failing due to configuration")).

(** [fs.writeFileSync(path, data)]: the file is written, or the call
    throws and nothing is written. *)
Definition fs_writeFileSync (path data : jsstring) : Act unit :=
  env <~ ask ;;
  match writeFileSync env path data with
  | None => emit (WriteFile path data)
  | Some e => of_completion (Throw e)
  end.

Definition is_true (s : jsstring) : bool := JS.eqb s (str "true").

(** The options the action builds from its inputs. *)
Definition options_of (env : Env) : CheckOptions :=
  mkOptions (is_true (getInput env (str "check-maintenance-logs")))
            (is_true (getInput env (str "check-pilot-logs")))
            (is_true (getInput env (str "check-airworthiness")))
            (is_true (getInput env (str "check-weight-balance"))).

(** [filesInput.split(',').map(p => p.trim())] *)
Definition patterns_of (filesInput : jsstring) : list jsstring :=
  List.map trim (split_on comma filesInput).

(** [run]. Everything thrown in the model is an [Error] object with a
    message (what [fs] and the checker throw), so of the two branches of the
    handler the one for other values is never taken and is left out. *)
Definition run : Act unit :=
  try_catchA
    (env <~ ask ;;
     (* Get inputs *)
     let filesInput := getInput env (str "files") in
     let options := options_of env in
     let failOnViolation := is_true (getInput env (str "fail-on-violation")) in
     let githubToken := getInput env (str "github-token") in
     emit (Info (departure ++ str " Starting Aviation Compliance Check...")) ;;~
     emit (Info (str "Files pattern: " ++ filesInput)) ;;~
     (* Parse file patterns *)
     let filePatterns := patterns_of filesInput in
     (* Create checker with options *)
     let checker := new_ComplianceChecker options in
     (* Run compliance check *)
     report <~ liftM (checkFiles checker filePatterns) ;;
     (* Generate reports *)
     let markdownReport := generateMarkdownReport report in
     (* Save report to file *)
     let reportPath := report_path env in
     fs_writeFileSync reportPath markdownReport ;;~
     emit (Info (page ++ str " Report saved to: " ++ reportPath)) ;;~
     (* Output results *)
     emit (SetOutput (str "violations-found") (num (totalViolations report))) ;;~
     emit (SetOutput (str "compliance-status")
             (if 0 <? count_error (violationsBySeverity report)
              then str "FAIL" else str "PASS")) ;;~
     emit (SetOutput (str "report-path") reportPath) ;;~
     (* Log summary *)
     emit (Info (nl ++ summary report)) ;;~
     (* Post PR comment if in PR context *)
     (if match pull_request env with Some _ => true | None => false end
         && truthy githubToken
      then postPRComment githubToken markdownReport
      else retA tt) ;;~
     (* Display detailed violations *)
     log_violations report ;;~
     (* Fail if configured and violations found *)
     conclude failOnViolation report)
    (fun error =>
       match error with
       | Error msg => emit (SetFailed (str "Action failed: " ++ msg))
       end).

End Main.

(* ================================================================== *)
(** ** Reference definitions for the properties of the action *)
(* ================================================================== *)

Module MainSpec.
Import Rules Checker Main.

(** [pieces.join(sep)] for a one-character separator. *)
Fixpoint join (sep : N) (pieces : list jsstring) : jsstring :=
  match pieces with
  | [] => []
  | [piece] => piece
  | piece :: pieces' => piece ++ sep :: join sep pieces'
  end.

(** How often a character occurs in a string. *)
Definition occurrences (ch : N) (s : jsstring) : nat :=
  length (filter (N.eqb ch) s).

(** A string that neither starts nor ends with white space. *)
Definition trimmed (s : jsstring) : Prop :=
  match s with
  | [] => True
  | ch :: _ => is_space ch = false /\ is_space (last s ch) = false
  end.

(** A statement of the action that only makes the calls [evs] and returns. *)
Definition writes (a : Act unit) (evs : list Event) : Prop :=
  forall env h p, a env h p = (mkProcess (world p) (trace p ++ evs), Normal tt).

(** The two messages every run starts with. *)
Definition head_events (env : Env) : list Event :=
  [ Info (departure ++ str " Starting Aviation Compliance Check...");
    Info (str "Files pattern: " ++ getInput env (str "files")) ].

(** The calls that save the report and set the outputs. *)
Definition report_events (env : Env) (report : ComplianceReport) : list Event :=
  [ WriteFile (report_path env) (generateMarkdownReport report);
    Info (page ++ str " Report saved to: " ++ report_path env);
    SetOutput (str "violations-found") (num (totalViolations report));
    SetOutput (str "compliance-status")
      (if 0 <? count_error (violationsBySeverity report)
       then str "FAIL" else str "PASS");
    SetOutput (str "report-path") (report_path env);
    Info (nl ++ summary report) ].

Definition level_of (s : Severity) : Level :=
  match s with
  | error => LError
  | warning => LWarning
  | info => LNotice
  end.

(** The annotation of a violation of a file. *)
Definition annotation_of (f : FileComplianceResult) (v : ComplianceViolation)
  : Event :=
  Annotate (level_of (severity v))
    (severity_icon (severity v) ++ str " [" ++ ruleId v ++ str "] " ++ message v)
    (Some (filename f, regulation v)).

Definition suggestion_events (v : ComplianceViolation) : list Event :=
  match suggestion v with
  | Some s =>
      if truthy s then [Info (str "   " ++ bulb ++ str " Suggestion: " ++ s)] else []
  | None => []
  end.

Definition file_events (f : FileComplianceResult) : list Event :=
  match violations f with
  | [] => []
  | _ :: _ =>
      Info (nl ++ page ++ str " " ++ filename f ++ str " ("
            ++ status_text (status f) ++ str ")")
      :: flat_map (fun v => annotation_of f v :: suggestion_events v) (violations f)
  end.

Definition group_events (report : ComplianceReport) : list Event :=
  match totalViolations report with
  | O => []
  | S _ =>
      StartGroup (clipboard ++ str " Compliance Violations")
      :: flat_map file_events (fileResults report) ++ [EndGroup]
  end.

(** The last call of a run that got as far as its last statement. *)
Definition final_event (failOnViolation : bool) (report : ComplianceReport) : Event :=
  let errors := count_error (violationsBySeverity report) in
  if failOnViolation && (0 <? errors) then
    SetFailed (cross_mark ++ str " Found " ++ num errors ++ str " compliance error(s)")
  else if (errors =? 0) && (totalViolations report =? 0) then
    Info (check_mark ++ str " All files passed aviation compliance checks!")
  else
    Info (warning_sign ++ str " Found " ++ num (totalViolations report)
          ++ str " violation(s), but not failing due to configuration").

Definition is_SetFailed (e : Event) : bool :=
  match e with SetFailed _ => true | _ => false end.

Definition is_request (e : Event) : bool :=
  match e with
  | ListComments _ _ _ | UpdateComment _ _ _ _ | CreateComment _ _ _ _ => true
  | _ => false
  end.

Definition is_write_request (e : Event) : bool :=
  match e with
  | UpdateComment _ _ _ _ | CreateComment _ _ _ _ => true
  | _ => false
  end.

(** The calls [postPRComment] can make: requests, its two messages, and its
    warning. *)
Definition comment_event (e : Event) : Prop :=
  match e with
  | ListComments _ _ _ | UpdateComment _ _ _ _ | CreateComment _ _ _ _ => True
  | Info _ => True
  | Annotate LWarning _ None => True
  | _ => False
  end.

(** The outputs set, in order. *)
Definition outputs_of (t : list Event) : list (jsstring * jsstring) :=
  flat_map (fun e => match e with
                     | SetOutput name value => [(name, value)]
                     | _ => []
                     end) t.

(** The annotations attached to files, in order. *)
Definition annotations_of (t : list Event) : list Event :=
  filter (fun e => match e with
                   | Annotate _ _ (Some _) => true
                   | _ => false
                   end) t.

Definition has_level (l : Level) (e : Event) : bool :=
  match e, l with
  | Annotate LError _ _, LError
  | Annotate LWarning _ _, LWarning
  | Annotate LNotice _ _, LNotice => true
  | _, _ => false
  end.

(** The checker and the patterns a run uses. *)
Definition run_check (env : Env) : M ComplianceReport :=
  checkFiles (new_ComplianceChecker (options_of env))
             (patterns_of (getInput env (str "files"))).

(** The calls of the violations group: messages, annotations attached to
    files, and the two ends of the group. *)
Definition group_event (e : Event) : Prop :=
  match e with
  | Info _ | Annotate _ _ (Some _) | StartGroup _ | EndGroup => True
  | _ => False
  end.

(** One annotation per violation, file by file. *)
Definition file_annotations (frs : list FileComplianceResult) : list Event :=
  flat_map (fun f => List.map (annotation_of f) (violations f)) frs.

(** The warning of [postPRComment]: a warning attached to no file. *)
Definition is_warning (e : Event) : bool :=
  match e with Annotate LWarning _ None => true | _ => false end.

(** A runner for the examples: every switch is on, the files input names two
    patterns, every call to the runner and to GitHub succeeds, and the pull
    request and its comments are as given. *)
Definition sample_inputs (name : jsstring) : jsstring :=
  if JS.eqb name (str "files") then str " *.md, docs/*.md"
  else if JS.eqb name (str "github-token") then str "token"
  else str "true".

Definition sample_env (pr : option nat) (comments : list Comment) : Env :=
  mkEnv sample_inputs
        (str "/work/aviation-compliance-report.md")
        (fun _ _ => None)
        pr
        (Normal (str "owner", str "repo"))
        (fun _ => None)
        (fun _ _ _ => Normal comments)
        (fun _ _ _ _ => None)
        (fun _ _ _ _ => None)
        (fun _ => str "2026-06-01T00:00:00.000Z")
        (fun e => match e with Error msg => str "Error: " ++ msg end).

End MainSpec.

(* ================================================================== *)
(** ** Reference definitions for the properties of the rest of the code *)
(* ================================================================== *)

Module More.
Import Rules Checker.

(** The worse of two statuses: FAIL over WARNING over PASS. *)
Definition status_join (a b : Status) : Status :=
  match a, b with
  | FAIL, _ | _, FAIL => FAIL
  | WARNING, _ | _, WARNING => WARNING
  | PASS, PASS => PASS
  end.

(** What a violation of rule [r] is expected to carry: the rule's id,
    severity and regulation, no line, and a suggestion that is not empty. *)
Definition carries_rule (r : ComplianceRule) (v : ComplianceViolation) : Prop :=
  ruleId v = rule_id r /\
  severity v = rule_severity r /\
  regulation v = rule_regulation r /\
  line v = None /\
  exists s, suggestion v = Some s /\ truthy s = true.

(** Whether a rule is the inspection-currency rule, by its id. *)
Definition reads_clock (r : ComplianceRule) : bool :=
  JS.eqb (rule_id r) (str "INSP-001").

(** A check that returns on every document, does not write to the console,
    reads the clock at most once, and that only if it is INSP-001, and emits
    violations that carry the rule. *)
Definition behaves (r : ComplianceRule) : Prop :=
  forall content filename h w,
    exists w' vs,
      check r content filename h w = (w', Normal vs) /\
      console w' = console w /\
      clock_reads w <= clock_reads w' /\
      clock_reads w' <= clock_reads w + (if reads_clock r then 1 else 0) /\
      Forall (carries_rule r) vs.

(** The groups of the markdown report with every violation, also of a file
    with warnings, under the icon of its own severity. *)
Definition render_groups_by_severity (files : list FileComplianceResult)
  : jsstring :=
  Spec.render_group (str "## " ++ cross_mark ++ str " Failed Files" ++ nl ++ nl)
    (Spec.render_file (fun v => severity_icon (severity v))) []
    (filter (has_status FAIL) files)
  ++ Spec.render_group
       (str "## " ++ warning_sign ++ str " Files with Warnings" ++ nl ++ nl)
       (Spec.render_file (fun v => severity_icon (severity v))) []
       (filter (has_status WARNING) files)
  ++ Spec.render_group (str "## " ++ check_mark ++ str " Passed Files" ++ nl ++ nl)
       Spec.render_passed nl
       (filter (has_status PASS) files).

(** The violations of the files of a report, in report order. *)
Definition all_violations (frs : list FileComplianceResult)
  : list ComplianceViolation :=
  flat_map violations frs.

Definition is_severity (s : Severity) (v : ComplianceViolation) : bool :=
  Severity_eqb (severity v) s.

(** An entry of a checklist whose pattern is not found in the document. *)
Definition missing (content : jsstring) (it : Item) : bool :=
  negb (RegExp.test (item_pattern it) content).

(** The message of the AROW-001 violation for the weight-and-balance
    document. *)
Definition arow_wb_message : jsstring :=
  str "Missing AROW document reference: Weight and Balance".

(** The counter of a severity. *)
Definition count_of (s : Severity) (c : SeverityCounts) : nat :=
  match s with
  | error => count_error c
  | warning => count_warning c
  | info => count_info c
  end.

(** The text of the summary for given counts: files, passed, with warnings,
    failed, violations, errors, warnings, info. *)
Definition summary_text (files passed warned failed total e w i : nat) : jsstring :=
  str "Aviation Compliance Check Complete" ++ nl ++ nl
  ++ str "Files Checked: " ++ num files ++ nl
  ++ check_mark ++ str " Passed: " ++ num passed ++ nl
  ++ warning_sign ++ str "  Warnings: " ++ num warned ++ nl
  ++ cross_mark ++ str " Failed: " ++ num failed ++ nl ++ nl
  ++ str "Total Violations: " ++ num total ++ nl
  ++ str "  - Errors: " ++ num e ++ nl
  ++ str "  - Warnings: " ++ num w ++ nl
  ++ str "  - Info: " ++ num i ++ nl.

(** *** What a pattern matches

    [Steps ic r x z]: pattern [r] can take the matcher from state [x] to
    state [z], read off the syntax of the pattern. *)

Fixpoint iter (R : RegExp.MatchState -> RegExp.MatchState -> Prop) (n : nat)
    (x z : RegExp.MatchState) : Prop :=
  match n with
  | O => x = z
  | S n' => exists y, R x y /\ iter R n' y z
  end.

Fixpoint Steps (ic : bool) (r : RegExp.Regex) (x z : RegExp.MatchState) : Prop :=
  match r with
  | RegExp.REmpty => x = z
  | RegExp.RSet A =>
      exists ch s, RegExp.rest x = ch :: s /\
                   RegExp.set_member ic A ch = true /\
                   z = RegExp.mkState (Some ch) s
  | RegExp.RDot =>
      exists ch s, RegExp.rest x = ch :: s /\
                   RegExp.isLineTerminator ch = false /\
                   z = RegExp.mkState (Some ch) s
  | RegExp.RWordB =>
      xorb (RegExp.IsWordChar (RegExp.prev x))
           (RegExp.IsWordChar (hd_error (RegExp.rest x))) = true /\ x = z
  | RegExp.RSeq r1 r2 => exists y, Steps ic r1 x y /\ Steps ic r2 y z
  | RegExp.RAlt r1 r2 => Steps ic r1 x z \/ Steps ic r2 x z
  | RegExp.RQuant r' min max =>
      exists n, min <= n /\
                match max with
                | Some mx => n <= min + (mx - min)
                | None => True
                end /\
                iter (Steps ic r') n x z
  | RegExp.RGroup r' => Steps ic r' x z
  end.

Definition is_digit (ch : N) : Prop := (48 <= ch <= 57)%N.
Definition is_date_sep (ch : N) : Prop := ch = 45%N \/ ch = 47%N.

(** The shape of [\d{1,2}[-\/]\d{1,2}[-\/]\d{2,4}]. *)
Definition date_shaped (m : jsstring) : Prop :=
  exists d1 s1 d2 s2 d3,
    m = d1 ++ s1 :: d2 ++ s2 :: d3 /\
    Forall is_digit d1 /\ 1 <= length d1 <= 2 /\ is_date_sep s1 /\
    Forall is_digit d2 /\ 1 <= length d2 <= 2 /\ is_date_sep s2 /\
    Forall is_digit d3 /\ 2 <= length d3 <= 4.

(** *** Letter case *)

(** A string with its ASCII letters in upper case. *)
Definition fold_case (s : jsstring) : jsstring :=
  List.map (RegExp.Canonicalize true) s.

Definition fold_state (x : RegExp.MatchState) : RegExp.MatchState :=
  RegExp.mkState (option_map (RegExp.Canonicalize true) (RegExp.prev x))
                 (fold_case (RegExp.rest x)).

(** The character sets of a pattern do not tell a letter from its upper
    case. *)
Fixpoint sets_blind (ic : bool) (r : RegExp.Regex) : Prop :=
  match r with
  | RegExp.RSet A =>
      forall ch, RegExp.set_member ic A (RegExp.Canonicalize true ch)
                 = RegExp.set_member ic A ch
  | RegExp.RSeq r1 r2 | RegExp.RAlt r1 r2 => sets_blind ic r1 /\ sets_blind ic r2
  | RegExp.RQuant r' _ _ | RegExp.RGroup r' => sets_blind ic r'
  | RegExp.REmpty | RegExp.RDot | RegExp.RWordB => True
  end.

(** A matcher is sound for a relation when it only succeeds through its
    continuation, at a state the relation allows. *)
Definition sound_for (m : RegExp.Matcher)
    (R : RegExp.MatchState -> RegExp.MatchState -> Prop) : Prop :=
  forall x c z, m x c = Some z -> exists y, R x y /\ c y = Some z.

(** Two continuations, and two runs of a matcher, that correspond under the
    change of case. *)
Definition related (c c' : RegExp.Continuation) : Prop :=
  forall y, c' (fold_state y) = option_map fold_state (c y).

Definition matcher_blind (m : RegExp.Matcher) : Prop :=
  forall x c c', related c c' ->
                 m (fold_state x) c' = option_map fold_state (m x c).

End More.

(* ================================================================== *)
(** ** Properties of strings and of the matcher *)
(* ================================================================== *)

Lemma eqb_eq (a b : jsstring) : JS.eqb a b = true <-> a = b.
Proof.
  revert b; induction a as [|x a IH]; intros [|y b]; simpl;
    try (split; [discriminate | congruence]); try tauto.
  rewrite andb_true_iff, N.eqb_eq, IH.
  split; [intros [-> ->]; reflexivity | intros E; injection E; auto].
Qed.

Lemma eqb_refl (a : jsstring) : JS.eqb a a = true.
Proof. apply eqb_eq; reflexivity. Qed.

Lemma existsb_eqb_In (x : jsstring) (l : list jsstring) :
  existsb (JS.eqb x) l = true <-> In x l.
Proof.
  rewrite existsb_exists; split.
  - intros (y & Hy & E). apply eqb_eq in E. subst; assumption.
  - intros H. exists x. split; [assumption | apply eqb_refl].
Qed.

(** Two bounds that both exceed the input left give the same iterations:
    the bound of an unbounded quantifier cuts nothing off. *)
Lemma RepeatOpt_bounds (m : RegExp.Matcher) (c : RegExp.Continuation) :
  forall n1 n2 x,
    length (RegExp.rest x) < n1 -> length (RegExp.rest x) < n2 ->
    RegExp.RepeatOpt m n1 x c = RegExp.RepeatOpt m n2 x c.
Proof.
  induction n1 as [|n1 IH]; intros n2 x H1 H2; [lia|].
  destruct n2 as [|n2]; [lia|]. simpl.
  replace (fun y : RegExp.MatchState =>
             if length (RegExp.rest y) <? length (RegExp.rest x)
             then RegExp.RepeatOpt m n1 y c else None)
    with (fun y : RegExp.MatchState =>
            if length (RegExp.rest y) <? length (RegExp.rest x)
            then RegExp.RepeatOpt m n2 y c else None); [reflexivity|].
  apply functional_extensionality; intros y.
  destruct (Nat.ltb_spec (length (RegExp.rest y)) (length (RegExp.rest x)));
    [|reflexivity].
  symmetry; apply IH; lia.
Qed.

Lemma RepeatOpt_enough (m : RegExp.Matcher) (c : RegExp.Continuation) n x :
  length (RegExp.rest x) < n ->
  RegExp.RepeatOpt m n x c
  = RegExp.RepeatOpt m (S (length (RegExp.rest x))) x c.
Proof. intros H; apply RepeatOpt_bounds; lia. Qed.

(** The search loop returns the leftmost start position: the input splits
    into what lies before the match and what starts with it, and no attempt
    at an earlier position succeeds. *)
Lemma exec_from_leftmost (re : RegExp.RegExp) :
  forall s p from after,
    RegExp.exec_from re p s = Some (from, after) ->
    exists pre,
      s = pre ++ from /\
      RegExp.match_here re (Spec.last_before p pre) from <> None /\
      forall a b, s = a ++ b -> length a < length pre ->
                  RegExp.match_here re (Spec.last_before p a) b = None.
Proof.
  induction s as [|ch s IH]; intros p from after; simpl.
  - destruct (RegExp.match_here re p []) eqn:E; [|discriminate].
    intros H; injection H as <- <-. exists []. simpl.
    split; [reflexivity|]. split; [congruence|]. intros; lia.
  - destruct (RegExp.match_here re p (ch :: s)) eqn:E.
    + intros H; injection H as <- <-. exists []. simpl.
      split; [reflexivity|]. split; [congruence|]. intros; lia.
    + intros H. destruct (IH _ _ _ H) as (pre & -> & Hm & Hearlier).
      exists (ch :: pre). simpl. split; [reflexivity|]. split; [assumption|].
      intros [|x a] b Hs Hlen; simpl in *.
      * subst b. assumption.
      * injection Hs as -> Hs. apply Hearlier; [assumption | lia].
Qed.

(** The matched text is a substring of the input, at the leftmost position
    where the pattern matches. *)
Lemma String_match_leftmost (re : RegExp.RegExp) (s m : jsstring) :
  RegExp.String_match re s = Some m ->
  exists pre post,
    s = pre ++ m ++ post /\
    forall a b, s = a ++ b -> length a < length pre ->
                RegExp.match_here re (Spec.last_before None a) b = None.
Proof.
  unfold RegExp.String_match, RegExp.exec.
  destruct (RegExp.exec_from re None s) as [[from after]|] eqn:E; [|discriminate].
  intros H; injection H as <-.
  destruct (exec_from_leftmost _ _ _ E) as (pre & -> & _ & Hearlier).
  exists pre, (skipn (length from - length after) from).
  split; [|assumption].
  now rewrite firstn_skipn.
Qed.

(* ================================================================== *)
(** ** How the loops of the engine run *)
(* ================================================================== *)

Section Engine.
Import Rules Checker Spec.

(** The rule loop never throws; it collects the contributions in rule
    order behind what was collected before, and logs once per throwing
    rule. *)
Lemma rule_loop_spec (content filename : jsstring) (h : Host) :
  forall rs acc w,
    exists w',
      for_of rs acc (run_rule content filename) h w
      = (w', Normal (acc ++ flat_map contribution
                                     (rule_outcomes rs content filename h w))) /\
      (Forall quiet rs ->
       console w' = console w
                    ++ flat_map (logged filename)
                                (rule_outcomes rs content filename h w)).
Proof.
  induction rs as [|rule rs IH]; intros acc w; simpl.
  - exists w. unfold ret. rewrite !app_nil_r. auto.
  - assert (Hq : quiet rule -> console (fst (check rule content filename h w))
                               = console w) by (intros q; apply q).
    unfold bind at 1. unfold run_rule at 1. unfold try_catch, bind.
    destruct (check rule content filename h w) as [w1 [vs|e]]; simpl in *.
    + destruct (IH (acc ++ vs) w1) as (w' & Hrun & Hlog).
      exists w'. rewrite Hrun, <- app_assoc. split; [reflexivity|].
      intros Hall. inversion Hall as [|? ? Hr Hrs]; subst.
      rewrite (Hlog Hrs), (Hq Hr). reflexivity.
    + destruct (IH acc (mkWorld (clock_reads w1)
                                (console w1 ++ [(error_label rule filename, e)])))
        as (w' & Hrun & Hlog).
      exists w'. rewrite Hrun. split; [reflexivity|].
      intros Hall. inversion Hall as [|? ? Hr Hrs]; subst.
      rewrite (Hlog Hrs); simpl. rewrite (Hq Hr), <- app_assoc. reflexivity.
Qed.

Lemma rule_outcomes_rules (content filename : jsstring) (h : Host) :
  forall rs w,
    List.map fst (rule_outcomes rs content filename h w) = rs.
Proof.
  induction rs as [|rule rs IH]; intros w; simpl; [reflexivity|].
  destruct (check rule content filename h w) as [w1 o]; simpl.
  now rewrite IH.
Qed.

(** The result of [checkFile] carries the name of the file it was asked to
    check. *)
Lemma checkFile_filename (this : ComplianceChecker) (f : jsstring) h w w' r :
  checkFile this f h w = (w', Normal r) -> filename r = f.
Proof.
  unfold checkFile, bind at 1, fs_readFileSync.
  destruct (readFileSync h f) as [content|]; [|discriminate].
  unfold bind at 1.
  destruct (rule_loop_spec content f h (rules this) [] w) as (w1 & Hrun & _).
  rewrite Hrun. unfold ret. intros H; injection H as _ <-. reflexivity.
Qed.

Lemma checkFile_returns (this : ComplianceChecker) (f : jsstring) h w :
  readFileSync h f <> None ->
  exists w' r, checkFile this f h w = (w', Normal r).
Proof.
  intros Hread. destruct (readFileSync h f) as [content|] eqn:E; [|congruence].
  destruct (rule_loop_spec content f h (rules this) [] w) as (w1 & Hrun & _).
  unfold checkFile, bind at 1, fs_readFileSync. rewrite E.
  unfold bind at 1. rewrite Hrun. unfold ret. eauto.
Qed.

(** The status of a result of [checkFile] is the status derived from its
    violations. *)
Lemma checkFile_status (this : ComplianceChecker) (f : jsstring) h w w' r :
  checkFile this f h w = (w', Normal r) ->
  status r = determineStatus (violations r).
Proof.
  unfold checkFile, bind at 1, fs_readFileSync.
  destruct (readFileSync h f) as [content|]; [|discriminate].
  unfold bind at 1.
  destruct (rule_loop_spec content f h (rules this) [] w) as (w1 & Hrun & _).
  rewrite Hrun. unfold ret. intros H; injection H as _ <-. reflexivity.
Qed.

(** The glob loop of [findFiles] collects the expansions in pattern order
    and changes nothing; it stops at the first call that throws. *)
Lemma glob_loop_spec (h : Host) (w : World) :
  forall patterns acc,
    for_of patterns acc
      (fun pattern allFiles =>
         matches <- glob_async pattern ;; ret (allFiles ++ matches)) h w
    = (w, match resolve h patterns with
          | Normal l => Normal (acc ++ l)
          | Throw e => Throw e
          end).
Proof.
  induction patterns as [|p ps IH]; intros acc; simpl.
  - unfold ret. now rewrite app_nil_r.
  - unfold bind at 1. unfold bind at 1. unfold glob_async, ret.
    destruct (glob h p) as [matches|e]; [|reflexivity].
    rewrite IH. destruct (resolve h ps); [rewrite <- app_assoc|]; reflexivity.
Qed.

Lemma findFiles_run (patterns : list jsstring) (h : Host) (w : World) :
  findFiles patterns h w
  = (w, match resolve h patterns with
        | Normal l => Normal (Set_of_array l)
        | Throw e => Throw e
        end).
Proof.
  unfold findFiles, bind. rewrite glob_loop_spec.
  destruct (resolve h patterns); reflexivity.
Qed.

(** The calls of a pattern list all return exactly when each one does. *)
Lemma resolve_resolved (h : Host) :
  forall patterns l,
    resolve h patterns = Normal l <->
    exists ls, resolved h patterns ls /\ l = concat ls.
Proof.
  unfold resolved.
  induction patterns as [|p ps IH]; intros l; simpl.
  - split.
    + intros E; injection E as <-. exists []. split; [constructor | reflexivity].
    + intros (ls & H & ->). inversion H. reflexivity.
  - destruct (glob h p) as [matches|e] eqn:Ep.
    + destruct (resolve h ps) as [rest|e] eqn:Er.
      * split.
        -- intros E; injection E as <-.
           destruct (proj1 (IH rest) eq_refl) as (ls & H & ->).
           exists (matches :: ls). split; [constructor; assumption | reflexivity].
        -- intros (ls & H & ->). inversion H as [|? m ? ls' Hm Hls]; subst.
           rewrite Ep in Hm. injection Hm as <-.
           assert (E : Normal rest = Normal (concat ls'))
             by (apply IH; eauto).
           injection E as ->. reflexivity.
      * split; [discriminate|].
        intros (ls & H & ->). inversion H as [|? m ? ls' Hm Hls]; subst.
        assert (E : @Throw (list jsstring) e = Normal (concat ls'))
          by (apply IH; eauto).
        discriminate E.
    + split; [discriminate|].
      intros (ls & H & ->). inversion H as [|? m ? ls' Hm Hls]; subst.
      rewrite Ep in Hm. discriminate Hm.
Qed.

(** They throw exactly when one of them does, and then the error of the
    first that does. *)
Lemma resolve_throws (h : Host) (e : JsError) :
  forall patterns,
    resolve h patterns = Throw e ->
    exists before p after,
      patterns = before ++ p :: after /\
      glob h p = Throw e /\
      exists ls, resolved h before ls.
Proof.
  unfold resolved.
  induction patterns as [|p ps IH]; simpl; [discriminate|].
  destruct (glob h p) as [matches|e'] eqn:Ep.
  - destruct (resolve h ps) as [rest|e'] eqn:Er; [discriminate|].
    intros E; injection E as ->.
    destruct (IH eq_refl) as (before & q & after & -> & Hq & ls & Hls).
    exists (p :: before), q, after. split; [reflexivity|]. split; [exact Hq|].
    exists (matches :: ls). constructor; assumption.
  - intros E; injection E as ->.
    exists [], p, ps. split; [reflexivity|]. split; [exact Ep|].
    exists []. constructor.
Qed.

Lemma resolve_rejects (h : Host) :
  forall patterns p e,
    In p patterns -> glob h p = Throw e ->
    exists e', resolve h patterns = Throw e'.
Proof.
  induction patterns as [|q ps IH]; intros p e Hin Hp; [contradiction|].
  simpl. destruct (glob h q) as [matches|e'] eqn:Eq; [|eauto].
  destruct Hin as [->|Hin]; [congruence|].
  destruct (IH p e Hin Hp) as (e' & ->). eauto.
Qed.

Lemma resolve_app (h : Host) (a b : list jsstring) :
  resolve h (a ++ b)
  = match resolve h a with
    | Normal l =>
        match resolve h b with
        | Normal l' => Normal (l ++ l')
        | Throw e => Throw e
        end
    | Throw e => Throw e
    end.
Proof.
  induction a as [|p a IH]; simpl.
  - destruct (resolve h b); reflexivity.
  - destruct (glob h p); [|reflexivity]. rewrite IH.
    destruct (resolve h a); [|reflexivity].
    destruct (resolve h b); [|reflexivity].
    now rewrite app_assoc.
Qed.

Lemma resolved_each (h : Host) :
  forall patterns,
    (exists ls, resolved h patterns ls) <->
    forall p, In p patterns -> exists matches, glob h p = Normal matches.
Proof.
  unfold resolved. induction patterns as [|p ps IH].
  - split; [intros _ q [] | intros _; exists []; constructor].
  - split.
    + intros (ls & H). inversion H as [|? m ? ls' Hm Hls]; subst.
      intros q [<-|Hq]; [eauto|].
      apply (proj1 IH); [eauto | exact Hq].
    + intros H. destruct (H p (or_introl eq_refl)) as (m & Hm).
      destruct (proj2 IH) as (ls & Hls);
        [intros q Hq; apply H; right; exact Hq|].
      exists (m :: ls). constructor; assumption.
Qed.

(** What the matches of the patterns hold. *)
Lemma resolved_In (h : Host) :
  forall patterns ls,
    resolved h patterns ls ->
    forall f, In f (concat ls) <-> resolves_to h patterns f.
Proof.
  unfold resolved, resolves_to.
  induction 1 as [|p m ps ls Hp Hls IH]; intros f; simpl.
  - split; [contradiction|]. intros (p & m & [] & _).
  - rewrite in_app_iff, IH. split.
    + intros [Hf|(q & mq & Hq & Eq & Hf)].
      * exists p, m. auto.
      * exists q, mq. auto.
    + intros (q & mq & [<-|Hq] & Eq & Hf).
      * rewrite Hp in Eq. injection Eq as <-. auto.
      * right. eauto.
Qed.

(** The file loop of [checkFiles]: when it completes, the results are those
    collected before followed by one result per file, in file order. *)
Lemma file_loop_filenames (this : ComplianceChecker) (h : Host) :
  forall files acc w w' frs,
    for_of files acc
      (fun file fileResults =>
         result <- checkFile this file ;; ret (fileResults ++ [result])) h w
    = (w', Normal frs) ->
    List.map filename frs = List.map filename acc ++ files.
Proof.
  induction files as [|f files IH]; intros acc w w' frs; simpl.
  - unfold ret. intros H; injection H as _ <-. now rewrite app_nil_r.
  - unfold bind at 1. unfold bind at 1.
    destruct (checkFile this f h w) as [w1 [r|e]] eqn:E; [|discriminate].
    unfold ret. intros H. apply IH in H. rewrite H, map_app; simpl.
    rewrite (checkFile_filename _ _ _ _ E), <- app_assoc. reflexivity.
Qed.

Lemma file_loop_returns (this : ComplianceChecker) (h : Host) :
  forall files acc w,
    (forall f, In f files -> readFileSync h f <> None) ->
    exists w' frs,
      for_of files acc
        (fun file fileResults =>
           result <- checkFile this file ;; ret (fileResults ++ [result])) h w
      = (w', Normal frs).
Proof.
  induction files as [|f files IH]; intros acc w Hread; simpl.
  - unfold ret. eauto.
  - unfold bind at 1. unfold bind at 1.
    destruct (checkFile_returns this f h w) as (w1 & r & E);
      [apply Hread; simpl; auto|].
    rewrite E. unfold ret. apply IH. intros g Hg. apply Hread; simpl; auto.
Qed.

(** A result of the file loop is a result collected before or a result of
    [checkFile]. *)
Lemma file_loop_results (this : ComplianceChecker) (h : Host) :
  forall files acc w w' frs,
    for_of files acc
      (fun file fileResults =>
         result <- checkFile this file ;; ret (fileResults ++ [result])) h w
    = (w', Normal frs) ->
    forall r, In r frs ->
      In r acc \/ exists f w1 w2, checkFile this f h w1 = (w2, Normal r).
Proof.
  induction files as [|f files IH]; intros acc w w' frs; simpl.
  - unfold ret. intros H; injection H as _ <-. auto.
  - unfold bind at 1. unfold bind at 1.
    destruct (checkFile this f h w) as [w1 [r0|e]] eqn:E; [|discriminate].
    unfold ret. intros H r Hr.
    destruct (IH _ _ _ _ H r Hr) as [Hacc|Hnew]; [|auto].
    apply in_app_iff in Hacc. destruct Hacc as [Hacc|[<-|[]]]; [auto|].
    right. eauto.
Qed.

(** A run, step by step: the patterns are resolved, then the listed files
    are checked in order, then the report is built. *)
Lemma checkFiles_run (this : ComplianceChecker) patterns h w :
  checkFiles this patterns h w
  = match resolve h patterns with
    | Throw e => (w, Throw e)
    | Normal l =>
        match for_of (Set_of_array l) []
                (fun file fileResults =>
                   result <- checkFile this file ;;
                   ret (fileResults ++ [result])) h w with
        | (w1, Normal frs) => (w1, Normal (generateReport frs))
        | (w1, Throw e) => (w1, Throw e)
        end
    end.
Proof.
  unfold checkFiles, bind at 1. rewrite findFiles_run.
  destruct (resolve h patterns) as [l|e]; [|reflexivity].
  unfold bind at 1. destruct (for_of _ [] _ h w) as [w1 [frs|e]]; reflexivity.
Qed.

(** Every report a run returns is built by [generateReport] from results of
    [checkFile]. *)
Lemma checkFiles_generates (this : ComplianceChecker) patterns h w w' report :
  checkFiles this patterns h w = (w', Normal report) ->
  exists frs,
    report = generateReport frs /\
    forall r, In r frs -> exists f w1 w2, checkFile this f h w1 = (w2, Normal r).
Proof.
  rewrite checkFiles_run.
  destruct (resolve h patterns) as [l|e0]; [|discriminate].
  destruct (for_of _ [] _ h w) as [w1 [frs|e]] eqn:E; [|discriminate].
  intros H; injection H as _ <-.
  exists frs. split; [reflexivity|].
  intros r Hr. destruct (file_loop_results _ _ _ _ _ E r Hr) as [[]|H]. exact H.
Qed.

End Engine.

(* ================================================================== *)
(** ** Status derivation *)
(* ================================================================== *)

Section StatusDerivation.
Import Checker Spec.

Lemma Severity_eqb_eq (a b : Severity) : Severity_eqb a b = true <-> a = b.
Proof. destruct a, b; simpl; split; congruence. Qed.

Lemma some_severity (s : Severity) (vs : list ComplianceViolation) :
  existsb (fun v => Severity_eqb (severity v) s) vs = true <-> has_severity s vs.
Proof.
  unfold has_severity. rewrite existsb_exists.
  split; intros (v & Hin & Hs); exists v; split; auto; now apply Severity_eqb_eq.
Qed.

Lemma no_severity (s : Severity) (vs : list ComplianceViolation) :
  existsb (fun v => Severity_eqb (severity v) s) vs = false <-> ~ has_severity s vs.
Proof.
  rewrite <- some_severity.
  destruct (existsb _ vs); split; congruence.
Qed.

(** C1. The status of a document is FAIL exactly when one of its violations
    has severity error; WARNING exactly when none has severity error and one
    has severity warning; PASS exactly when none has severity error or
    warning. A document whose violations all have severity info is PASS.
    Every result of [checkFile] carries the status so derived from its own
    violations. *)
Theorem determineStatus_spec (vs : list ComplianceViolation) :
  (determineStatus vs = FAIL <-> has_severity error vs) /\
  (determineStatus vs = WARNING <->
     ~ has_severity error vs /\ has_severity warning vs) /\
  (determineStatus vs = PASS <->
     ~ has_severity error vs /\ ~ has_severity warning vs) /\
  ((forall v, In v vs -> severity v = info) -> determineStatus vs = PASS) /\
  (forall this f h w w' r,
     checkFile this f h w = (w', Normal r) ->
     status r = determineStatus (violations r)).
Proof.
  assert (A : (determineStatus vs = FAIL <-> has_severity error vs) /\
              (determineStatus vs = WARNING <->
                 ~ has_severity error vs /\ has_severity warning vs) /\
              (determineStatus vs = PASS <->
                 ~ has_severity error vs /\ ~ has_severity warning vs)).
  { unfold determineStatus.
    rewrite <- (some_severity error), <- (some_severity warning).
    destruct (existsb _ vs), (existsb _ vs); repeat split;
      intros; try discriminate; try tauto; try congruence;
      match goal with
      | H : _ /\ _ |- _ => destruct H; congruence
      end. }
  destruct A as (A1 & A2 & A3).
  split; [exact A1|]. split; [exact A2|]. split; [exact A3|]. split.
  - intros Hall. apply A3. split; intros (v & Hin & Hs);
      rewrite (Hall v Hin) in Hs; discriminate.
  - intros this f h w w' r. apply checkFile_status.
Qed.

End StatusDerivation.

(* ================================================================== *)
(** ** Report aggregation *)
(* ================================================================== *)

Section Aggregation.
Import Checker Spec.

Lemma increment_total (c : SeverityCounts) (s : Severity) :
  counts_total (increment c s) = S (counts_total c).
Proof. destruct s; unfold counts_total; simpl; lia. Qed.

Lemma tally_file (vs : list ComplianceViolation) :
  forall c,
    counts_total (fold_left (fun c v => increment c (severity v)) vs c)
    = counts_total c + length vs.
Proof.
  induction vs as [|v vs IH]; intros c; simpl; [lia|].
  rewrite IH, increment_total; lia.
Qed.

Lemma tally_files (frs : list FileComplianceResult) :
  forall c,
    counts_total
      (fold_left
         (fun c r => fold_left (fun c v => increment c (severity v)) (violations r) c)
         frs c)
    = counts_total c + list_sum (List.map (fun r => length (violations r)) frs).
Proof.
  induction frs as [|r frs IH]; intros c; simpl; [lia|].
  rewrite IH, tally_file; lia.
Qed.

Lemma reduce_lengths (frs : list FileComplianceResult) :
  forall n,
    fold_left (fun sum r => sum + length (violations r)) frs n
    = n + list_sum (List.map (fun r => length (violations r)) frs).
Proof.
  induction frs as [|r frs IH]; intros n; simpl; [lia|].
  rewrite IH; lia.
Qed.

(** C2. In the report built from any list of per-file results, the
    per-file violation counts add up to [totalViolations], and so do the
    three per-severity counts; the same holds of the report of every run
    that completes. *)
Theorem generateReport_totals (frs : list FileComplianceResult) :
  (list_sum (List.map (fun r => length (violations r)) frs)
   = totalViolations (generateReport frs) /\
   count_error (violationsBySeverity (generateReport frs))
   + count_warning (violationsBySeverity (generateReport frs))
   + count_info (violationsBySeverity (generateReport frs))
   = totalViolations (generateReport frs)) /\
  (forall this patterns h w w' report,
     checkFiles this patterns h w = (w', Normal report) ->
     list_sum (List.map (fun r => length (violations r)) (fileResults report))
     = totalViolations report /\
     count_error (violationsBySeverity report)
     + count_warning (violationsBySeverity report)
     + count_info (violationsBySeverity report)
     = totalViolations report).
Proof.
  assert (A : forall l,
             list_sum (List.map (fun r => length (violations r)) l)
             = totalViolations (generateReport l) /\
             counts_total (violationsBySeverity (generateReport l))
             = totalViolations (generateReport l)).
  { intros l. unfold generateReport; simpl. split.
    - now rewrite reduce_lengths.
    - rewrite tally_files, reduce_lengths. reflexivity. }
  split; [exact (A frs)|].
  intros this patterns h w w' report Hrun.
  destruct (checkFiles_generates _ _ _ _ Hrun) as (l & -> & _).
  exact (A l).
Qed.

(** C10. A generated report counts every file as checked: [totalFiles] and
    [filesChecked] are both the length of [fileResults], which is the list
    the report was built from; so it is in the report of every run that
    completes. *)
Theorem generateReport_file_counts (frs : list FileComplianceResult) :
  (totalFiles (generateReport frs) = filesChecked (generateReport frs) /\
   filesChecked (generateReport frs) = length (fileResults (generateReport frs)) /\
   fileResults (generateReport frs) = frs) /\
  (forall this patterns h w w' report,
     checkFiles this patterns h w = (w', Normal report) ->
     totalFiles report = filesChecked report /\
     filesChecked report = length (fileResults report)).
Proof.
  split; [unfold generateReport; simpl; repeat split|].
  intros this patterns h w w' report Hrun.
  destruct (checkFiles_generates _ _ _ _ Hrun) as (l & -> & _).
  unfold generateReport; simpl. split; reflexivity.
Qed.

End Aggregation.

(* ================================================================== *)
(** ** Rule configuration *)
(* ================================================================== *)

Section Configuration.
Import Rules Checker Spec.

(** Every rule of a catalog carries the category of its catalog. *)
Lemma catalog_categories :
  Forall (fun r => rule_category r = maintenance) maintenanceLogRules /\
  Forall (fun r => rule_category r = pilot_log) pilotLogRules /\
  Forall (fun r => rule_category r = airworthiness) airworthinessRules /\
  Forall (fun r => rule_category r = weight_balance) weightBalanceRules.
Proof. repeat split; repeat constructor. Qed.

(** The rule ids of the whole catalog are pairwise different. *)
Lemma allRules_ids_NoDup : NoDup (List.map rule_id allRules).
Proof.
  repeat constructor; simpl; intuition discriminate.
Qed.

Lemma NoDup_filter_map {A B} (f : A -> B) (p : A -> bool) (l : list A) :
  NoDup (List.map f l) -> NoDup (List.map f (filter p l)).
Proof.
  induction l as [|a l IH]; simpl; intros H; [constructor|].
  inversion H as [|? ? Hnotin Hnd]; subst.
  destruct (p a); simpl; [constructor|]; auto.
  intros Hin. apply Hnotin.
  apply in_map_iff in Hin. destruct Hin as (x & Hx & Hin).
  apply filter_In in Hin. apply in_map_iff. exists x. tauto.
Qed.

(** C3. For every combination of the four flags the configured rules are
    the union of the enabled catalogs in catalog order (maintenance,
    pilot-log, airworthiness, weight-balance), each catalog in its own
    order. That union has no two rules with one id, so it is its own
    deduplication; it holds exactly the rules of the whole catalog whose
    category is enabled, hence no rule of a disabled category. *)
Theorem loadRules_spec (o : CheckOptions) :
  rules (new_ComplianceChecker o) = enabled_union o /\
  rules (new_ComplianceChecker o) = dedup_rules [] (enabled_union o) /\
  rules (new_ComplianceChecker o)
  = filter (fun r => category_enabled o (rule_category r)) allRules /\
  NoDup (List.map rule_id (rules (new_ComplianceChecker o))) /\
  (forall r, In r (rules (new_ComplianceChecker o)) ->
             category_enabled o (rule_category r) = true).
Proof.
  assert (E : rules (new_ComplianceChecker o)
              = filter (fun r => category_enabled o (rule_category r)) allRules).
  { destruct o as [[] [] [] []]; reflexivity. }
  split; [destruct o as [[] [] [] []]; reflexivity|].
  split; [destruct o as [[] [] [] []]; reflexivity|].
  split; [exact E|].
  split.
  - rewrite E. apply NoDup_filter_map, allRules_ids_NoDup.
  - intros r Hin. rewrite E in Hin. apply filter_In in Hin. tauto.
Qed.

End Configuration.

(* ================================================================== *)
(** ** Checking one document *)
(* ================================================================== *)

Section CheckFile.
Import Rules Checker Spec.

(** C4. A rule whose check throws does not abort the check of a document.
    For a readable document, [checkFile] returns normally; every configured
    rule is run, in configuration order; the violations of the result are
    the violations of the rules that returned, concatenated in that order,
    a throwing rule adding none; and, the rules themselves not writing to
    the console, the console gains exactly one line per throwing rule,
    labelled with the rule id and the file name. *)
Theorem checkFile_rule_errors_are_local
    (this : ComplianceChecker) (filename content : jsstring) (h : Host) (w : World) :
  readFileSync h filename = Some content ->
  let outs := rule_outcomes (rules this) content filename h w in
  exists w',
    checkFile this filename h w
    = (w', Normal (mkFileResult filename
                                (flat_map contribution outs)
                                (determineStatus (flat_map contribution outs)))) /\
    List.map fst outs = rules this /\
    (forall ro e, In ro outs -> snd ro = Throw e ->
                  contribution ro = [] /\
                  logged filename ro = [(error_label (fst ro) filename, e)]) /\
    (Forall quiet (rules this) ->
     console w' = console w ++ flat_map (logged filename) outs).
Proof.
  intros Hread outs.
  destruct (rule_loop_spec content filename h (rules this) [] w)
    as (w' & Hrun & Hlog).
  exists w'. split; [|split; [|split]].
  - unfold checkFile, bind at 1, fs_readFileSync. rewrite Hread.
    unfold bind at 1. rewrite Hrun. reflexivity.
  - apply rule_outcomes_rules.
  - intros ro e _ He. unfold contribution, logged. rewrite He. auto.
  - exact Hlog.
Qed.

(** Three rules, the second of which throws: the notes of the first and the
    third are reported, and the console has the one line for the second. *)
Lemma checkFile_rule_errors_are_local_witness :
  let h := Sample.host [(str "doc.md", str "text")] [] 0%Z in
  readFileSync h (str "doc.md") = Some (str "text") /\
  exists w',
    checkFile Sample.three_rules (str "doc.md") h Sample.world0
    = (w', Normal (mkFileResult (str "doc.md")
                     [Sample.note (str "A") info; Sample.note (str "B") info]
                     PASS)) /\
    console w'
    = [(error_label Sample.throwing_rule (str "doc.md"), Error (str "boom"))].
Proof.
  cbv zeta. split; [reflexivity|].
  destruct (checkFile_rule_errors_are_local Sample.three_rules (str "doc.md")
              (Sample.host [(str "doc.md", str "text")] [] 0%Z)
              Sample.world0 (content := str "text") eq_refl)
    as (w' & Hrun & _ & _ & Hlog).
  exists w'. split; [exact Hrun|].
  apply Hlog. repeat constructor.
Defined.

End CheckFile.

(* ================================================================== *)
(** ** Resolving the input patterns and checking every file *)
(* ================================================================== *)

Section CheckFiles.
Import Rules Checker Spec.

(** Inserting into a set keeps it free of duplicates and adds at most the
    inserted string. *)
Lemma Set_add_NoDup (s : list jsstring) (x : jsstring) :
  NoDup s -> NoDup (Set_add s x).
Proof.
  intros Hs. unfold Set_add.
  destruct (existsb (JS.eqb x) s) eqn:E; [assumption|].
  apply NoDup_app; [assumption | repeat constructor; simpl; tauto |].
  intros y Hy [<-|[]].
  apply existsb_eqb_In in Hy. congruence.
Qed.

Lemma Set_add_In (s : list jsstring) (x y : jsstring) :
  In y (Set_add s x) <-> In y s \/ y = x.
Proof.
  unfold Set_add. destruct (existsb (JS.eqb x) s) eqn:E.
  - apply existsb_eqb_In in E. split; [tauto|]. intros [H| ->]; assumption.
  - rewrite in_app_iff; simpl. intuition.
Qed.

Lemma Set_fold_NoDup (l : list jsstring) :
  forall s, NoDup s -> NoDup (fold_left Set_add l s).
Proof.
  induction l as [|x l IH]; intros s Hs; simpl; [assumption|].
  apply IH, Set_add_NoDup, Hs.
Qed.

Lemma Set_fold_In (l : list jsstring) (y : jsstring) :
  forall s, In y (fold_left Set_add l s) <-> In y s \/ In y l.
Proof.
  induction l as [|x l IH]; intros s; simpl; [tauto|].
  rewrite IH, Set_add_In. intuition.
Qed.

Lemma filter_eqb_absent (f : jsstring) (l : list jsstring) :
  ~ In f l -> filter (JS.eqb f) l = [].
Proof.
  induction l as [|x l IH]; simpl; intros Hnotin; [reflexivity|].
  destruct (JS.eqb f x) eqn:E.
  - apply eqb_eq in E. exfalso. apply Hnotin. left. now symmetry.
  - apply IH. tauto.
Qed.

Lemma filter_eqb_once (f : jsstring) (l : list jsstring) :
  NoDup l -> In f l -> length (filter (JS.eqb f) l) = 1.
Proof.
  induction 1 as [|x l Hnotin Hnd IH]; simpl; [tauto|].
  intros [->|Hin].
  - rewrite eqb_refl; simpl. now rewrite filter_eqb_absent.
  - destruct (JS.eqb f x) eqn:E; [|auto].
    apply eqb_eq in E. subst. contradiction.
Qed.

Lemma filter_map_length {A B} (g : A -> B) (p : B -> bool) (l : list A) :
  length (filter (fun a => p (g a)) l) = length (filter p (List.map g l)).
Proof.
  induction l as [|a l IH]; simpl; [reflexivity|].
  destruct (p (g a)); simpl; congruence.
Qed.

(** C5. Whenever the patterns are resolved, so that [findFiles] returns its
    list, the list of files handed to the per-document check holds every
    resolved file name exactly once (a name is in it exactly when some
    pattern resolves to it), also when several patterns resolve to it; a
    completed run has one result per listed file, in list order, so exactly
    one result for each resolved name; and the run completes when every
    listed file can be read. *)
Theorem findFiles_checks_each_file_once
    (this : ComplianceChecker) (patterns : list jsstring) (h : Host) (w w1 : World)
    (files : list jsstring) :
  findFiles patterns h w = (w1, Normal files) ->
  NoDup files /\
  (forall f, In f files <->
             exists p matches,
               In p patterns /\ glob h p = Normal matches /\ In f matches) /\
  (forall w' report,
     checkFiles this patterns h w = (w', Normal report) ->
     List.map filename (fileResults report) = files /\
     forall f p matches,
       In p patterns -> glob h p = Normal matches -> In f matches ->
       length (filter (fun r => JS.eqb f (filename r)) (fileResults report)) = 1) /\
  ((forall f, In f files -> readFileSync h f <> None) ->
   exists w' report, checkFiles this patterns h w = (w', Normal report)).
Proof.
  intros Hfind. rewrite findFiles_run in Hfind.
  destruct (resolve h patterns) as [l|e] eqn:Er; [|discriminate].
  injection Hfind as <- <-.
  destruct (proj1 (resolve_resolved h patterns l) Er) as (ls & Hls & ->).
  set (files := Set_of_array (concat ls)).
  assert (Hnd : NoDup files) by (apply Set_fold_NoDup; constructor).
  assert (Hin : forall f, In f files <->
                          exists p matches,
                            In p patterns /\ glob h p = Normal matches /\
                            In f matches).
  { intros f. unfold files, Set_of_array. rewrite Set_fold_In.
    rewrite (resolved_In Hls f). unfold resolves_to. simpl. tauto. }
  split; [exact Hnd|]. split; [exact Hin|].
  split.
  - intros w' report. rewrite checkFiles_run, Er. fold files.
    destruct (for_of files [] _ h w) as [w1 [frs|e]] eqn:E; [|discriminate].
    intros H; injection H as _ <-.
    apply file_loop_filenames in E. simpl in E.
    change (fileResults (generateReport frs)) with frs.
    split; [exact E|]. intros f p matches Hp Hm Hf.
    rewrite (filter_map_length filename (JS.eqb f)), E.
    apply filter_eqb_once; [exact Hnd|]. apply Hin. eauto.
  - intros Hread. rewrite checkFiles_run, Er. fold files.
    destruct (file_loop_returns this h files [] w Hread) as (w' & frs & E).
    rewrite E. eauto.
Qed.

(** Two patterns that both resolve to [a.md]: it is listed once. *)
Lemma findFiles_checks_each_file_once_witness :
  findFiles [str "*.md"; str "a.*"]
    (Sample.host [] [(str "*.md", [str "a.md"; str "b.md"]);
                     (str "a.*", [str "a.md"; str "a.txt"])] 0%Z)
    Sample.world0
  = (Sample.world0, Normal [str "a.md"; str "b.md"; str "a.txt"]) /\
  NoDup [str "a.md"; str "b.md"; str "a.txt"].
Proof.
  assert (E : findFiles [str "*.md"; str "a.*"]
                (Sample.host [] [(str "*.md", [str "a.md"; str "b.md"]);
                                 (str "a.*", [str "a.md"; str "a.txt"])] 0%Z)
                Sample.world0
              = (Sample.world0, Normal [str "a.md"; str "b.md"; str "a.txt"]))
    by (vm_compute; reflexivity).
  split; [exact E|].
  exact (proj1 (@findFiles_checks_each_file_once
                  (new_ComplianceChecker (mkOptions true true true true))
                  _ _ _ _ _ E)).
Defined.

End CheckFiles.

(* ================================================================== *)
(** ** Individual rules *)
(* ================================================================== *)

Section RuleChecks.
Import RegExp Rules Spec.

(** A checklist loop adds, behind what was collected, one violation per item
    whose pattern is not found, in table order. *)
Lemma forEach_missing_spec (content : jsstring) (mk : Item -> ComplianceViolation) :
  forall items acc,
    forEach_missing items content mk acc
    = acc ++ List.map mk
               (filter (fun it => negb (test (item_pattern it) content)) items).
Proof.
  unfold forEach_missing.
  induction items as [|it items IH]; intros acc; simpl.
  - now rewrite app_nil_r.
  - rewrite IH. destruct (negb (test (item_pattern it) content)); simpl.
    + now rewrite <- app_assoc.
    + reflexivity.
Qed.

(** C7. WB-001 on any document. When the gate pattern ("weight and
    balance") is not found there is no violation, whatever the inner items.
    When it is found, each inner item that is not found yields its own
    violation, which names that item in its message and in its suggestion:
    first Empty Weight, then CG Location, then Useful Load, each under rule
    id WB-001, with severity error and regulation 14 CFR 91.9; an item that
    is found yields none. In particular, with Empty Weight and CG found and
    Useful Load not found, there is exactly one violation, and it names
    Useful Load. The catalog entry runs exactly this check and never
    throws. *)
Theorem WB001_check_spec (content : jsstring) :
  (test wbPattern content = false -> WB001_check content = []) /\
  (test wbPattern content = true ->
   WB001_check content
   = (if test emptyWeightPattern content then []
      else [wb_missing (str "Empty Weight")])
     ++ (if test cgPattern content then []
         else [wb_missing (str "CG Location")])
     ++ (if test usefulLoadPattern content then []
         else [wb_missing (str "Useful Load")]) /\
   Forall (fun v => ruleId v = str "WB-001") (WB001_check content)) /\
  (test wbPattern content = true ->
   test emptyWeightPattern content = true ->
   test cgPattern content = true ->
   test usefulLoadPattern content = false ->
   exists v,
     WB001_check content = [v] /\
     v = wb_missing (str "Useful Load") /\
     ruleId v = str "WB-001" /\
     message v = str "Missing weight and balance data: Useful Load") /\
  (forall filename h w,
     List.map (fun r => check r content filename h w) weightBalanceRules
     = [(w, Normal (WB001_check content))]).
Proof.
  assert (E : test wbPattern content = true ->
              WB001_check content
              = (if test emptyWeightPattern content then []
                 else [wb_missing (str "Empty Weight")])
                ++ (if test cgPattern content then []
                    else [wb_missing (str "CG Location")])
                ++ (if test usefulLoadPattern content then []
                    else [wb_missing (str "Useful Load")])).
  { intros Hgate. unfold WB001_check. rewrite Hgate.
    unfold forEach_missing, WB001_requiredData. cbn [fold_left item_pattern].
    destruct (test emptyWeightPattern content), (test cgPattern content),
      (test usefulLoadPattern content); reflexivity. }
  split; [|split; [|split]].
  - intros Hgate. unfold WB001_check. now rewrite Hgate.
  - intros Hgate. split; [exact (E Hgate)|].
    rewrite (E Hgate).
    destruct (test emptyWeightPattern content), (test cgPattern content),
      (test usefulLoadPattern content); repeat constructor.
  - intros Hgate He Hc Hu. rewrite (E Hgate), He, Hc, Hu.
    eexists. repeat split.
  - reflexivity.
Qed.

(** Scenario E, run: a sheet with the heading, an empty weight and a CG but
    no useful load gets the one Useful Load violation. *)
Lemma WB001_check_spec_witness :
  test wbPattern Sample.wb_sheet = true /\
  test emptyWeightPattern Sample.wb_sheet = true /\
  test cgPattern Sample.wb_sheet = true /\
  test usefulLoadPattern Sample.wb_sheet = false /\
  exists v,
    WB001_check Sample.wb_sheet = [v] /\
    v = wb_missing (str "Useful Load") /\
    ruleId v = str "WB-001" /\
    message v = str "Missing weight and balance data: Useful Load".
Proof.
  repeat (split; [vm_compute; reflexivity|]).
  apply (proj1 (proj2 (proj2 (WB001_check_spec Sample.wb_sheet))));
    vm_compute; reflexivity.
Defined.





End RuleChecks.

(* ================================================================== *)
(** ** Two runs on the same documents *)
(* ================================================================== *)

Section Determinism.
Import Rules Checker Spec.












End Determinism.

(* ================================================================== *)
(** ** The markdown report *)
(* ================================================================== *)

Section Markdown.
Import Checker Spec.

Lemma emits_append (s : jsstring) : emits (append s) (fun _ => s).
Proof. intros st. reflexivity. Qed.

Lemma emits_reading (k : ComplianceReport -> Stmt)
    (t : ComplianceReport -> ComplianceReport -> jsstring) :
  (forall r, emits (k r) (t r)) -> emits (reading k) (fun r => t r r).
Proof. intros Hk st. unfold reading. now rewrite Hk. Qed.

Lemma emits_reading_append (f : ComplianceReport -> jsstring) :
  emits (reading (fun report => append (f report))) f.
Proof. intros st. reflexivity. Qed.

Lemma emits_skip : emits skip (fun _ => []).
Proof. intros [r m]. unfold skip; simpl. now rewrite app_nil_r. Qed.

Lemma emits_block_nil : emits (block []) (fun _ => []).
Proof. intros [r m]. unfold block; simpl. now rewrite app_nil_r. Qed.

Lemma emits_block_cons (s : Stmt) (l : list Stmt) t u :
  emits s t -> emits (block l) u ->
  emits (block (s :: l)) (fun r => t r ++ u r).
Proof.
  intros Hs Hl st. unfold block in *; simpl.
  rewrite Hs, Hl; simpl. now rewrite app_assoc.
Qed.

Lemma emits_forEach {A} (xs : list A) (body : A -> Stmt)
    (t : A -> ComplianceReport -> jsstring) :
  (forall x, emits (body x) (t x)) ->
  emits (forEach xs body) (fun r => concat (List.map (fun x => t x r) xs)).
Proof.
  intros Hbody. unfold forEach.
  induction xs as [|x xs IH]; intros st; simpl.
  - destruct st; simpl. now rewrite app_nil_r.
  - rewrite Hbody, IH; simpl. now rewrite app_assoc.
Qed.

Lemma emits_ext (s : Stmt) t u :
  emits s t -> (forall r, t r = u r) -> emits s u.
Proof. intros Hs E st. rewrite Hs, E. reflexivity. Qed.

Lemma emits_violation (icon : jsstring) (v : ComplianceViolation) :
  emits (emit_violation icon v) (fun _ => render_violation icon v).
Proof.
  unfold emit_violation.
  eapply emits_ext.
  - apply emits_block_cons; [apply emits_append|].
    apply emits_block_cons; [apply emits_append|].
    apply emits_block_cons with (t := fun _ => render_suggestion v).
    + unfold render_suggestion. destruct (suggestion v) as [s|].
      * destruct (truthy s); [apply emits_append | apply emits_skip].
      * apply emits_skip.
    + apply emits_block_cons; [apply emits_append | apply emits_block_nil].
  - intros r. unfold render_violation.
    rewrite app_nil_r, <- !app_assoc. reflexivity.
Qed.

Lemma emits_file (icon_of : ComplianceViolation -> jsstring)
    (f : FileComplianceResult) :
  emits (block [file_heading f;
                forEach (violations f) (fun v => emit_violation (icon_of v) v)])
        (fun _ => render_file icon_of f).
Proof.
  eapply emits_ext.
  - apply emits_block_cons; [apply emits_append|].
    apply emits_block_cons; [|apply emits_block_nil].
    apply emits_forEach. intros v. apply emits_violation.
  - intros r. unfold render_file.
    rewrite app_nil_r, <- !app_assoc. reflexivity.
Qed.

Lemma emits_group (heading trailer : jsstring)
    (entry : FileComplianceResult -> jsstring)
    (body : FileComplianceResult -> Stmt) (tail : list Stmt)
    (files : list FileComplianceResult) :
  (forall f, emits (body f) (fun _ => entry f)) ->
  emits (block tail) (fun _ => trailer) ->
  emits (if 0 <? length files
         then block (append heading :: forEach files body :: tail)
         else skip)
        (fun _ => render_group heading entry trailer files).
Proof.
  intros Hbody Htail. destruct files as [|f files]; simpl.
  - apply emits_skip.
  - eapply emits_ext.
    + apply emits_block_cons; [apply emits_append|].
      apply emits_block_cons; [|exact Htail].
      apply emits_forEach with (t := fun x _ => entry x). exact Hbody.
    + intros r. reflexivity.
Qed.

(** The statements after the title emit the summary lines, the three groups
    and the footer. *)
Lemma emits_groups (r : ComplianceReport) :
  let failedFiles := filter (has_status FAIL) (fileResults r) in
  let warningFiles := filter (has_status WARNING) (fileResults r) in
  let passedFiles := filter (has_status PASS) (fileResults r) in
  emits
    (block
       [ if 0 <? length failedFiles then
           block
             [ append (str "## " ++ cross_mark ++ str " Failed Files" ++ nl ++ nl);
               forEach failedFiles (fun file =>
                 block
                   [ file_heading file;
                     forEach (violations file) (fun v =>
                       emit_violation (severity_icon (severity v)) v) ]) ]
         else skip;
         if 0 <? length warningFiles then
           block
             [ append (str "## " ++ warning_sign
                       ++ str " Files with Warnings" ++ nl ++ nl);
               forEach warningFiles (fun file =>
                 block
                   [ file_heading file;
                     forEach (violations file) (fun v =>
                       emit_violation warning_sign v) ]) ]
         else skip;
         if 0 <? length passedFiles then
           block
             [ append (str "## " ++ check_mark ++ str " Passed Files" ++ nl ++ nl);
               forEach passedFiles (fun file =>
                 append (str "- `" ++ filename file ++ str "`" ++ nl));
               append nl ]
         else skip;
         append (str "---" ++ nl ++ nl);
         append
           (str "*Generated by [Aviation Compliance Checker](https://github.com/marketplace/actions/aviation-compliance-checker)*"
            ++ nl) ])
    (fun _ => render_groups (fileResults r) ++ render_footer).
Proof.
  cbv zeta.
  eapply emits_ext.
  - apply emits_block_cons.
    { apply emits_group
        with (entry := render_file (fun v => severity_icon (severity v)))
             (trailer := []).
      - intros f. apply (emits_file (fun v => severity_icon (severity v))).
      - apply emits_block_nil. }
    apply emits_block_cons.
    { apply emits_group with (entry := render_file (fun _ => warning_sign))
                             (trailer := []).
      - intros f. apply (emits_file (fun _ => warning_sign)).
      - apply emits_block_nil. }
    apply emits_block_cons.
    { apply emits_group with (entry := render_passed) (trailer := nl).
      - intros f. apply emits_append.
      - eapply emits_ext.
        + apply emits_block_cons; [apply emits_append | apply emits_block_nil].
        + intros r'. apply app_nil_r. }
    apply emits_block_cons; [apply emits_append|].
    apply emits_block_cons; [apply emits_append | apply emits_block_nil].
  - intros r'. cbv beta. unfold render_groups, render_footer.
    rewrite !app_nil_r, <- !app_assoc. reflexivity.
Qed.

(** The statements after the title emit the summary lines, the three groups
    and the footer. *)
Lemma emits_body :
  emits generateMarkdownReport_body
    (fun r =>
       str "## Summary" ++ nl ++ nl
       ++ str "- **Files Checked:** " ++ num (filesChecked r) ++ nl
       ++ str "- **Total Violations:** " ++ num (totalViolations r) ++ nl
       ++ str "- **Errors:** " ++ num (count_error (violationsBySeverity r))
       ++ str " " ++ cross_mark ++ nl
       ++ str "- **Warnings:** " ++ num (count_warning (violationsBySeverity r))
       ++ str " " ++ warning_sign ++ nl
       ++ str "- **Info:** " ++ num (count_info (violationsBySeverity r))
       ++ str " " ++ info_sign ++ nl ++ nl
       ++ render_groups (fileResults r) ++ render_footer).
Proof.
  unfold generateMarkdownReport_body.
  eapply emits_ext.
  - apply emits_block_cons; [apply emits_append|].
    do 5 (apply emits_block_cons; [apply emits_reading_append|]).
    apply emits_block_cons; [|apply emits_block_nil].
    apply emits_reading
      with (t := fun r _ => render_groups (fileResults r) ++ render_footer).
    intros r. exact (emits_groups r).
  - intros r. cbv beta. rewrite !app_nil_r, <- !app_assoc. reflexivity.
Qed.

(** The markdown text is a projection of the report. It is the header
    with the five counts as the report stores them, then the failed files,
    then the files with warnings, then the passed files, then the footer;
    each group keeps the order of [fileResults]. The method leaves the
    report as it was, and the text is determined by [filesChecked],
    [totalViolations], [violationsBySeverity] and [fileResults] as stored:
    no count is recomputed from the results. *)
Lemma generateMarkdownReport_projection (report : ComplianceReport) :
  generateMarkdownReport report = render report /\
  md_report (generateMarkdownReport_run report) = report /\
  (forall total summary,
     generateMarkdownReport
       (mkReport total (filesChecked report) (totalViolations report)
                 (violationsBySeverity report) (fileResults report) summary)
     = generateMarkdownReport report) /\
  (forall checked total counts,
   exists header,
     generateMarkdownReport
       (mkReport (totalFiles report) checked total counts
                 (fileResults report) (summary report))
     = header ++ render_groups (fileResults report) ++ render_footer).
Proof.
  assert (R : forall r, generateMarkdownReport_run r = mkMdStore r (render r)).
  { intros r. unfold generateMarkdownReport_run. rewrite emits_body; simpl.
    unfold render, render_header. rewrite <- !app_assoc. reflexivity. }
  unfold generateMarkdownReport.
  split; [now rewrite R|]. split; [now rewrite R|]. split.
  - intros total summary. rewrite !R. reflexivity.
  - intros checked total counts. rewrite R. unfold render.
    cbn [markdown fileResults]. eauto.
Qed.

(** C9. The claim holds but for the icons of the files with warnings. The
    failed group prints each violation under the icon of its severity; the
    warnings group prints the warning icon on every line. At the report of
    one file that holds a warning and an information note, and so has status
    WARNING, the line of the note carries the warning icon, and the text
    holds the information icon in the summary only. The same note in a file
    that also holds an error, and so has status FAIL, carries the
    information icon. Both texts are given in full. *)
Theorem generateMarkdownReport_warning_group_icon :
  let warned := mkFileResult (str "log.md")
                  [Sample.note (str "W") warning; Sample.note (str "N") info]
                  WARNING in
  let failed := mkFileResult (str "log.md")
                  [Sample.note (str "E") error; Sample.note (str "N") info]
                  FAIL in
  status warned = determineStatus (violations warned) /\
  status failed = determineStatus (violations failed) /\
  generateMarkdownReport (generateReport [warned])
  = str "# " ++ airplane ++ str " Aviation Compliance Report" ++ nl ++ nl
    ++ str "## Summary" ++ nl ++ nl
    ++ str "- **Files Checked:** 1" ++ nl
    ++ str "- **Total Violations:** 2" ++ nl
    ++ str "- **Errors:** 0 " ++ cross_mark ++ nl
    ++ str "- **Warnings:** 1 " ++ warning_sign ++ nl
    ++ str "- **Info:** 1 " ++ info_sign ++ nl ++ nl
    ++ str "## " ++ warning_sign ++ str " Files with Warnings" ++ nl ++ nl
    ++ str "### `log.md`" ++ nl ++ nl
    ++ warning_sign ++ str " **W**: note" ++ nl
    ++ str "   - *Regulation:* reg" ++ nl ++ nl
    ++ warning_sign ++ str " **N**: note" ++ nl
    ++ str "   - *Regulation:* reg" ++ nl ++ nl
    ++ str "---" ++ nl ++ nl
    ++ str "*Generated by [Aviation Compliance Checker](https://github.com/marketplace/actions/aviation-compliance-checker)*"
    ++ nl /\
  generateMarkdownReport (generateReport [failed])
  = str "# " ++ airplane ++ str " Aviation Compliance Report" ++ nl ++ nl
    ++ str "## Summary" ++ nl ++ nl
    ++ str "- **Files Checked:** 1" ++ nl
    ++ str "- **Total Violations:** 2" ++ nl
    ++ str "- **Errors:** 1 " ++ cross_mark ++ nl
    ++ str "- **Warnings:** 0 " ++ warning_sign ++ nl
    ++ str "- **Info:** 1 " ++ info_sign ++ nl ++ nl
    ++ str "## " ++ cross_mark ++ str " Failed Files" ++ nl ++ nl
    ++ str "### `log.md`" ++ nl ++ nl
    ++ cross_mark ++ str " **E**: note" ++ nl
    ++ str "   - *Regulation:* reg" ++ nl ++ nl
    ++ info_sign ++ str " **N**: note" ++ nl
    ++ str "   - *Regulation:* reg" ++ nl ++ nl
    ++ str "---" ++ nl ++ nl
    ++ str "*Generated by [Aviation Compliance Checker](https://github.com/marketplace/actions/aviation-compliance-checker)*"
    ++ nl.
Proof.
  cbv zeta. split; [reflexivity|]. split; [reflexivity|].
  split; vm_compute; reflexivity.
Qed.

End Markdown.

(* ================================================================== *)
(** ** The engine run on small inputs *)
(* ================================================================== *)

Section Examples.
Import RegExp Rules Checker.

Example status_examples :
  determineStatus [] = PASS /\
  determineStatus [Sample.note (str "N") info] = PASS /\
  determineStatus [Sample.note (str "N") info; Sample.note (str "W") warning]
  = WARNING /\
  determineStatus [Sample.note (str "W") warning; Sample.note (str "E") error]
  = FAIL.
Proof. repeat split. Qed.

(** Pilot-log and weight-balance enabled: four rules, in catalog order. *)
Example loadRules_example :
  List.map rule_id (rules (new_ComplianceChecker (mkOptions false true false true)))
  = [str "PILOT-001"; str "PILOT-002"; str "PILOT-003"; str "WB-001"].
Proof. reflexivity. Qed.

(** Two patterns that both resolve to [a.md]: it is listed once, at its
    first position. *)
Example findFiles_example :
  let h := Sample.host [] [(str "*.md", [str "a.md"; str "b.md"]);
                           (str "a.*", [str "a.md"; str "a.txt"])] 0%Z in
  findFiles [str "*.md"; str "a.*"] h Sample.world0
  = (Sample.world0, Normal [str "a.md"; str "b.md"; str "a.txt"]).
Proof. vm_compute. reflexivity. Qed.

(** The date pattern takes the leftmost text of its shape, which in an
    ISO-style date is the tail of the year with month and day, and in a text
    with several dates is the first of them. *)
Example datePattern_examples :
  String_match datePattern (str "Annual inspection on 2026-01-15")
  = Some (str "26-01-15") /\
  String_match datePattern (str "AD due 03/01/2020; annual inspection 01/15/2026")
  = Some (str "03/01/2020") /\
  String_match datePattern (str "annual inspection, no date") = None.
Proof. vm_compute. repeat split. Qed.

(** A date-shaped text that is no date for the parser (month 13): INSP-001
    reports nothing and does not throw. *)
Example INSP001_invalid_date :
  let content := str "Annual inspection 13/45/2020" in
  String_match datePattern content = Some (str "13/45/2020") /\
  Sample.Date_parse_mdy (str "13/45/2020") = None /\
  snd (INSP001_check content (Sample.host [] [] Sample.june_2026) Sample.world0)
  = Normal [].
Proof. vm_compute. repeat split. Qed.

(** Scenario A: the five required statements are present, so MAINT-001 and
    MAINT-002 report nothing. *)
Example maintenance_entry_complete :
  let content :=
    str "Date: 01/15/2026" ++ nl ++ str "Aircraft: N12345" ++ nl
    ++ str "Description: oil change" ++ nl ++ str "Signature: John Smith" ++ nl
    ++ str "Aircraft approved for return to service" ++ nl in
  MAINT001_check content = [] /\ MAINT002_check content = [].
Proof. vm_compute. split; reflexivity. Qed.

(** Scenario B: no signature-like text, one MAINT-001 violation naming the
    signature. *)
Example maintenance_entry_unsigned :
  let content :=
    str "Date: 01/15/2026" ++ nl ++ str "Aircraft: N12345" ++ nl
    ++ str "Description: oil change" ++ nl in
  List.map (fun v => (message v, severity v)) (MAINT001_check content)
  = [(str "Missing required field: Signature and certificate number", error)].
Proof. vm_compute. reflexivity. Qed.

(** Scenario C: an annual inspection without a reference to Appendix D. *)
Example annual_without_appendix_d :
  List.map (fun v => (ruleId v, severity v))
           (MAINT003_check (str "Annual inspection completed."))
  = [(str "MAINT-003", error)].
Proof. vm_compute. reflexivity. Qed.

(** Scenario D: a night flight without a logged night time. *)
Example night_without_time :
  List.map (fun v => (ruleId v, severity v))
           (PILOT002_check (str "Night cross-country to KSFO"))
  = [(str "PILOT-002", warning)] /\
  PILOT002_check (str "Night time: 1.5") = [].
Proof. vm_compute. split; reflexivity. Qed.

(** A file with warnings that also holds an information note: in the
    markdown both of its lines stand under the warning icon. *)
Example warning_file_rendering :
  let f := mkFileResult (str "log.md")
             [Sample.note (str "W") warning; Sample.note (str "N") info]
             WARNING in
  determineStatus (violations f) = WARNING /\
  Spec.render_groups [f]
  = str "## " ++ warning_sign ++ str " Files with Warnings" ++ nl ++ nl
    ++ str "### `log.md`" ++ nl ++ nl
    ++ warning_sign ++ str " **W**: note" ++ nl
    ++ str "   - *Regulation:* reg" ++ nl ++ nl
    ++ warning_sign ++ str " **N**: note" ++ nl
    ++ str "   - *Regulation:* reg" ++ nl ++ nl.
Proof. vm_compute. split; reflexivity. Qed.

(** The whole run on one inspection record, airworthiness only, on
    1 June 2025 and on 1 June 2026: four AROW-001 violations either time,
    and the INSP-001 violation on the later date only. *)
Example run_on_inspection_log :
  let checker := new_ComplianceChecker (mkOptions false false true false) in
  let ids (c : Completion ComplianceReport) :=
    match c with
    | Normal r => List.map (fun f => List.map ruleId (violations f)) (fileResults r)
    | Throw _ => []
    end in
  ids (snd (checkFiles checker [str "*.md"]
              (Sample.one_log Sample.june_2025) Sample.world0))
  = [[str "AROW-001"; str "AROW-001"; str "AROW-001"; str "AROW-001"]] /\
  ids (snd (checkFiles checker [str "*.md"]
              (Sample.one_log Sample.june_2026) Sample.world0))
  = [[str "AROW-001"; str "AROW-001"; str "AROW-001"; str "AROW-001";
      str "INSP-001"]].
Proof. vm_compute. split; reflexivity. Qed.

End Examples.

(* ================================================================== *)
(** ** The shipped catalogs as a whole *)
(* ================================================================== *)

Section Catalog.
Import RegExp Rules Checker Spec More.

Lemma Forall_forEach_missing (P : ComplianceViolation -> Prop)
    (items : list Item) (content : jsstring) (mk : Item -> ComplianceViolation) :
  (forall it, P (mk it)) -> Forall P (forEach_missing items content mk []).
Proof.
  intros Hmk. rewrite forEach_missing_spec. simpl.
  apply Forall_forall. intros v Hv. apply in_map_iff in Hv.
  destruct Hv as (it & <- & _). apply Hmk.
Qed.

Ltac carried :=
  repeat split; try reflexivity; eexists; split; reflexivity.

Ltac pure_rule :=
  intros content filename h w; exists w; eexists;
  split; [reflexivity|]; split; [reflexivity|]; split; [lia|];
  split; [cbn; lia|].

(** Each shipped rule returns on every document, leaves the console alone,
    reads the clock at most once (INSP-001 only), and emits only violations
    that carry its own id, severity and regulation. *)
Lemma shipped_rules_behave : Forall behaves allRules.
Proof.
  unfold allRules, maintenanceLogRules, pilotLogRules, airworthinessRules,
    weightBalanceRules. cbn [app].
  repeat (apply Forall_cons; [|]); try apply Forall_nil; unfold behaves;
    cbn [check].
  - pure_rule. apply Forall_forEach_missing. intros it. carried.
  - pure_rule. unfold MAINT002_check.
    destruct (negb _); repeat constructor; carried.
  - pure_rule. unfold MAINT003_check.
    destruct (test annualPattern content); [|constructor].
    destruct (negb _); repeat constructor; carried.
  - pure_rule. unfold MAINT004_check.
    destruct (test adPattern content); [|constructor].
    destruct (negb _); repeat constructor; carried.
  - pure_rule. apply Forall_forEach_missing. intros it. carried.
  - pure_rule. unfold PILOT002_check.
    destruct (_ && _); repeat constructor; carried.
  - pure_rule. unfold PILOT003_check.
    destruct (test approachPattern content); [|constructor].
    destruct (negb _); repeat constructor; carried.
  - pure_rule. apply Forall_forEach_missing. intros it. carried.
  - intros content filename h w. unfold INSP001_check.
    destruct (test annualPattern content);
      [|exists w, []; cbn; repeat split; auto; try lia; constructor].
    destruct (String_match datePattern content) as [m|];
      [|exists w, []; cbn; repeat split; auto; try lia; constructor].
    unfold bind, new_Date_of_getTime, new_Date_getTime.
    destruct (gt_365 _); eexists; eexists;
      (split; [reflexivity|]); cbn;
      (split; [reflexivity|]); (split; [lia|]); (split; [lia|]);
      repeat constructor; carried.
  - pure_rule. unfold WB001_check.
    destruct (test wbPattern content); [|constructor].
    apply Forall_forEach_missing. intros it. carried.
Qed.

Lemma shipped_severities :
  Forall (fun r => rule_severity r <> info) allRules.
Proof. repeat constructor; discriminate. Qed.

Lemma configured_rules_shipped (o : CheckOptions) (r : ComplianceRule) :
  In r (rules (new_ComplianceChecker o)) -> In r allRules.
Proof.
  destruct o as [m p a b].
  unfold new_ComplianceChecker, loadRules, allRules.
  cbn [rules checkMaintenanceLogs checkPilotLogs checkAirworthiness
       checkWeightBalance].
  destruct m, p, a, b; cbn [app]; rewrite ?in_app_iff; cbn [In]; tauto.
Qed.

Lemma configured_clock_readers (o : CheckOptions) :
  length (filter reads_clock (rules (new_ComplianceChecker o))) <= 1.
Proof. destruct o as [[] [] [] []]; vm_compute; lia. Qed.

(** The rule loop over rules that behave: it returns, the console is as
    before, the clock is read at most once per clock-reading rule, and every
    collected violation carries one of the rules. *)
Lemma behaved_loop (content filename : jsstring) (h : Host) :
  forall rs, Forall behaves rs ->
  forall acc w,
    exists w' vs,
      for_of rs acc (run_rule content filename) h w = (w', Normal (acc ++ vs)) /\
      console w' = console w /\
      clock_reads w <= clock_reads w' /\
      clock_reads w' <= clock_reads w + length (filter reads_clock rs) /\
      Forall (fun v => exists r, In r rs /\ carries_rule r v) vs.
Proof.
  induction 1 as [|r rs Hr Hrs IH]; intros acc w.
  - exists w, []. cbn. unfold ret. rewrite app_nil_r.
    repeat split; auto; lia.
  - destruct (Hr content filename h w) as (w1 & vs1 & E & Hc & Hlo & Hhi & Hv).
    destruct (IH (acc ++ vs1) w1) as (w2 & vs2 & E2 & Hc2 & Hlo2 & Hhi2 & Hv2).
    exists w2, (vs1 ++ vs2). cbn [for_of].
    unfold bind at 1. unfold run_rule at 1. unfold try_catch, bind.
    rewrite E. unfold ret. rewrite E2, app_assoc.
    split; [reflexivity|]. split; [congruence|]. split; [lia|]. split.
    + cbn [filter]. destruct (reads_clock r); cbn [length]; lia.
    + apply Forall_app. split.
      * apply Forall_forall. intros v Hin. exists r. split; [left; auto|].
        eapply Forall_forall in Hv; eauto.
      * apply Forall_forall. intros v Hin.
        eapply Forall_forall in Hv2; eauto.
        destruct Hv2 as (r' & Hr' & Hcar). exists r'. split; [right; auto|auto].
Qed.

Lemma configured_rules_behave (o : CheckOptions) :
  Forall behaves (rules (new_ComplianceChecker o)).
Proof.
  apply Forall_forall. intros r Hr.
  apply configured_rules_shipped in Hr.
  exact (proj1 (Forall_forall _ _) shipped_rules_behave r Hr).
Qed.

(** What [checkFile] of a checker built by the constructor does on a
    readable file. *)
Lemma configured_checkFile (o : CheckOptions) (f content : jsstring) h w :
  readFileSync h f = Some content ->
  exists w' vs,
    checkFile (new_ComplianceChecker o) f h w
    = (w', Normal (mkFileResult f vs (determineStatus vs))) /\
    console w' = console w /\
    clock_reads w <= clock_reads w' <= S (clock_reads w) /\
    Forall (fun v => exists r, In r allRules /\ carries_rule r v) vs.
Proof.
  intros Hread.
  destruct (behaved_loop content f h (configured_rules_behave o) [] w)
    as (w' & vs & E & Hc & Hlo & Hhi & Hv).
  exists w', vs. unfold checkFile, bind at 1, fs_readFileSync. rewrite Hread.
  unfold bind at 1. rewrite E. cbn [app]. unfold ret.
  split; [reflexivity|]. split; [exact Hc|]. split.
  - pose proof (configured_clock_readers o). lia.
  - apply Forall_forall. intros v Hin. eapply Forall_forall in Hv; eauto.
    destruct Hv as (r & Hr & Hcar). exists r. split; [|exact Hcar].
    eapply configured_rules_shipped; eauto.
Qed.

Lemma configured_checkFile_violations (o : CheckOptions) f h w w' r :
  checkFile (new_ComplianceChecker o) f h w = (w', Normal r) ->
  Forall (fun v => exists rule, In rule allRules /\ carries_rule rule v)
         (violations r).
Proof.
  intros E. destruct (readFileSync h f) as [content|] eqn:Hread.
  - destruct (configured_checkFile o f h w Hread) as (w1 & vs & E1 & _ & _ & Hv).
    rewrite E1 in E. injection E as _ <-. exact Hv.
  - unfold checkFile, bind at 1, fs_readFileSync in E. rewrite Hread in E.
    discriminate.
Qed.

(** X1. Every shipped rule returns on every document, and each violation it
    emits carries the id, the severity and the regulation of the rule that
    emitted it, no line number, and a suggestion that is not empty. *)
Theorem shipped_violations_carry_their_rule
    (r : ComplianceRule) (content filename : jsstring) (h : Host) (w : World) :
  In r allRules ->
  exists w' vs,
    check r content filename h w = (w', Normal vs) /\
    Forall (carries_rule r) vs.
Proof.
  intros Hr.
  destruct (proj1 (Forall_forall _ _) shipped_rules_behave r Hr
              content filename h w) as (w' & vs & E & _ & _ & _ & Hv).
  eauto.
Qed.

(** The weight-and-balance rule on the sheet without a useful load. *)
Lemma shipped_violations_carry_their_rule_witness :
  exists r,
    In r allRules /\ rule_id r = str "WB-001" /\
    exists w' vs,
      check r Sample.wb_sheet (str "wb.md") (Sample.host [] [] 0%Z) Sample.world0
      = (w', Normal vs) /\
      Forall (carries_rule r) vs.
Proof.
  exists (nth 9 allRules Sample.throwing_rule).
  assert (Hin : In (nth 9 allRules Sample.throwing_rule) allRules)
    by (apply nth_In; vm_compute; lia).
  split; [exact Hin|]. split; [reflexivity|].
  exact (shipped_violations_carry_their_rule Sample.wb_sheet (str "wb.md")
           (Sample.host [] [] 0%Z) Sample.world0 Hin).
Defined.

(** X2. With the rules the constructor loads, checking a readable file never
    takes the error path of the rule loop: the call returns, nothing is
    written to the console, the clock is read at most once, and every
    violation of the result carries one of the shipped rules. *)
Theorem shipped_checker_never_logs
    (o : CheckOptions) (f content : jsstring) (h : Host) (w : World) :
  readFileSync h f = Some content ->
  exists w' r,
    checkFile (new_ComplianceChecker o) f h w = (w', Normal r) /\
    filename r = f /\
    console w' = console w /\
    clock_reads w <= clock_reads w' <= S (clock_reads w) /\
    Forall (fun v => exists rule, In rule allRules /\ carries_rule rule v)
           (violations r).
Proof.
  intros Hread.
  destruct (configured_checkFile o f h w Hread) as (w' & vs & E & Hc & Hk & Hv).
  exists w', (mkFileResult f vs (determineStatus vs)).
  repeat split; auto; apply Hk.
Qed.

Lemma shipped_checker_never_logs_witness :
  let h := Sample.one_log Sample.june_2026 in
  readFileSync h (str "log.md") = Some Sample.inspection_log /\
  exists w' r,
    checkFile (new_ComplianceChecker (mkOptions true true true true))
              (str "log.md") h Sample.world0 = (w', Normal r) /\
    filename r = str "log.md" /\
    console w' = console Sample.world0 /\
    clock_reads Sample.world0 <= clock_reads w' <= S (clock_reads Sample.world0) /\
    Forall (fun v => exists rule, In rule allRules /\ carries_rule rule v)
           (violations r).
Proof.
  cbv zeta. split; [reflexivity|].
  apply (shipped_checker_never_logs (mkOptions true true true true)
           (str "log.md") (Sample.one_log Sample.june_2026) Sample.world0
           (content := Sample.inspection_log)).
  reflexivity.
Defined.

(** *** The tallies, severity by severity *)

Lemma increment_count_of (s s' : Severity) (c : SeverityCounts) :
  count_of s (increment c s')
  = count_of s c + (if Severity_eqb s' s then 1 else 0).
Proof. destruct s, s'; cbn; lia. Qed.

Lemma tally_file_count_of (s : Severity) (vs : list ComplianceViolation) :
  forall c,
    count_of s (fold_left (fun c v => increment c (severity v)) vs c)
    = count_of s c + length (filter (is_severity s) vs).
Proof.
  induction vs as [|v vs IH]; intros c; cbn [fold_left filter]; [cbn; lia|].
  rewrite IH, increment_count_of. unfold is_severity at 2.
  destruct (Severity_eqb (severity v) s); cbn [length]; lia.
Qed.

Lemma tally_files_count_of (s : Severity) (frs : list FileComplianceResult) :
  forall c,
    count_of s
      (fold_left
         (fun c r => fold_left (fun c v => increment c (severity v)) (violations r) c)
         frs c)
    = count_of s c + length (filter (is_severity s) (all_violations frs)).
Proof.
  induction frs as [|r frs IH]; intros c; cbn [fold_left all_violations flat_map];
    [cbn; lia|].
  rewrite IH, tally_file_count_of. fold (all_violations frs).
  rewrite filter_app, length_app. lia.
Qed.

(** Each counter of a generated report is the number of violations of its
    severity over all files. *)
Lemma generateReport_count_of (s : Severity) (frs : list FileComplianceResult) :
  count_of s (violationsBySeverity (generateReport frs))
  = length (filter (is_severity s) (all_violations frs)).
Proof.
  unfold generateReport. cbn [violationsBySeverity].
  rewrite tally_files_count_of. destruct s; reflexivity.
Qed.

Lemma filter_none_length {A} (p : A -> bool) (l : list A) :
  length (filter p l) = 0 <-> forall x, In x l -> p x = false.
Proof.
  induction l as [|a l IH]; cbn; [tauto|].
  destruct (p a) eqn:E; cbn.
  - split; [discriminate|]. intros H. specialize (H a (or_introl eq_refl)).
    congruence.
  - rewrite IH. split.
    + intros H x [<-|Hx]; auto.
    + intros H x Hx. apply H. auto.
Qed.

Lemma in_all_violations (frs : list FileComplianceResult) (v : ComplianceViolation) :
  In v (all_violations frs) <-> exists f, In f frs /\ In v (violations f).
Proof. unfold all_violations. apply in_flat_map. Qed.

(** X3. No shipped rule reports at severity info. So in the report of a run
    of a checker built by the constructor the info counter is 0, errors and
    warnings add up to the total, and a file has status PASS exactly when it
    has no violation at all. *)
Theorem shipped_reports_have_no_info
    (o : CheckOptions) (patterns : list jsstring) (h : Host) (w w' : World)
    (report : ComplianceReport) :
  checkFiles (new_ComplianceChecker o) patterns h w = (w', Normal report) ->
  count_info (violationsBySeverity report) = 0 /\
  count_error (violationsBySeverity report)
  + count_warning (violationsBySeverity report) = totalViolations report /\
  (forall f v, In f (fileResults report) -> In v (violations f) ->
               severity v <> info) /\
  (forall f, In f (fileResults report) ->
             (status f = PASS <-> violations f = [])).
Proof.
  intros Hrun.
  destruct (checkFiles_generates _ _ _ _ Hrun) as (frs & -> & Hfrs).
  assert (Hsev : forall f v, In f frs -> In v (violations f) -> severity v <> info).
  { intros f v Hf Hv. destruct (Hfrs f Hf) as (fn & w1 & w2 & E).
    apply configured_checkFile_violations in E.
    eapply Forall_forall in E; eauto. destruct E as (r & Hr & Hs & Hsv & _).
    rewrite Hsv. exact (proj1 (Forall_forall _ _) shipped_severities r Hr). }
  assert (Hinfo : count_info (violationsBySeverity (generateReport frs)) = 0).
  { change (count_of info (violationsBySeverity (generateReport frs)) = 0).
    rewrite generateReport_count_of. apply filter_none_length.
    intros v Hv. apply in_all_violations in Hv. destruct Hv as (f & Hf & Hv).
    unfold is_severity. specialize (Hsev f v Hf Hv).
    destruct (severity v); try reflexivity. congruence. }
  split; [exact Hinfo|]. split; [|split; [exact Hsev|]].
  - pose proof (tally_files frs (mkCounts 0 0 0)) as T.
    pose proof (reduce_lengths frs 0) as R.
    unfold generateReport in *. cbn [violationsBySeverity totalViolations] in *.
    unfold counts_total in T. cbn in T, R. lia.
  - intros f Hf. cbn [fileResults generateReport] in Hf.
    destruct (Hfrs f Hf) as (fn & w1 & w2 & E).
    rewrite (checkFile_status _ _ _ _ E).
    split.
    + intros Hpass. destruct (violations f) as [|v vs] eqn:Ev; [reflexivity|].
      exfalso. assert (Hv : In v (violations f)) by (rewrite Ev; left; auto).
      specialize (Hsev f v Hf Hv).
      unfold determineStatus in Hpass. cbn in Hpass.
      destruct (severity v) eqn:Es; cbn in Hpass;
        [discriminate | destruct (existsb _ vs); discriminate | congruence].
    + intros ->. reflexivity.
Qed.

Lemma shipped_reports_have_no_info_witness :
  exists w' report,
    checkFiles (new_ComplianceChecker (mkOptions true true true true))
               [str "*.md"] (Sample.one_log Sample.june_2026) Sample.world0
    = (w', Normal report) /\
    count_info (violationsBySeverity report) = 0 /\
    count_error (violationsBySeverity report)
    + count_warning (violationsBySeverity report) = totalViolations report.
Proof.
  assert (E : exists w' report,
             checkFiles (new_ComplianceChecker (mkOptions true true true true))
                        [str "*.md"] (Sample.one_log Sample.june_2026) Sample.world0
             = (w', Normal report))
    by (vm_compute; eauto).
  destruct E as (w' & report & E). exists w', report.
  split; [exact E|].
  destruct (shipped_reports_have_no_info _ _ _ _ E) as (H1 & H2 & _).
  split; assumption.
Defined.

(** X4. In the report of any completed run, whatever the rules, the error
    counter is 0 exactly when no file has status FAIL, and the error and
    warning counters are both 0 exactly when every file has status PASS. *)
Theorem error_count_and_failed_files
    (this : ComplianceChecker) (patterns : list jsstring) (h : Host) (w w' : World)
    (report : ComplianceReport) :
  checkFiles this patterns h w = (w', Normal report) ->
  (count_error (violationsBySeverity report) = 0 <->
   forall f, In f (fileResults report) -> status f <> FAIL) /\
  (count_error (violationsBySeverity report) = 0 /\
   count_warning (violationsBySeverity report) = 0 <->
   forall f, In f (fileResults report) -> status f = PASS).
Proof.
  intros Hrun.
  destruct (checkFiles_generates _ _ _ _ Hrun) as (frs & -> & Hfrs).
  cbn [fileResults generateReport].
  assert (Hst : forall f, In f frs -> status f = determineStatus (violations f)).
  { intros f Hf. destruct (Hfrs f Hf) as (fn & w1 & w2 & E).
    exact (checkFile_status _ _ _ _ E). }
  assert (Hcount : forall s,
             count_of s (violationsBySeverity (generateReport frs)) = 0 <->
             forall f, In f frs ->
               existsb (fun v => Severity_eqb (severity v) s) (violations f) = false).
  { intros s. rewrite generateReport_count_of, filter_none_length. split.
    - intros H f Hf. destruct (existsb _ (violations f)) eqn:E; [|reflexivity].
      apply existsb_exists in E. destruct E as (v & Hv & Hs).
      rewrite <- Hs. apply (H v). apply in_all_violations. eauto.
    - intros H v Hv. apply in_all_violations in Hv. destruct Hv as (f & Hf & Hv).
      specialize (H f Hf). unfold is_severity.
      destruct (Severity_eqb (severity v) s) eqn:E; [|reflexivity].
      rewrite <- H. symmetry. apply existsb_exists. eauto. }
  pose proof (Hcount error) as He. pose proof (Hcount warning) as Hw.
  cbn [count_of] in He, Hw. split.
  - rewrite He. split; intros H f Hf; specialize (H f Hf).
    + rewrite (Hst f Hf). unfold determineStatus. rewrite H.
      destruct (existsb (fun v => Severity_eqb (severity v) warning) (violations f));
        intros D; discriminate D.
    + rewrite (Hst f Hf) in H. unfold determineStatus in H.
      destruct (existsb _ (violations f)); [congruence | reflexivity].
  - rewrite He, Hw. split.
    + intros [H1 H2] f Hf. rewrite (Hst f Hf). unfold determineStatus.
      rewrite (H1 f Hf), (H2 f Hf). reflexivity.
    + intros H. split; intros f Hf; specialize (H f Hf);
        rewrite (Hst f Hf) in H; unfold determineStatus in H;
        destruct (existsb (fun v => Severity_eqb (severity v) error) (violations f));
        destruct (existsb (fun v => Severity_eqb (severity v) warning) (violations f));
        cbn in H; try reflexivity; discriminate H.
Qed.

Lemma error_count_and_failed_files_witness :
  exists w' report,
    checkFiles (new_ComplianceChecker (mkOptions false true false false))
               [str "*.md"] (Sample.one_log Sample.june_2026) Sample.world0
    = (w', Normal report) /\
    (count_error (violationsBySeverity report) = 0 <->
     forall f, In f (fileResults report) -> status f <> FAIL).
Proof.
  assert (E : exists w' report,
             checkFiles (new_ComplianceChecker (mkOptions false true false false))
                        [str "*.md"] (Sample.one_log Sample.june_2026) Sample.world0
             = (w', Normal report))
    by (vm_compute; eauto).
  destruct E as (w' & report & E). exists w', report.
  split; [exact E|].
  exact (proj1 (error_count_and_failed_files _ _ _ _ E)).
Defined.

End Catalog.

(* ================================================================== *)
(** ** Statuses, file lists and reports *)
(* ================================================================== *)

Section Reports.
Import RegExp Rules Checker Spec More.

Lemma existsb_Permutation {A} (p : A -> bool) (a b : list A) :
  Permutation a b -> existsb p a = existsb p b.
Proof.
  intros HP.
  destruct (existsb p a) eqn:Ea, (existsb p b) eqn:Eb; try reflexivity.
  - apply existsb_exists in Ea. destruct Ea as (x & Hx & Hp).
    rewrite <- Eb. symmetry. apply existsb_exists. exists x. split; [|exact Hp].
    eapply Permutation_in; eauto.
  - apply existsb_exists in Eb. destruct Eb as (x & Hx & Hp).
    rewrite <- Ea. apply existsb_exists. exists x. split; [|exact Hp].
    eapply Permutation_in; [apply Permutation_sym|]; eauto.
Qed.

(** X5. The status of two lists of violations put together is the worse of
    their statuses, so that further violations never improve a status; and
    the status does not depend on the order of the violations. *)
Theorem determineStatus_app (a b : list ComplianceViolation) :
  determineStatus (a ++ b) = status_join (determineStatus a) (determineStatus b) /\
  (determineStatus a = FAIL -> determineStatus (a ++ b) = FAIL) /\
  (determineStatus (a ++ b) = PASS ->
   determineStatus a = PASS /\ determineStatus b = PASS) /\
  (forall c, Permutation a c -> determineStatus a = determineStatus c).
Proof.
  assert (J : determineStatus (a ++ b)
              = status_join (determineStatus a) (determineStatus b)).
  { unfold determineStatus. rewrite !existsb_app.
    destruct (existsb (fun v => Severity_eqb (severity v) error) a),
             (existsb (fun v => Severity_eqb (severity v) error) b),
             (existsb (fun v => Severity_eqb (severity v) warning) a),
             (existsb (fun v => Severity_eqb (severity v) warning) b);
      reflexivity. }
  split; [exact J|]. split; [|split].
  - intros Ha. rewrite J, Ha. reflexivity.
  - rewrite J. destruct (determineStatus a), (determineStatus b);
      cbn; intros H; try discriminate H; auto.
  - intros c HP. unfold determineStatus.
    now rewrite (existsb_Permutation _ HP), (existsb_Permutation _ HP).
Qed.

(** *** The set of resolved files *)

Lemma Set_fold_fresh (l : list jsstring) :
  forall acc, NoDup (acc ++ l) -> fold_left Set_add l acc = acc ++ l.
Proof.
  induction l as [|x l IH]; intros acc Hnd; cbn [fold_left].
  - now rewrite app_nil_r.
  - assert (Hx : existsb (JS.eqb x) acc = false).
    { destruct (existsb (JS.eqb x) acc) eqn:E; [|reflexivity].
      apply existsb_eqb_In in E. apply NoDup_remove_2 in Hnd.
      exfalso. apply Hnd. apply in_or_app. auto. }
    unfold Set_add at 2. rewrite Hx.
    rewrite IH; rewrite <- app_assoc; [reflexivity | exact Hnd].
Qed.

Lemma Set_fold_prefix (l : list jsstring) :
  forall acc, exists more, fold_left Set_add l acc = acc ++ more.
Proof.
  induction l as [|x l IH]; intros acc; cbn [fold_left].
  - exists []. now rewrite app_nil_r.
  - destruct (IH (Set_add acc x)) as (more & ->). unfold Set_add.
    destruct (existsb (JS.eqb x) acc); [eauto|].
    exists (x :: more). now rewrite <- app_assoc.
Qed.

(** X6. [findFiles] returns exactly when every glob call returns; when one
    throws, it throws the error of the first call that does, and the calls
    before it returned. Either way it leaves the world as it was. The list
    of files keeps the order in which the patterns resolve them: if no name
    is resolved twice, the list is the resolved names as they come; the
    files of earlier patterns stand before what later patterns add; and
    removing duplicates a second time changes nothing. *)
Theorem findFiles_keeps_order (patterns more : list jsstring) (h : Host) (w : World) :
  ((exists files, findFiles patterns h w = (w, Normal files)) <->
   forall p, In p patterns -> exists matches, glob h p = Normal matches) /\
  (forall w1 e,
     findFiles patterns h w = (w1, Throw e) ->
     w1 = w /\
     exists before p after,
       patterns = before ++ p :: after /\
       glob h p = Throw e /\
       forall q, In q before -> exists matches, glob h q = Normal matches) /\
  fst (findFiles patterns h w) = w /\
  (forall ls,
     resolved h patterns ls -> NoDup (concat ls) ->
     findFiles patterns h w = (w, Normal (concat ls))) /\
  (forall w2 all,
     findFiles (patterns ++ more) h w = (w2, Normal all) ->
     exists first later,
       findFiles patterns h w = (w, Normal first) /\ all = first ++ later) /\
  (forall l, Set_of_array (Set_of_array l) = Set_of_array l).
Proof.
  rewrite !findFiles_run. split; [|split; [|split; [|split; [|split]]]].
  - rewrite <- resolved_each. split.
    + intros (files & E).
      destruct (resolve h patterns) as [l|e] eqn:Er; [|discriminate].
      destruct (proj1 (resolve_resolved h patterns l) Er) as (ls & Hls & _).
      eauto.
    + intros (ls & Hls).
      rewrite (proj2 (resolve_resolved h patterns (concat ls)));
        [eauto | eauto].
  - intros w1 e E.
    destruct (resolve h patterns) as [l|e'] eqn:Er; [discriminate|].
    injection E as <- <-. split; [reflexivity|].
    destruct (resolve_throws h patterns Er)
      as (before & p & after & -> & Hp & ls & Hls).
    exists before, p, after. split; [reflexivity|]. split; [exact Hp|].
    apply resolved_each. eauto.
  - reflexivity.
  - intros ls Hls Hnd.
    rewrite (proj2 (resolve_resolved h patterns (concat ls))); [|eauto].
    unfold Set_of_array. now rewrite Set_fold_fresh.
  - intros w2 all. rewrite resolve_app.
    destruct (resolve h patterns) as [l|e]; [|discriminate].
    destruct (resolve h more) as [l'|e]; [|discriminate].
    intros E; injection E as _ <-.
    unfold Set_of_array. rewrite fold_left_app.
    destruct (Set_fold_prefix l' (fold_left Set_add l [])) as (later & ->).
    eauto.
  - intros l. unfold Set_of_array at 1. rewrite Set_fold_fresh; [reflexivity|].
    apply Set_fold_NoDup. constructor.
Qed.

(** *** Unreadable files *)

Lemma checkFile_unreadable (this : ComplianceChecker) (f : jsstring) h w :
  readFileSync h f = None ->
  exists e, checkFile this f h w = (w, Throw e).
Proof.
  intros Hread. unfold checkFile, bind at 1, fs_readFileSync.
  rewrite Hread. eauto.
Qed.

Lemma file_loop_throws (this : ComplianceChecker) (h : Host) :
  forall files acc w f,
    In f files -> readFileSync h f = None ->
    exists w' e,
      for_of files acc
        (fun file fileResults =>
           result <- checkFile this file ;; ret (fileResults ++ [result])) h w
      = (w', Throw e).
Proof.
  induction files as [|g files IH]; intros acc w f Hin Hread; [contradiction|].
  cbn [for_of]. unfold bind at 1. unfold bind at 1.
  destruct (checkFile this g h w) as [w1 [r|e]] eqn:E; [|eauto].
  unfold ret. destruct Hin as [->|Hin].
  - destruct (checkFile_unreadable this f h w Hread) as (e & E').
    rewrite E' in E. discriminate.
  - eapply IH; eauto.
Qed.

(** X7. A run completes with a report exactly when every glob call returns
    and every file some pattern resolves to can be read. A glob call that
    throws makes the run throw before any file is read; and with the
    patterns resolved, one unreadable file makes the whole run throw, and no
    report is produced, whatever the other files hold. *)
Theorem checkFiles_completes_iff_readable
    (this : ComplianceChecker) (patterns : list jsstring) (h : Host) (w : World) :
  ((exists w' report, checkFiles this patterns h w = (w', Normal report)) <->
   (forall p, In p patterns -> exists matches, glob h p = Normal matches) /\
   (forall f, resolves_to h patterns f -> readFileSync h f <> None)) /\
  (forall p e,
     In p patterns -> glob h p = Throw e ->
     exists e', checkFiles this patterns h w = (w, Throw e')) /\
  (forall f,
     (forall p, In p patterns -> exists matches, glob h p = Normal matches) ->
     resolves_to h patterns f -> readFileSync h f = None ->
     exists w' e, checkFiles this patterns h w = (w', Throw e)).
Proof.
  rewrite checkFiles_run.
  destruct (resolve h patterns) as [l|e0] eqn:Er.
  - destruct (proj1 (resolve_resolved h patterns l) Er) as (ls & Hls & ->).
    assert (Hall : forall p, In p patterns ->
                             exists matches, glob h p = Normal matches)
      by (apply resolved_each; eauto).
    assert (Hin : forall f, In f (Set_of_array (concat ls)) <->
                            resolves_to h patterns f).
    { intros f. unfold Set_of_array. rewrite Set_fold_In, (resolved_In Hls f).
      simpl. tauto. }
    assert (T : forall f, resolves_to h patterns f -> readFileSync h f = None ->
                          exists w' e,
                            match for_of (Set_of_array (concat ls)) []
                                    (fun file fileResults =>
                                       result <- checkFile this file ;;
                                       ret (fileResults ++ [result])) h w with
                            | (w1, Normal frs) => (w1, Normal (generateReport frs))
                            | (w1, Throw e) => (w1, Throw e)
                            end = (w', Throw e)).
    { intros f Hf Hread. apply Hin in Hf.
      destruct (file_loop_throws this h (Set_of_array (concat ls)) [] w f Hf Hread)
        as (w' & e & E).
      rewrite E. eauto. }
    split; [|split].
    + split.
      * intros (w' & report & E). split; [exact Hall|].
        intros f Hf Hread. destruct (T f Hf Hread) as (w1 & e & E').
        congruence.
      * intros [_ Hread].
        destruct (file_loop_returns this h (Set_of_array (concat ls)) [] w)
          as (w' & frs & E).
        { intros f Hf. apply Hread, Hin, Hf. }
        rewrite E. eauto.
    + intros p e Hp Hthrow.
      destruct (resolve_rejects h patterns p Hp Hthrow) as (e' & E).
      congruence.
    + intros f _. exact (T f).
  - split; [|split].
    + split.
      * intros (w' & report & E). discriminate E.
      * intros [Hall _]. apply resolved_each in Hall.
        destruct Hall as (ls & Hls).
        rewrite (proj2 (resolve_resolved h patterns (concat ls))) in Er;
          [discriminate Er | eauto].
    + intros p e Hp Hthrow. eauto.
    + intros f Hall. apply resolved_each in Hall. destruct Hall as (ls & Hls).
      rewrite (proj2 (resolve_resolved h patterns (concat ls))) in Er;
        [discriminate Er | eauto].
Qed.

(** *** The summary *)

Lemma status_partition (frs : list FileComplianceResult) :
  length (filter (has_status PASS) frs)
  + length (filter (has_status WARNING) frs)
  + length (filter (has_status FAIL) frs)
  = length frs.
Proof.
  induction frs as [|r frs IH]; cbn [filter length]; [reflexivity|].
  unfold has_status in *.
  destruct (status r); cbn [Status_eqb]; cbn iota; cbn [length]; lia.
Qed.

(** X8. The summary of a generated report is the text with the eight counts
    in their places, and the three file counts it shows (passed, with
    warnings, failed) add up to the number of files checked, as the three
    severity counts add up to the total of violations. *)
Theorem generateReport_summary (frs : list FileComplianceResult) :
  let passed := length (filter (has_status PASS) frs) in
  let warned := length (filter (has_status WARNING) frs) in
  let failed := length (filter (has_status FAIL) frs) in
  let c := violationsBySeverity (generateReport frs) in
  summary (generateReport frs)
  = summary_text (length frs) passed warned failed
                 (totalViolations (generateReport frs))
                 (count_error c) (count_warning c) (count_info c) /\
  passed + warned + failed = filesChecked (generateReport frs) /\
  count_error c + count_warning c + count_info c
  = totalViolations (generateReport frs).
Proof.
  cbv zeta. split; [|split].
  - unfold generateReport, summary_text. cbn [summary violationsBySeverity totalViolations].
    rewrite <- !app_assoc. reflexivity.
  - cbn [filesChecked generateReport]. apply status_partition.
  - pose proof (tally_files frs (mkCounts 0 0 0)) as T.
    pose proof (reduce_lengths frs 0) as R.
    unfold generateReport. cbn [violationsBySeverity totalViolations].
    unfold counts_total in T. cbn in T, R. lia.
Qed.

End Reports.

(* ================================================================== *)
(** ** Checklists, and the markdown of a shipped run *)
(* ================================================================== *)

Section Checklists.
Import RegExp Rules Checker Spec More.

Lemma checklist_messages (items : list Item) (content : jsstring)
    (mk : Item -> ComplianceViolation) (msg : Item -> jsstring) :
  (forall it, message (mk it) = msg it) ->
  List.map message (forEach_missing items content mk [])
  = List.map msg (filter (missing content) items) /\
  length (forEach_missing items content mk []) <= length items /\
  (forEach_missing items content mk [] = [] <->
   forall it, In it items -> test (item_pattern it) content = true).
Proof.
  intros Hmsg. rewrite forEach_missing_spec. cbn [app].
  fold (missing content). split; [|split].
  - rewrite map_map. apply map_ext. exact Hmsg.
  - rewrite length_map. apply filter_length_le.
  - split.
    + intros H it Hin. destruct (test (item_pattern it) content) eqn:E; [reflexivity|].
      exfalso. apply map_eq_nil in H.
      assert (Hf : In it (filter (missing content) items)).
      { apply filter_In. split; [exact Hin|]. unfold missing. now rewrite E. }
      rewrite H in Hf. contradiction.
    + intros H. replace (filter (missing content) items) with (@nil Item);
        [reflexivity|].
      symmetry. apply length_zero_iff_nil. apply filter_none_length.
      intros it Hin. unfold missing. now rewrite (H it Hin).
Qed.

(** X10. The three checklist rules (MAINT-001, PILOT-001, AROW-001) report
    one violation for each entry of their table whose pattern is not found
    anywhere in the document, in table order, with the entry's name in the
    message; so at most four, and none exactly when all four patterns are
    found. *)
Theorem checklist_rules_spec (content : jsstring) :
  (List.map message (MAINT001_check content)
   = List.map (fun it => str "Missing required field: " ++ item_name it)
       (filter (missing content) MAINT001_requiredFields) /\
   length (MAINT001_check content) <= 4 /\
   (MAINT001_check content = [] <->
    forall it, In it MAINT001_requiredFields ->
               test (item_pattern it) content = true)) /\
  (List.map message (PILOT001_check content)
   = List.map (fun it => str "Missing required field: " ++ item_name it)
       (filter (missing content) PILOT001_requiredFields) /\
   length (PILOT001_check content) <= 4 /\
   (PILOT001_check content = [] <->
    forall it, In it PILOT001_requiredFields ->
               test (item_pattern it) content = true)) /\
  (List.map message (AROW001_check content)
   = List.map (fun it => str "Missing AROW document reference: " ++ item_name it)
       (filter (missing content) AROW001_documents) /\
   length (AROW001_check content) <= 4 /\
   (AROW001_check content = [] <->
    forall it, In it AROW001_documents ->
               test (item_pattern it) content = true)).
Proof.
  unfold MAINT001_check, PILOT001_check, AROW001_check.
  split; [|split]; apply checklist_messages; reflexivity.
Qed.

(** X11. AROW-001 and WB-001 look for the same weight-and-balance phrase.
    AROW-001 reports the weight-and-balance document as missing exactly when
    the phrase is not found; WB-001 then reports nothing. So no document gets
    both that AROW-001 violation and a WB-001 violation. *)
Theorem arow_and_wb_exclude (content : jsstring) :
  (In arow_wb_message (List.map message (AROW001_check content)) <->
   test wbPattern content = false) /\
  (In arow_wb_message (List.map message (AROW001_check content)) ->
   WB001_check content = []) /\
  (WB001_check content <> [] ->
   ~ In arow_wb_message (List.map message (AROW001_check content))).
Proof.
  assert (A : In arow_wb_message (List.map message (AROW001_check content)) <->
              test wbPattern content = false).
  { unfold AROW001_check. rewrite forEach_missing_spec. cbn [app].
    unfold AROW001_documents. cbn [filter item_pattern].
    destruct (test (mkRegExp (seqs [lit "airworthiness"; plus space;
                                    lit "certificate"]) true) content),
             (test (mkRegExp (RGroup (alts [lit "registration"; lit "n-number"]))
                             true) content),
             (test (mkRegExp
                      (RGroup (alts [seqs [lit "operating"; plus space;
                                           lit "limitations"];
                                     seqs [lit "pilot"; plus space; lit "operating";
                                           plus space; lit "handbook"];
                                     lit "POH"])) true) content),
             (test wbPattern content);
      cbn [negb List.map message]; vm_compute;
        (split; intros H;
         [ try reflexivity;
           repeat (destruct H as [H|H]; [discriminate H|]); contradiction
         | try discriminate H; auto 8 ]). }
  split; [exact A|]. split.
  - intros H. apply A in H. unfold WB001_check. now rewrite H.
  - intros Hwb H. apply A in H. apply Hwb. unfold WB001_check. now rewrite H.
Qed.

(** The markdown of any report is the text built from its parts. *)
Lemma markdown_is_render (report : ComplianceReport) :
  generateMarkdownReport report = render report.
Proof.
  unfold generateMarkdownReport, generateMarkdownReport_run.
  rewrite emits_body. cbn [markdown md_report].
  unfold render, render_header. rewrite <- !app_assoc. reflexivity.
Qed.

Lemma render_group_ext (heading trailer : jsstring)
    (e1 e2 : FileComplianceResult -> jsstring) (files : list FileComplianceResult) :
  (forall f, In f files -> e1 f = e2 f) ->
  render_group heading e1 trailer files = render_group heading e2 trailer files.
Proof.
  intros H. unfold render_group. destruct files as [|f files]; [reflexivity|].
  rewrite (map_ext_in e1 e2 (f :: files) H). reflexivity.
Qed.

(** X9. In the markdown of a run of a checker built by the constructor every
    violation line stands under the icon of its own severity, in the section
    of the files with warnings as well: those files hold warnings only. *)
Theorem shipped_markdown_icons
    (o : CheckOptions) (patterns : list jsstring) (h : Host) (w w' : World)
    (report : ComplianceReport) :
  checkFiles (new_ComplianceChecker o) patterns h w = (w', Normal report) ->
  generateMarkdownReport report
  = render_header (filesChecked report) (totalViolations report)
                  (violationsBySeverity report)
    ++ render_groups_by_severity (fileResults report)
    ++ render_footer /\
  (forall f v, In f (fileResults report) -> status f = WARNING ->
               In v (violations f) -> severity v = warning).
Proof.
  intros Hrun.
  assert (Hw : forall f v, In f (fileResults report) -> status f = WARNING ->
                           In v (violations f) -> severity v = warning).
  { destruct (checkFiles_generates _ _ _ _ Hrun) as (frs & -> & Hfrs).
    cbn [fileResults generateReport]. intros f v Hf Hst Hv.
    destruct (Hfrs f Hf) as (fn & w1 & w2 & E).
    pose proof (configured_checkFile_violations _ _ _ _ E) as Hcar.
    eapply Forall_forall in Hcar; eauto.
    destruct Hcar as (r & Hr & _ & Hsv & _).
    pose proof (proj1 (Forall_forall _ _) shipped_severities r Hr) as Hni.
    cbv beta in Hni. rewrite <- Hsv in Hni.
    rewrite (checkFile_status _ _ _ _ E) in Hst. unfold determineStatus in Hst.
    destruct (existsb (fun v => Severity_eqb (severity v) error) (violations f))
      eqn:Ee; [discriminate|].
    destruct (severity v) eqn:Es; [|reflexivity|congruence].
    exfalso. assert (X : existsb (fun v => Severity_eqb (severity v) error)
                                 (violations f) = true).
    { apply existsb_exists. exists v. rewrite Es. auto. }
    congruence. }
  split; [|exact Hw].
  rewrite markdown_is_render. unfold render. f_equal. f_equal.
  unfold render_groups, render_groups_by_severity. f_equal. f_equal.
  apply render_group_ext. intros f Hf. apply filter_In in Hf.
  destruct Hf as (Hf & Hst). unfold has_status in Hst.
  assert (Hst' : status f = WARNING) by (destruct (status f); cbn in Hst; congruence).
  unfold render_file.
  rewrite (map_ext_in (fun v => render_violation warning_sign v)
                      (fun v => render_violation (severity_icon (severity v)) v)
                      (violations f)); [reflexivity|].
  intros v Hv. now rewrite (Hw f v Hf Hst' Hv).
Qed.

Lemma shipped_markdown_icons_witness :
  exists w' report,
    checkFiles (new_ComplianceChecker (mkOptions false true false false))
               [str "*.md"] (Sample.one_log Sample.june_2026) Sample.world0
    = (w', Normal report) /\
    generateMarkdownReport report
    = render_header (filesChecked report) (totalViolations report)
                    (violationsBySeverity report)
      ++ render_groups_by_severity (fileResults report)
      ++ render_footer.
Proof.
  assert (E : exists w' report,
             checkFiles (new_ComplianceChecker (mkOptions false true false false))
                        [str "*.md"] (Sample.one_log Sample.june_2026) Sample.world0
             = (w', Normal report))
    by (vm_compute; eauto).
  destruct E as (w' & report & E). exists w', report.
  split; [exact E|].
  exact (proj1 (shipped_markdown_icons _ _ _ _ E)).
Defined.

End Checklists.

(* ================================================================== *)
(** ** What the matcher accepts *)
(* ================================================================== *)

Section MatcherSoundness.
Import RegExp Rules More.

Lemma iter_app (R : MatchState -> MatchState -> Prop) :
  forall a b x y z, iter R a x y -> iter R b y z -> iter R (a + b) x z.
Proof.
  induction a as [|a IH]; intros b x y z Ha Hb; cbn in *.
  - now subst.
  - destruct Ha as (y' & Hxy & Hy). exists y'. split; [exact Hxy|]. eauto.
Qed.

Lemma RepeatOpt_sound (m : Matcher) R :
  sound_for m R ->
  forall n x c z,
    RepeatOpt m n x c = Some z ->
    exists k y, k <= n /\ iter R k x y /\ c y = Some z.
Proof.
  intros Hm. induction n as [|n IH]; intros x c z H; cbn [RepeatOpt] in H.
  - exists 0, x. cbn. auto.
  - destruct (m x _) as [z0|] eqn:E.
    + injection H as ->. apply Hm in E. destruct E as (y & Hxy & Hd).
      destruct (length (rest y) <? length (rest x)); [|discriminate].
      apply IH in Hd. destruct Hd as (k & y' & Hk & Hit & Hc).
      exists (S k), y'. split; [lia|]. split; [|exact Hc].
      cbn. eauto.
    + exists 0, x. cbn. split; [lia|]. auto.
Qed.

Lemma RepeatMin_sound (m k : Matcher) R Rk :
  sound_for m R -> sound_for k Rk ->
  forall min x c z,
    RepeatMin m min k x c = Some z ->
    exists y y', iter R min x y /\ Rk y y' /\ c y' = Some z.
Proof.
  intros Hm Hk. induction min as [|min IH]; intros x c z H; cbn [RepeatMin] in H.
  - apply Hk in H. destruct H as (y' & HR & Hc). exists x, y'. cbn. auto.
  - apply Hm in H. destruct H as (y & Hxy & H).
    apply IH in H. destruct H as (y1 & y2 & Hit & HR & Hc).
    exists y1, y2. split; [|auto]. cbn. eauto.
Qed.

(** Whenever the matcher of a pattern succeeds, it has gone through its
    continuation at a state that the pattern allows. *)
Lemma CompileSubpattern_sound (ic : bool) :
  forall r, sound_for (CompileSubpattern ic r) (Steps ic r).
Proof.
  induction r as [|A| | |r1 IH1 r2 IH2|r1 IH1 r2 IH2|r IH min max|r IH];
    intros x c z H; cbn [CompileSubpattern Steps] in *.
  - eauto.
  - unfold CharacterSetMatcher in H. destruct (rest x) as [|ch s] eqn:E;
      [discriminate|].
    destruct (set_member ic A ch) eqn:Em; [|discriminate].
    exists (mkState (Some ch) s). split; [|exact H]. exists ch, s. auto.
  - unfold CharacterSetMatcher in H. destruct (rest x) as [|ch s] eqn:E;
      [discriminate|].
    destruct (isLineTerminator ch) eqn:Em; [discriminate|].
    exists (mkState (Some ch) s). split; [|exact H]. exists ch, s. auto.
  - destruct (xorb _ _) eqn:E; [|discriminate]. exists x. auto.
  - apply IH1 in H. destruct H as (y & H1 & H).
    apply IH2 in H. destruct H as (y' & H2 & H). eauto.
  - destruct (CompileSubpattern ic r1 x c) as [z0|] eqn:E.
    + injection H as ->. apply IH1 in E. destruct E as (y & H1 & Hc). eauto.
    + apply IH2 in H. destruct H as (y & H2 & Hc). eauto.
  - unfold RepeatMatcher in H.
    eapply (RepeatMin_sound (Rk := fun y y' =>
              exists k, match max with
                        | Some mx => k <= mx - min
                        | None => True
                        end /\ iter (Steps ic r) k y y') IH) in H.
    + destruct H as (y & y' & Hmin & (k & Hk & Hopt) & Hc).
      exists y'. split; [|exact Hc]. exists (min + k).
      split; [lia|]. split; [destruct max; [lia|exact I]|].
      eapply iter_app; eauto.
    + intros x0 c0 z0 H0. destruct max as [mx|].
      * apply (RepeatOpt_sound IH) in H0.
        destruct H0 as (k & y & Hk & Hit & Hc). eauto.
      * apply (RepeatOpt_sound IH) in H0.
        destruct H0 as (k & y & Hk & Hit & Hc). eauto.
  - apply IH in H. exact H.
Qed.

(** A state the pattern allows lies further on in the same input. *)
Lemma Steps_suffix (ic : bool) :
  forall r x z, Steps ic r x z -> exists consumed, rest x = consumed ++ rest z.
Proof.
  assert (I : forall (R : MatchState -> MatchState -> Prop),
             (forall x z, R x z -> exists consumed, rest x = consumed ++ rest z) ->
             forall n x z, iter R n x z ->
                           exists consumed, rest x = consumed ++ rest z).
  { intros R HR. induction n as [|n IH]; intros x z H; cbn in H.
    - subst. exists []. reflexivity.
    - destruct H as (y & Hxy & Hy). apply HR in Hxy. apply IH in Hy.
      destruct Hxy as (c1 & ->), Hy as (c2 & ->).
      exists (c1 ++ c2). now rewrite app_assoc. }
  induction r as [|A| | |r1 IH1 r2 IH2|r1 IH1 r2 IH2|r IH min max|r IH];
    intros x z H; cbn [Steps] in H.
  - subst. exists []. reflexivity.
  - destruct H as (ch & s & -> & _ & ->). exists [ch]. reflexivity.
  - destruct H as (ch & s & -> & _ & ->). exists [ch]. reflexivity.
  - destruct H as (_ & ->). exists []. reflexivity.
  - destruct H as (y & H1 & H2). apply IH1 in H1. apply IH2 in H2.
    destruct H1 as (c1 & ->), H2 as (c2 & ->).
    exists (c1 ++ c2). now rewrite app_assoc.
  - destruct H as [H|H]; [apply IH1 in H | apply IH2 in H]; exact H.
  - destruct H as (n & _ & _ & H). eapply I; eauto.
  - apply IH in H. exact H.
Qed.

(** The search loop returns the input from the start of the match and the
    input the successful attempt left. *)
Lemma exec_from_match (re : RegExp) :
  forall s p from after,
    exec_from re p s = Some (from, after) ->
    exists q y, match_here re q from = Some y /\ after = rest y.
Proof.
  induction s as [|ch s IH]; intros p from after; cbn [exec_from].
  - destruct (match_here re p []) as [y|] eqn:E; [|discriminate].
    intros H; injection H as <- <-. eauto.
  - destruct (match_here re p (ch :: s)) as [y|] eqn:E.
    + intros H; injection H as <- <-. eauto.
    + apply IH.
Qed.

(** The text [s.match(re)] returns is what the pattern went through: the
    pattern allows the step from a state at the matched text, followed by
    some rest, to the state at that rest. *)
Lemma String_match_sound (re : RegExp) (s m : jsstring) :
  String_match re s = Some m ->
  exists p after q,
    Steps (ignoreCase re) (pattern re) (mkState p (m ++ after)) (mkState q after).
Proof.
  unfold String_match, exec.
  destruct (exec_from re None s) as [[from after]|] eqn:E; [|discriminate].
  intros H; injection H as <-.
  destruct (exec_from_match _ _ _ E) as (p & y & Hy & ->).
  unfold match_here in Hy. apply CompileSubpattern_sound in Hy.
  destruct Hy as (y' & Hsteps & Hy'). injection Hy' as ->.
  destruct (Steps_suffix _ _ _ _ Hsteps) as (consumed & Hc). cbn [rest] in Hc.
  subst from. rewrite length_app, Nat.add_sub, firstn_app, Nat.sub_diag.
  rewrite firstn_all. cbn [firstn]. rewrite app_nil_r.
  exists p, (rest y), (prev y). destruct y as [q after]. exact Hsteps.
Qed.

Lemma Nrange_In (lo hi a : N) :
  In a (Nrange lo hi) -> (lo <= a <= hi)%N.
Proof.
  unfold Nrange. intros H. apply in_map_iff in H.
  destruct H as (k & <- & Hk). apply in_seq in Hk. lia.
Qed.

Lemma Canonicalize_off (ch : N) : Canonicalize false ch = ch.
Proof. reflexivity. Qed.

Lemma digit_member (ch : N) :
  set_member false [CDigit] ch = true -> is_digit ch.
Proof.
  unfold set_member. intros H. apply existsb_exists in H.
  destruct H as (a & Ha & E). rewrite !Canonicalize_off in E.
  apply N.eqb_eq in E. subst a. cbn [flat_map atom_chars] in Ha.
  rewrite app_nil_r in Ha. apply Nrange_In in Ha. exact Ha.
Qed.

Lemma sep_member (ch : N) :
  set_member false [CChar 45; CChar 47] ch = true -> is_date_sep ch.
Proof.
  unfold set_member. intros H. apply existsb_exists in H.
  destruct H as (a & Ha & E). rewrite !Canonicalize_off in E.
  apply N.eqb_eq in E. subst a. cbn in Ha. unfold is_date_sep.
  destruct Ha as [<-|[<-|[]]]; auto.
Qed.

Lemma digits_iter :
  forall n x z,
    iter (Steps false digit) n x z ->
    exists ds, rest x = ds ++ rest z /\ length ds = n /\ Forall is_digit ds.
Proof.
  induction n as [|n IH]; intros x z H; cbn [iter] in H.
  - subst. exists []. auto.
  - destruct H as (y & (ch & s & Hx & Hm & ->) & Hit).
    apply IH in Hit. cbn [rest] in Hit. destruct Hit as (ds & -> & <- & Hds).
    exists (ch :: ds). rewrite Hx. split; [reflexivity|]. split; [reflexivity|].
    constructor; [apply digit_member, Hm | exact Hds].
Qed.

Lemma digits_rep (a b : nat) x z :
  Steps false (rep digit a b) x z ->
  exists ds, rest x = ds ++ rest z /\ a <= length ds <= a + (b - a) /\
             Forall is_digit ds.
Proof.
  intros (n & Hlo & Hhi & Hit). apply digits_iter in Hit.
  destruct Hit as (ds & Hx & <- & Hds). eauto.
Qed.

Lemma sep_step x z :
  Steps false sep x z -> exists ch, rest x = ch :: rest z /\ is_date_sep ch.
Proof.
  intros (ch & s & Hx & Hm & ->). exists ch. split; [exact Hx|].
  apply sep_member, Hm.
Qed.

(** What the date pattern matches has the shape of the pattern. *)
Lemma date_match_shaped (content m : jsstring) :
  String_match datePattern content = Some m ->
  date_shaped m /\ 6 <= length m <= 10.
Proof.
  intros H. apply String_match_sound in H.
  destruct H as (p & after & q & H). cbn [pattern ignoreCase datePattern] in H.
  cbn [Steps] in H. unfold date_shape in H. cbn [seqs Steps] in H.
  destruct H as (y1 & H1 & y2 & H2 & y3 & H3 & y4 & H4 & H5).
  apply digits_rep in H1, H3, H5. apply sep_step in H2, H4.
  destruct H1 as (d1 & E1 & L1 & D1), H2 as (s1 & E2 & S1),
           H3 as (d2 & E3 & L2 & D2), H4 as (s2 & E4 & S2),
           H5 as (d3 & E5 & L3 & D3).
  cbn [rest] in E1, E5. rewrite E2, E3, E4, E5 in E1.
  assert (Em : m = d1 ++ s1 :: d2 ++ s2 :: d3).
  { apply (app_inv_tail after). rewrite E1.
    rewrite <- !app_assoc. cbn [app]. rewrite <- !app_assoc. reflexivity. }
  split.
  - exists d1, s1, d2, s2, d3. cbn in L1, L2, L3. repeat split; auto; lia.
  - rewrite Em. rewrite length_app. cbn [length]. rewrite length_app.
    cbn [length]. cbn in L1, L2, L3. lia.
Qed.

(** X12. The text INSP-001 hands to the date constructor always has the
    shape of its pattern: one or two digits, a hyphen or a slash, one or two
    digits, a hyphen or a slash, and two to four digits; so between six and
    ten characters, and no letter. It is a piece of the document, taken where
    the matcher stopped. *)
Theorem datePattern_match_shape (content m : jsstring) :
  String_match datePattern content = Some m ->
  date_shaped m /\ 6 <= length m <= 10 /\
  exists pre post, content = pre ++ m ++ post.
Proof.
  intros H. destruct (date_match_shaped _ H) as (Hs & Hl).
  destruct (String_match_leftmost _ _ H) as (pre & post & E & _).
  split; [exact Hs|]. split; [exact Hl|]. eauto.
Qed.

Lemma datePattern_match_shape_witness :
  String_match datePattern Sample.inspection_log = Some (str "01/15/2025") /\
  date_shaped (str "01/15/2025") /\ 6 <= length (str "01/15/2025") <= 10.
Proof.
  assert (E : String_match datePattern Sample.inspection_log
              = Some (str "01/15/2025")) by (vm_compute; reflexivity).
  split; [exact E|].
  destruct (datePattern_match_shape _ E) as (Hs & Hl & _). split; assumption.
Defined.

End MatcherSoundness.

(* ================================================================== *)
(** ** Letter case *)
(* ================================================================== *)

Section LetterCase.
Import RegExp Rules More.

Lemma up_cases (ch : N) :
  ((97 <= ch <= 122)%N /\ (Canonicalize true) ch = (ch - 32)%N) \/
  (~ (97 <= ch <= 122)%N /\ (Canonicalize true) ch = ch).
Proof.
  unfold Canonicalize. cbn [andb].
  destruct (N.leb_spec 97 ch), (N.leb_spec ch 122); cbn [andb]; [left|right..];
    split; try reflexivity; lia.
Qed.

Lemma up_idempotent (ch : N) : (Canonicalize true) ((Canonicalize true) ch) = (Canonicalize true) ch.
Proof.
  destruct (up_cases ch) as [[Hr ->]|[Hr ->]].
  - destruct (up_cases (ch - 32)) as [[Hr' _]|[_ ->]]; [lia | reflexivity].
  - destruct (up_cases ch) as [[Hr' _]|[_ ->]]; [lia | reflexivity].
Qed.

Lemma existsb_ext_all {A} (f g : A -> bool) (l : list A) :
  (forall a, f a = g a) -> existsb f l = existsb g l.
Proof. intros H. induction l as [|a l IH]; cbn; [reflexivity|]. now rewrite H, IH. Qed.

Lemma set_member_up (A : list ClassAtom) (ch : N) :
  set_member true A ((Canonicalize true) ch) = set_member true A ch.
Proof.
  unfold set_member. apply existsb_ext_all. intros a. now rewrite up_idempotent.
Qed.

Lemma isLineTerminator_up (ch : N) :
  isLineTerminator ((Canonicalize true) ch) = isLineTerminator ch.
Proof.
  destruct (up_cases ch) as [[Hr ->]|[Hr ->]]; [|reflexivity].
  unfold isLineTerminator. cbn [existsb].
  repeat match goal with
         | |- context [N.eqb ?a ?b] => destruct (N.eqb_spec a b); try lia
         end; reflexivity.
Qed.

Lemma IsWordChar_up (o : option N) :
  IsWordChar (option_map (Canonicalize true) o) = IsWordChar o.
Proof.
  destruct o as [ch|]; [|reflexivity]. cbn [option_map IsWordChar].
  destruct (up_cases ch) as [[Hr ->]|[Hr ->]]; [|reflexivity].
  repeat match goal with
         | |- context [N.leb ?a ?b] => destruct (N.leb_spec a b); try lia
         | |- context [N.eqb ?a ?b] => destruct (N.eqb_spec a b); try lia
         end; reflexivity.
Qed.

Lemma sets_blind_ignoreCase : forall r, sets_blind true r.
Proof.
  induction r; cbn [sets_blind]; auto. intros ch. apply set_member_up.
Qed.

Lemma digit_set_blind (ch : N) :
  set_member false [CDigit] ((Canonicalize true) ch) = set_member false [CDigit] ch.
Proof.
  destruct (up_cases ch) as [[Hr ->]|[Hr ->]]; [|reflexivity].
  destruct (set_member false [CDigit] (ch - 32)) eqn:E1;
    [apply digit_member in E1; unfold is_digit in E1; lia|].
  destruct (set_member false [CDigit] ch) eqn:E2;
    [apply digit_member in E2; unfold is_digit in E2; lia|].
  reflexivity.
Qed.

Lemma sep_set_blind (ch : N) :
  set_member false [CChar 45; CChar 47] ((Canonicalize true) ch)
  = set_member false [CChar 45; CChar 47] ch.
Proof.
  destruct (up_cases ch) as [[Hr ->]|[Hr ->]]; [|reflexivity].
  destruct (set_member false [CChar 45; CChar 47] (ch - 32)) eqn:E1;
    [apply sep_member in E1; unfold is_date_sep in E1; lia|].
  destruct (set_member false [CChar 45; CChar 47] ch) eqn:E2;
    [apply sep_member in E2; unfold is_date_sep in E2; lia|].
  reflexivity.
Qed.

Lemma datePattern_blind : sets_blind false (pattern datePattern).
Proof.
  cbn. repeat split; intros ch;
    first [apply digit_set_blind | apply sep_set_blind].
Qed.

Lemma fold_case_length (s : jsstring) : length (fold_case s) = length s.
Proof. apply length_map. Qed.

Lemma RepeatOpt_blind (m : Matcher) :
  matcher_blind m -> forall n, matcher_blind (RepeatOpt m n).
Proof.
  intros Hm. induction n as [|n IH]; intros x c c' Hc; cbn [RepeatOpt].
  - apply Hc.
  - rewrite (Hm x (fun y => if length (rest y) <? length (rest x)
                            then RepeatOpt m n y c else None)).
    + destruct (m x _); [reflexivity | apply Hc].
    + intros y. cbn [fold_state rest]. rewrite !fold_case_length.
      destruct (length (rest y) <? length (rest x)); [|reflexivity].
      apply IH, Hc.
Qed.

Lemma RepeatMin_blind (m k : Matcher) :
  matcher_blind m -> matcher_blind k -> forall n, matcher_blind (RepeatMin m n k).
Proof.
  intros Hm Hk. induction n as [|n IH]; intros x c c' Hc; cbn [RepeatMin].
  - apply Hk, Hc.
  - apply Hm. intros y. apply IH, Hc.
Qed.

Lemma CharacterSetMatcher_blind (ic : bool) (member : N -> bool) :
  (forall ch, member ((Canonicalize true) ch) = member ch) ->
  matcher_blind (CharacterSetMatcher ic member).
Proof.
  intros Hmem x c c' Hc. unfold CharacterSetMatcher. cbn [fold_state rest].
  destruct (rest x) as [|ch s]; [reflexivity|]. cbn [fold_case List.map].
  rewrite Hmem. destruct (member ch); [|reflexivity].
  apply (Hc (mkState (Some ch) s)).
Qed.

Lemma CompileSubpattern_blind (ic : bool) :
  forall r, sets_blind ic r -> matcher_blind (CompileSubpattern ic r).
Proof.
  induction r as [|A| | |r1 IH1 r2 IH2|r1 IH1 r2 IH2|r IH min max|r IH];
    intros Hb; cbn [CompileSubpattern sets_blind] in *.
  - intros x c c' Hc. apply Hc.
  - apply CharacterSetMatcher_blind, Hb.
  - apply CharacterSetMatcher_blind. intros ch.
    now rewrite isLineTerminator_up.
  - intros x c c' Hc. cbn [fold_state prev rest]. rewrite IsWordChar_up.
    replace (hd_error (fold_case (rest x)))
      with (option_map (Canonicalize true) (hd_error (rest x)))
      by (destruct (rest x); reflexivity).
    rewrite IsWordChar_up. destruct (xorb _ _); [apply Hc | reflexivity].
  - destruct Hb as [Hb1 Hb2]. intros x c c' Hc.
    apply (IH1 Hb1). intros y. apply (IH2 Hb2), Hc.
  - destruct Hb as [Hb1 Hb2]. intros x c c' Hc.
    rewrite (IH1 Hb1 x c c' Hc).
    destruct (CompileSubpattern ic r1 x c); [reflexivity|].
    apply (IH2 Hb2), Hc.
  - unfold RepeatMatcher. apply RepeatMin_blind; [apply IH, Hb|].
    intros x c c' Hc. destruct max as [mx|].
    + apply (RepeatOpt_blind (IH Hb)), Hc.
    + cbn [fold_state rest]. rewrite fold_case_length.
      apply (RepeatOpt_blind (IH Hb)), Hc.
  - apply IH, Hb.
Qed.

Lemma exec_from_fold (re : RegExp) :
  sets_blind (ignoreCase re) (pattern re) ->
  forall s p,
    exec_from re (option_map (Canonicalize true) p) (fold_case s)
    = option_map (fun fa => (fold_case (fst fa), fold_case (snd fa)))
                 (exec_from re p s).
Proof.
  intros Hb. induction s as [|ch s IH]; intros p; cbn [exec_from fold_case List.map].
  - unfold match_here.
    change (mkState (option_map (Canonicalize true) p) [])
      with (fold_state (mkState p [])).
    rewrite (@CompileSubpattern_blind _ _ Hb (mkState p []) Some Some)
      by (intros y; reflexivity).
    destruct (CompileSubpattern _ _ (mkState p []) Some); reflexivity.
  - unfold match_here.
    change (mkState (option_map (Canonicalize true) p) ((Canonicalize true) ch :: List.map (Canonicalize true) s))
      with (fold_state (mkState p (ch :: s))).
    rewrite (@CompileSubpattern_blind _ _ Hb (mkState p (ch :: s)) Some Some)
      by (intros y; reflexivity).
    destruct (CompileSubpattern _ _ (mkState p (ch :: s)) Some); [reflexivity|].
    apply (IH (Some ch)).
Qed.

Lemma test_fold (re : RegExp) (s : jsstring) :
  sets_blind (ignoreCase re) (pattern re) ->
  test re (fold_case s) = test re s.
Proof.
  intros Hb. unfold test, exec.
  change (exec_from re None (fold_case s))
    with (exec_from re (option_map (Canonicalize true) None) (fold_case s)).
  rewrite (exec_from_fold _ Hb s None).
  destruct (exec_from re None s); reflexivity.
Qed.

Lemma String_match_fold (re : RegExp) (s : jsstring) :
  sets_blind (ignoreCase re) (pattern re) ->
  String_match re (fold_case s) = option_map fold_case (String_match re s).
Proof.
  intros Hb. unfold String_match, exec.
  change (exec_from re None (fold_case s))
    with (exec_from re (option_map (Canonicalize true) None) (fold_case s)).
  rewrite (exec_from_fold _ Hb s None).
  destruct (exec_from re None s) as [[from after]|]; [|reflexivity].
  cbn [option_map fst snd]. rewrite !fold_case_length.
  unfold fold_case. now rewrite firstn_map.
Qed.

Lemma test_same_case (re : RegExp) (c1 c2 : jsstring) :
  ignoreCase re = true -> fold_case c1 = fold_case c2 ->
  test re c1 = test re c2.
Proof.
  intros Hic E.
  assert (Hb : sets_blind (ignoreCase re) (pattern re))
    by (rewrite Hic; apply sets_blind_ignoreCase).
  rewrite <- (test_fold re c1 Hb), <- (test_fold re c2 Hb), E. reflexivity.
Qed.

Lemma fold_date_shaped (m : jsstring) : date_shaped m -> fold_case m = m.
Proof.
  intros (d1 & s1 & d2 & s2 & d3 & -> & D1 & _ & S1 & D2 & _ & S2 & D3 & _).
  assert (Hd : forall ds, Forall is_digit ds -> fold_case ds = ds).
  { induction 1 as [|ch ds Hch _ IH]; cbn; [reflexivity|]. unfold is_digit in Hch.
    destruct (up_cases ch) as [[Hr _]|[_ ->]]; [lia|]. f_equal. exact IH. }
  assert (Hs : forall ch, is_date_sep ch -> (Canonicalize true) ch = ch).
  { intros ch [-> | ->]; reflexivity. }
  unfold fold_case in *. rewrite !map_app. cbn [List.map]. rewrite !map_app.
  cbn [List.map]. now rewrite (Hd d1 D1), (Hd d2 D2), (Hd d3 D3), (Hs s1 S1), (Hs s2 S2).
Qed.

Lemma date_match_same_case (c1 c2 : jsstring) :
  fold_case c1 = fold_case c2 ->
  String_match datePattern c1 = String_match datePattern c2.
Proof.
  intros E.
  pose proof (String_match_fold datePattern c1 datePattern_blind) as F1.
  pose proof (String_match_fold datePattern c2 datePattern_blind) as F2.
  rewrite E, F2 in F1.
  destruct (String_match datePattern c1) as [m1|] eqn:E1,
           (String_match datePattern c2) as [m2|] eqn:E2;
    cbn [option_map] in F1; try discriminate F1; [|reflexivity].
  injection F1 as F1.
  rewrite (fold_date_shaped (proj1 (date_match_shaped _ E1))) in F1.
  rewrite (fold_date_shaped (proj1 (date_match_shaped _ E2))) in F1.
  congruence.
Qed.

Lemma forEach_missing_same_case (items : list Item) (c1 c2 : jsstring)
    (mk : Item -> ComplianceViolation) (acc : list ComplianceViolation) :
  Forall (fun it => ignoreCase (item_pattern it) = true) items ->
  fold_case c1 = fold_case c2 ->
  forEach_missing items c1 mk acc = forEach_missing items c2 mk acc.
Proof.
  intros Hic E. rewrite !forEach_missing_spec. f_equal. f_equal.
  apply filter_ext_in. intros it Hin. f_equal.
  apply test_same_case; [|exact E].
  exact (proj1 (Forall_forall _ _) Hic it Hin).
Qed.

Ltac same_tests c1 c2 E :=
  repeat match goal with
         | |- context [test ?re c1] =>
             rewrite (@test_same_case re c1 c2 eq_refl E)
         end.

(** X13. No shipped rule tells upper-case from lower-case letters (A to Z),
    nor looks at the file name: two documents that differ only in the case
    of their letters get the same violations from every rule, under whatever
    names they are checked. *)
Theorem shipped_rules_ignore_case
    (r : ComplianceRule) (c1 c2 f1 f2 : jsstring) (h : Host) (w : World) :
  In r allRules ->
  fold_case c1 = fold_case c2 ->
  check r c1 f1 h w = check r c2 f2 h w.
Proof.
  intros Hr E.
  assert (T : forall items mk,
             Forall (fun it => ignoreCase (item_pattern it) = true) items ->
             forEach_missing items c1 mk [] = forEach_missing items c2 mk [])
    by (intros; now apply forEach_missing_same_case).
  unfold allRules, maintenanceLogRules, pilotLogRules, airworthinessRules,
    weightBalanceRules in Hr. cbn [app In] in Hr.
  repeat (destruct Hr as [<-|Hr]); try contradiction; cbn [check]; unfold ret.
  - unfold MAINT001_check. rewrite T; [reflexivity | repeat constructor].
  - unfold MAINT002_check. same_tests c1 c2 E. reflexivity.
  - unfold MAINT003_check. same_tests c1 c2 E. reflexivity.
  - unfold MAINT004_check. same_tests c1 c2 E. reflexivity.
  - unfold PILOT001_check. rewrite T; [reflexivity | repeat constructor].
  - unfold PILOT002_check. same_tests c1 c2 E. reflexivity.
  - unfold PILOT003_check. same_tests c1 c2 E. reflexivity.
  - unfold AROW001_check. rewrite T; [reflexivity | repeat constructor].
  - unfold INSP001_check. same_tests c1 c2 E.
    rewrite (date_match_same_case c1 c2 E). reflexivity.
  - unfold WB001_check. same_tests c1 c2 E.
    rewrite T; [reflexivity | repeat constructor].
Qed.

(** The return-to-service statement in capitals and in small letters. *)
Lemma shipped_rules_ignore_case_witness :
  let r := nth 1 allRules Sample.throwing_rule in
  let c1 := str "APPROVED FOR RETURN TO SERVICE" in
  let c2 := str "approved for return to service" in
  In r allRules /\ rule_id r = str "MAINT-002" /\
  fold_case c1 = fold_case c2 /\
  check r c1 (str "a.md") (Sample.host [] [] 0%Z) Sample.world0
  = check r c2 (str "b.md") (Sample.host [] [] 0%Z) Sample.world0.
Proof.
  cbv zeta.
  assert (Hin : In (nth 1 allRules Sample.throwing_rule) allRules)
    by (apply nth_In; vm_compute; lia).
  assert (E : fold_case (str "APPROVED FOR RETURN TO SERVICE")
              = fold_case (str "approved for return to service"))
    by (vm_compute; reflexivity).
  split; [exact Hin|]. split; [reflexivity|]. split; [exact E|].
  exact (@shipped_rules_ignore_case _ _ _ (str "a.md") (str "b.md")
           (Sample.host [] [] 0%Z) Sample.world0 Hin E).
Defined.

End LetterCase.

(* ================================================================== *)
(** ** The string methods of the action *)
(* ================================================================== *)

Section MainStrings.
Import Rules Checker Main MainSpec.

Lemma split_on_nonempty (sep : N) (s : jsstring) : split_on sep s <> [].
Proof.
  destruct s as [|ch s]; cbn; [discriminate|].
  destruct (N.eqb ch sep); [discriminate|].
  destruct (split_on sep s); discriminate.
Qed.

Lemma join_cons (sep : N) (piece : jsstring) (pieces : list jsstring) :
  pieces <> [] -> join sep (piece :: pieces) = piece ++ sep :: join sep pieces.
Proof. destruct pieces; [congruence | reflexivity]. Qed.

(** Splitting a string at a separator and joining the pieces with it
    gives the string back; there is always at least one piece (the empty
    input gives one empty piece), one more than the separator occurs; and no
    piece holds the separator. *)
Lemma split_on_join (sep : N) (s : jsstring) :
  join sep (split_on sep s) = s /\
  length (split_on sep s) = S (occurrences sep s) /\
  Forall (fun piece => ~ In sep piece) (split_on sep s) /\
  split_on sep [] = [[]].
Proof.
  split; [|split; [|split; [|reflexivity]]].
  - induction s as [|ch s IH]; cbn [split_on]; [reflexivity|].
    destruct (N.eqb_spec ch sep) as [->|Hne].
    + rewrite join_cons by apply split_on_nonempty. cbn [app]. now rewrite IH.
    + pose proof (split_on_nonempty sep s) as Hn.
      destruct (split_on sep s) as [|piece pieces] eqn:E; [congruence|].
      destruct pieces as [|piece' pieces].
      * cbn in *. now rewrite IH.
      * cbn [join app] in *. now rewrite IH.
  - unfold occurrences.
    induction s as [|ch s IH]; cbn [split_on filter]; [reflexivity|].
    rewrite (N.eqb_sym sep ch).
    destruct (N.eqb ch sep); cbn [length]; [now rewrite IH|].
    pose proof (split_on_nonempty sep s) as Hn.
    destruct (split_on sep s) as [|piece pieces]; [congruence|].
    cbn [length] in *. exact IH.
  - induction s as [|ch s IH]; cbn [split_on].
    + repeat constructor. intros [].
    + destruct (N.eqb_spec ch sep) as [->|Hne].
      * constructor; [intros [] | exact IH].
      * pose proof (split_on_nonempty sep s) as Hn.
        destruct (split_on sep s) as [|piece pieces]; [congruence|].
        inversion IH as [|? ? Hp Hps]; subst.
        constructor; [|exact Hps]. intros [Heq|Hin]; [congruence | auto].
Qed.

(** *** Trimming *)

Lemma trimStart_spec (s : jsstring) :
  exists pre,
    s = pre ++ trimStart s /\
    forallb is_space pre = true /\
    match trimStart s with
    | [] => True
    | ch :: _ => is_space ch = false
    end.
Proof.
  induction s as [|ch s IH]; cbn [trimStart].
  - exists []. auto.
  - destruct (is_space ch) eqn:E.
    + destruct IH as (pre & Hs & Hpre & Hhd).
      exists (ch :: pre). cbn [app forallb]. rewrite E, Hpre, <- Hs. auto.
    + exists []. cbn. auto.
Qed.

Lemma trimStart_fixed (s : jsstring) :
  match s with [] => True | ch :: _ => is_space ch = false end ->
  trimStart s = s.
Proof. destruct s as [|ch s]; cbn; [auto|]. now intros ->. Qed.

Lemma trimEnd_spec (s : jsstring) :
  exists post,
    s = trimEnd s ++ post /\
    forallb is_space post = true /\
    match rev (trimEnd s) with
    | [] => True
    | ch :: _ => is_space ch = false
    end.
Proof.
  unfold trimEnd. destruct (trimStart_spec (rev s)) as (pre & Hs & Hpre & Hhd).
  exists (rev pre). rewrite rev_involutive. split; [|split; [|exact Hhd]].
  - rewrite <- rev_app_distr, <- Hs. now rewrite rev_involutive.
  - rewrite forallb_forall in *. intros x Hx. apply Hpre. now apply in_rev.
Qed.

Lemma last_rev_hd (s : jsstring) (d ch : N) (l : jsstring) :
  rev s = ch :: l -> last s d = ch.
Proof.
  intros H. assert (E : s = rev l ++ [ch]).
  { rewrite <- (rev_involutive s), H. reflexivity. }
  rewrite E. apply last_last.
Qed.

(** Trimming removes white space from both ends and nothing else: the
    string is some white space, then the trimmed string, then some white
    space, and the trimmed string neither starts nor ends with white space
    (it is empty when there is nothing else). Trimming twice is trimming
    once. *)
Lemma trim_spec (s : jsstring) :
  (exists pre post,
     s = pre ++ trim s ++ post /\
     forallb is_space pre = true /\ forallb is_space post = true) /\
  trimmed (trim s) /\
  trim (trim s) = trim s.
Proof.
  destruct (trimStart_spec s) as (pre & Hs & Hpre & Hhd).
  destruct (trimEnd_spec (trimStart s)) as (post & He & Hpost & Hlast).
  fold (trim s) in He, Hlast.
  assert (Hfirst : match trim s with
                   | [] => True
                   | ch :: _ => is_space ch = false
                   end).
  { destruct (trim s) as [|ch t] eqn:Et; [exact I|].
    rewrite He in Hhd. exact Hhd. }
  assert (T : trimmed (trim s)).
  { unfold trimmed. destruct (trim s) as [|ch t] eqn:Et; [exact I|].
    split; [exact Hfirst|].
    destruct (rev (ch :: t)) as [|c l] eqn:Er.
    - apply (f_equal (@length N)) in Er. rewrite length_rev in Er. discriminate.
    - now rewrite (last_rev_hd (ch :: t) ch Er). }
  split; [|split; [exact T|]].
  - exists pre, post. rewrite <- He. auto.
  - unfold trim at 1. rewrite (trimStart_fixed (trim s) Hfirst).
    unfold trimEnd. rewrite trimStart_fixed; [apply rev_involutive | exact Hlast].
Qed.

(** *** The patterns of a run *)

Lemma split_on_chars (sep : N) (s : jsstring) :
  forall piece ch, In piece (split_on sep s) -> In ch piece -> In ch s.
Proof.
  induction s as [|a s IH]; cbn [split_on].
  - intros piece ch [<-|[]] [].
  - destruct (N.eqb a sep).
    + intros piece ch [<-|H] Hc; [destruct Hc | right; eapply IH; eauto].
    + destruct (split_on sep s) as [|first pieces] eqn:E.
      * intros piece ch [<-|[]] [<-|[]]. left; reflexivity.
      * intros piece ch [<-|H] Hc.
        -- destruct Hc as [<-|Hc]; [left; reflexivity|].
           right. apply (IH first ch); [left; reflexivity | exact Hc].
        -- right. apply (IH piece ch); [right; exact H | exact Hc].
Qed.

Lemma trim_fixed (s : jsstring) :
  (forall ch, In ch s -> is_space ch = false) -> trim s = s.
Proof.
  intros H. unfold trim, trimEnd.
  assert (E1 : trimStart s = s).
  { apply trimStart_fixed. destruct s as [|ch s]; [exact I|].
    apply H. left; reflexivity. }
  rewrite E1.
  assert (E2 : trimStart (rev s) = rev s).
  { apply trimStart_fixed. destruct (rev s) as [|ch l] eqn:E; [exact I|].
    apply H. apply in_rev. rewrite E. left; reflexivity. }
  rewrite E2. apply rev_involutive.
Qed.

(** X14. The patterns a run hands to the checker: one more than there are
    commas in the [files] input, so at least one (the empty input gives the
    one empty pattern); none holds a comma, and none starts or ends with
    white space; for an input without white space they are, joined by
    commas, the input. *)
Theorem patterns_of_spec (filesInput : jsstring) :
  length (patterns_of filesInput) = S (occurrences comma filesInput) /\
  Forall (fun pattern => trimmed pattern /\ ~ In comma pattern)
         (patterns_of filesInput) /\
  ((forall ch, In ch filesInput -> is_space ch = false) ->
   join comma (patterns_of filesInput) = filesInput) /\
  patterns_of [] = [[]].
Proof.
  destruct (split_on_join comma filesInput) as (Hjoin & Hlen & Hsep & _).
  unfold patterns_of. split; [|split; [|split; [|reflexivity]]].
  - now rewrite length_map.
  - apply Forall_forall. intros pattern Hin.
    apply in_map_iff in Hin. destruct Hin as (piece & <- & Hpiece).
    destruct (trim_spec piece) as ((pre & post & E & _) & Ht & _).
    split; [exact Ht|]. intros Hc.
    rewrite Forall_forall in Hsep. apply (Hsep piece Hpiece).
    rewrite E. apply in_or_app. right. apply in_or_app. left. exact Hc.
  - intros Hns.
    assert (E : List.map trim (split_on comma filesInput)
                = split_on comma filesInput).
    { rewrite <- (map_id (split_on comma filesInput)) at 2.
      apply map_ext_in. intros piece Hpiece. apply trim_fixed.
      intros ch Hch. apply Hns. exact (split_on_chars _ _ _ _ Hpiece Hch). }
    rewrite E. exact Hjoin.
Qed.

(** *** The marker of the report *)

Lemma startsWith_app (pat rest : jsstring) : startsWith (pat ++ rest) pat = true.
Proof.
  induction pat as [|p pat IH]; cbn [app].
  - destruct rest; reflexivity.
  - cbn [startsWith]. now rewrite N.eqb_refl.
Qed.

Lemma includes_app (pre pat post : jsstring) :
  includes (pre ++ pat ++ post) pat = true.
Proof.
  induction pre as [|ch pre IH]; cbn [app].
  - destruct (pat ++ post) eqn:E; cbn [includes]; rewrite <- E;
      now rewrite startsWith_app.
  - cbn [includes]. rewrite IH. apply orb_true_r.
Qed.

End MainStrings.

(* ================================================================== *)
(** ** A run of the action *)
(* ================================================================== *)

Section MainRun.
Import Rules Checker More Main MainSpec.

Lemma writes_emit (e : Event) : writes (emit e) [e].
Proof. intros env h p. reflexivity. Qed.

Lemma writes_ret : writes (retA tt) [].
Proof. intros env h [w t]. unfold retA. cbn. now rewrite app_nil_r. Qed.

Lemma writes_bind (a b : Act unit) (evs1 evs2 : list Event) :
  writes a evs1 -> writes b evs2 -> writes (a ;;~ b) (evs1 ++ evs2).
Proof.
  intros Ha Hb env h p. unfold bindA. rewrite Ha, Hb. cbn [world trace].
  now rewrite app_assoc.
Qed.

Lemma writes_forEach {A} (xs : list A) (body : A -> Act unit)
    (f : A -> list Event) :
  (forall x, writes (body x) (f x)) ->
  writes (forEachA xs body) (flat_map f xs).
Proof.
  intros Hbody. induction xs as [|x xs IH]; cbn [forEachA flat_map].
  - apply writes_ret.
  - apply writes_bind; [apply Hbody | exact IH].
Qed.

Lemma writes_log_violation (f : FileComplianceResult) (v : ComplianceViolation) :
  writes (log_violation f v) (annotation_of f v :: suggestion_events v).
Proof.
  unfold log_violation. cbv zeta.
  change (annotation_of f v :: suggestion_events v)
    with ([annotation_of f v] ++ suggestion_events v).
  apply writes_bind.
  - unfold annotation_of. destruct (severity v); apply writes_emit.
  - unfold suggestion_events. destruct (suggestion v) as [s|]; [|apply writes_ret].
    destruct (truthy s); [apply writes_emit | apply writes_ret].
Qed.

Lemma writes_log_violations (report : ComplianceReport) :
  writes (log_violations report) (group_events report).
Proof.
  unfold log_violations, group_events.
  destruct (totalViolations report) as [|n]; cbn [Nat.ltb Nat.leb];
    [apply writes_ret|].
  change (StartGroup (clipboard ++ str " Compliance Violations")
          :: flat_map file_events (fileResults report) ++ [EndGroup])
    with ([StartGroup (clipboard ++ str " Compliance Violations")]
          ++ flat_map file_events (fileResults report) ++ [EndGroup]).
  apply writes_bind; [apply writes_emit|].
  apply writes_bind; [|apply writes_emit].
  apply writes_forEach. intros f. unfold file_events.
  destruct (violations f) as [|v vs] eqn:E; cbn [length Nat.ltb Nat.leb];
    [apply writes_ret|].
  rewrite <- E.
  match goal with
  | |- writes _ (?e :: ?l) => change (e :: l) with ([e] ++ l)
  end.
  apply writes_bind; [apply writes_emit|].
  apply writes_forEach. intros v'. apply writes_log_violation.
Qed.

Lemma writes_conclude (failOnViolation : bool) (report : ComplianceReport) :
  writes (conclude failOnViolation report) [final_event failOnViolation report].
Proof.
  unfold conclude, final_event. cbv zeta.
  destruct (failOnViolation && _); [apply writes_emit|].
  destruct (_ && _); apply writes_emit.
Qed.

(** [postPRComment] always returns, and makes only calls of its own kind. *)
Ltac act_step := cbv beta iota zeta; cbn [fst snd world trace].

Ltac act_done :=
  act_step; eexists; eexists;
  split; [rewrite <- ?app_assoc; reflexivity | repeat constructor].

Lemma postPRComment_returns (token markdown : jsstring) env h p :
  exists w' evs,
    postPRComment token markdown env h p
    = (mkProcess w' (trace p ++ evs), Normal tt) /\
    Forall comment_event evs.
Proof.
  unfold postPRComment, try_catchA, bindA, ask, or_throw, of_completion, emit,
    liftM, new_Date_getTime, retA.
  destruct (getOctokit env token) as [e|]; [act_done|].
  destruct (pull_request env) as [n|].
  2:{ exists (world p), []. rewrite app_nil_r. destruct p. split; [reflexivity|].
      constructor. }
  destruct (context_repo env) as [[owner repo]|e]; [|act_done].
  act_step.
  destruct (listComments env owner repo n) as [comments|e]; [|act_done].
  act_step.
  destruct (find is_bot_report comments) as [c|]; act_step.
  - destruct (updateComment env owner repo (comment_id c) _) as [e|]; act_done.
  - destruct (createComment env owner repo n _) as [e|]; act_done.
Qed.

Lemma bindA_ask {B} (k : Env -> Act B) env h p :
  bindA ask k env h p = k env env h p.
Proof. reflexivity. Qed.

Lemma bindA_emit {B} (e : Event) (k : unit -> Act B) env h p :
  bindA (emit e) k env h p
  = k tt env h (mkProcess (world p) (trace p ++ [e])).
Proof. reflexivity. Qed.

Lemma bindA_liftM {A B} (m : M A) (k : A -> Act B) env h p :
  bindA (liftM m) k env h p
  = match m h (world p) with
    | (w', Normal a) => k a env h (mkProcess w' (trace p))
    | (w', Throw e) => (mkProcess w' (trace p), Throw e)
    end.
Proof. unfold bindA, liftM. destruct (m h (world p)) as [w' [a|e]]; reflexivity. Qed.

Lemma bindA_writes {B} (a : Act unit) (evs : list Event) (k : unit -> Act B)
    env h p :
  writes a evs ->
  bindA a k env h p = k tt env h (mkProcess (world p) (trace p ++ evs)).
Proof. intros Ha. unfold bindA. now rewrite Ha. Qed.

(** The calls of a run, case by case: the check throws; the report cannot
    be written; or the run goes through to its last statement. *)
Lemma run_trace (env : Env) (h : Host) (w : World) (t : list Event) :
  let failOnViolation := is_true (getInput env (str "fail-on-violation")) in
  match run_check env h w with
  | (w1, Throw (Error msg)) =>
      run env h (mkProcess w t)
      = (mkProcess w1 (t ++ head_events env
                         ++ [SetFailed (str "Action failed: " ++ msg)]),
         Normal tt)
  | (w1, Normal report) =>
      match writeFileSync env (report_path env) (generateMarkdownReport report) with
      | Some (Error msg) =>
          run env h (mkProcess w t)
          = (mkProcess w1 (t ++ head_events env
                             ++ [SetFailed (str "Action failed: " ++ msg)]),
             Normal tt)
      | None =>
          exists w2 pr,
            run env h (mkProcess w t)
            = (mkProcess w2 (t ++ head_events env ++ report_events env report
                               ++ pr ++ group_events report
                               ++ [final_event failOnViolation report]),
               Normal tt) /\
            Forall comment_event pr /\
            (pull_request env = None \/ getInput env (str "github-token") = [] ->
             pr = [] /\ w2 = w1)
      end
  end.
Proof.
  cbv zeta.
  destruct (run_check env h w) as [w1 [report|[msg]]] eqn:Ec;
    unfold run_check in Ec.
  2:{ unfold run, try_catchA. rewrite bindA_ask. cbv beta zeta.
      rewrite !bindA_emit, bindA_liftM. cbn [world trace]. rewrite Ec.
      unfold emit, head_events. cbn [world trace].
      rewrite <- !app_assoc. reflexivity. }
  destruct (writeFileSync env (report_path env) (generateMarkdownReport report))
    as [[msg]|] eqn:Ew.
  { unfold run, try_catchA. rewrite bindA_ask. cbv beta zeta.
    rewrite !bindA_emit, bindA_liftM. cbn [world trace]. rewrite Ec.
    unfold fs_writeFileSync. unfold bindA at 1. rewrite bindA_ask, Ew.
    unfold of_completion, emit, head_events. cbn [world trace].
    rewrite <- !app_assoc. reflexivity. }
  unfold run, try_catchA. rewrite bindA_ask. cbv beta zeta.
  rewrite !bindA_emit, bindA_liftM. cbn [world trace]. rewrite Ec.
  unfold fs_writeFileSync. unfold bindA at 1. rewrite bindA_ask, Ew.
  unfold emit at 1. cbv beta iota. cbn [world trace].
  rewrite !bindA_emit. cbn [world trace].
  match goal with
  | |- context [bindA _ _ env h ?p] => set (p0 := p)
  end.
  assert (Hp0 : world p0 = w1 /\
                trace p0 = t ++ head_events env ++ report_events env report).
  { unfold p0, head_events, report_events. cbn [world trace].
    split; [reflexivity|]. rewrite <- !app_assoc. reflexivity. }
  clearbody p0. destruct Hp0 as (Hw0 & Ht0).
  assert (Hpr : exists w2 pr,
             (if match pull_request env with Some _ => true | None => false end
                 && truthy (getInput env (str "github-token"))
              then postPRComment (getInput env (str "github-token"))
                     (generateMarkdownReport report)
              else retA tt) env h p0
             = (mkProcess w2 (trace p0 ++ pr), Normal tt) /\
             Forall comment_event pr /\
             (pull_request env = None \/ getInput env (str "github-token") = [] ->
              pr = [] /\ w2 = w1)).
  { destruct (match pull_request env with Some _ => true | None => false end
              && truthy (getInput env (str "github-token"))) eqn:Eb.
    - destruct (postPRComment_returns (getInput env (str "github-token"))
                  (generateMarkdownReport report) env h p0) as (w2 & pr & E & Hpr).
      exists w2, pr. split; [exact E|]. split; [exact Hpr|].
      intros [Hn|Hn]; rewrite Hn in Eb; cbn in Eb;
        [discriminate | rewrite andb_false_r in Eb; discriminate].
    - exists w1, []. rewrite app_nil_r. unfold retA. destruct p0 as [w0 t0].
      cbn [world] in Hw0. subst w0. split; [reflexivity|]. split; [constructor|].
      auto. }
  destruct Hpr as (w2 & pr & E & Hpr & Hnone).
  unfold bindA at 1. rewrite E.
  rewrite (bindA_writes _ _ _ _ (writes_log_violations report)). cbn [world trace].
  rewrite writes_conclude. cbn [world trace].
  exists w2, pr. split; [|split; [exact Hpr | exact Hnone]].
  rewrite Ht0, <- !app_assoc. reflexivity.
Qed.

(** *** What kinds of calls the parts of a run make *)

Lemma comment_events_plain (pr : list Event) :
  Forall comment_event pr ->
  existsb is_SetFailed pr = false /\ outputs_of pr = [] /\ annotations_of pr = [].
Proof.
  unfold outputs_of, annotations_of.
  induction 1 as [|e pr He _ (I1 & I2 & I3)]; [auto|].
  destruct e as [ |l m [o|] | | | | | | | | ]; try destruct l;
    cbn in He; try contradiction;
    cbn [filter flat_map existsb is_SetFailed app orb]; auto.
Qed.

Lemma group_events_kind (report : ComplianceReport) :
  Forall group_event (group_events report).
Proof.
  unfold group_events. destruct (totalViolations report); [constructor|].
  constructor; [exact I|]. apply Forall_app. split; [|repeat constructor].
  apply Forall_flat_map, Forall_forall. intros f _. unfold file_events.
  destruct (violations f) as [|v vs]; [constructor|].
  constructor; [exact I|].
  apply Forall_flat_map, Forall_forall. intros v' _.
  constructor; [exact I|].
  unfold suggestion_events.
  destruct (suggestion v') as [s|]; [destruct (truthy s)|]; repeat constructor.
Qed.

Lemma group_event_plain (l : list Event) :
  Forall group_event l ->
  existsb is_SetFailed l = false /\ outputs_of l = [].
Proof.
  unfold outputs_of.
  induction 1 as [|e l He _ (I1 & I2)]; [auto|].
  destruct e as [ |lv m [o|] | | | | | | | | ];
    cbn in He; try contradiction;
    cbn [flat_map existsb is_SetFailed app orb]; auto.
Qed.

Lemma final_event_failed (b : bool) (report : ComplianceReport) :
  is_SetFailed (final_event b report)
  = b && (0 <? count_error (violationsBySeverity report)).
Proof.
  unfold final_event. cbv zeta.
  destruct (b && _); [reflexivity|]. destruct (_ && _); reflexivity.
Qed.

Lemma final_event_plain (b : bool) (report : ComplianceReport) :
  outputs_of [final_event b report] = [] /\
  annotations_of [final_event b report] = [].
Proof.
  unfold final_event. cbv zeta.
  destruct (b && _); [split; reflexivity|]. destruct (_ && _); split; reflexivity.
Qed.

(** The annotations of the violations group. *)
Lemma annotations_file_events (f : FileComplianceResult) :
  annotations_of (file_events f) = List.map (annotation_of f) (violations f).
Proof.
  unfold file_events, annotations_of.
  destruct (violations f) as [|v vs] eqn:E; [reflexivity|]. rewrite <- E. clear E.
  cbn [filter].
  induction (violations f) as [|v' vs' IH]; [reflexivity|].
  cbn [flat_map List.map]. rewrite filter_app, IH.
  assert (Hs : forall q, (forall m, q (Info m) = false) ->
                         filter q (suggestion_events v') = []).
  { intros q Hq. unfold suggestion_events.
    destruct (suggestion v') as [s|]; [destruct (truthy s)|]; cbn [filter];
      rewrite ?Hq; reflexivity. }
  unfold annotation_of at 1. cbn [filter]. rewrite Hs by reflexivity. reflexivity.
Qed.

Lemma annotations_group (report : ComplianceReport) :
  annotations_of (group_events report)
  = match totalViolations report with
    | O => []
    | S _ => file_annotations (fileResults report)
    end.
Proof.
  unfold group_events. destruct (totalViolations report); [reflexivity|].
  unfold annotations_of. cbn [filter]. rewrite filter_app. cbn [filter].
  rewrite app_nil_r. unfold file_annotations.
  induction (fileResults report) as [|f frs IH]; [reflexivity|].
  cbn [flat_map]. rewrite filter_app, IH. f_equal. apply annotations_file_events.
Qed.

Lemma file_annotations_length (frs : list FileComplianceResult) :
  length (file_annotations frs)
  = list_sum (List.map (fun r => length (violations r)) frs).
Proof.
  unfold file_annotations.
  induction frs as [|f frs IH]; cbn [flat_map List.map list_sum]; [reflexivity|].
  now rewrite length_app, length_map, IH.
Qed.

Lemma file_annotations_level (s : Severity) (frs : list FileComplianceResult) :
  length (filter (has_level (level_of s)) (file_annotations frs))
  = length (filter (is_severity s) (all_violations frs)).
Proof.
  unfold file_annotations, all_violations.
  induction frs as [|f frs IH]; cbn [flat_map]; [reflexivity|].
  rewrite !filter_app, !length_app, IH. f_equal.
  assert (Hv : forall v,
             has_level (level_of s) (annotation_of f v) = is_severity s v).
  { intros v. unfold is_severity, annotation_of.
    destruct s, (severity v); reflexivity. }
  induction (violations f) as [|v vs IHv]; cbn [List.map filter]; [reflexivity|].
  rewrite Hv. destruct (is_severity s v); cbn [length]; now rewrite IHv.
Qed.

Lemma generateReport_total_sum (frs : list FileComplianceResult) :
  totalViolations (generateReport frs)
  = list_sum (List.map (fun r => length (violations r)) frs).
Proof.
  unfold generateReport. cbn [totalViolations]. now rewrite reduce_lengths.
Qed.

(** In the report of a completed run the error counter is above 0 exactly
    when some file has status FAIL. *)
Lemma error_count_failed_files (this : ComplianceChecker) patterns h w w' report :
  checkFiles this patterns h w = (w', Normal report) ->
  (0 <? count_error (violationsBySeverity report))
  = existsb (has_status FAIL) (fileResults report).
Proof.
  intros Hrun.
  destruct (checkFiles_generates _ _ _ _ Hrun) as (frs & -> & Hfrs).
  pose proof (generateReport_count_of error frs) as Hc. cbn [count_of] in Hc.
  rewrite Hc. cbn [fileResults generateReport].
  assert (Hst : forall f, In f frs -> status f = determineStatus (violations f)).
  { intros f Hf. destruct (Hfrs f Hf) as (fn & w1 & w2 & E).
    exact (checkFile_status _ _ _ _ E). }
  clear Hc Hfrs Hrun.
  induction frs as [|f frs IH]; [reflexivity|].
  cbn [all_violations flat_map existsb]. fold (all_violations frs).
  rewrite filter_app, length_app.
  rewrite <- IH by (intros g Hg; apply Hst; right; exact Hg).
  unfold has_status. rewrite (Hst f (or_introl eq_refl)). unfold determineStatus.
  assert (He : existsb (fun v => Severity_eqb (severity v) error) (violations f)
               = (0 <? length (filter (is_severity error) (violations f)))).
  { induction (violations f) as [|v vs IHv]; cbn [existsb filter]; [reflexivity|].
    unfold is_severity at 1. destruct (Severity_eqb (severity v) error); [reflexivity|].
    exact IHv. }
  rewrite He. clear He.
  destruct (length (filter (is_severity error) (violations f))) as [|n];
    cbn [Nat.ltb Nat.leb Nat.add].
  - destruct (existsb _ (violations f)); reflexivity.
  - reflexivity.
Qed.

(** A run that finds no file. *)
Lemma checkFiles_no_files (this : ComplianceChecker) patterns h w :
  (forall p, In p patterns -> glob h p = Normal []) ->
  checkFiles this patterns h w = (w, Normal (generateReport [])).
Proof.
  intros Hglob. rewrite checkFiles_run.
  assert (E : Spec.resolve h patterns = Normal []).
  { induction patterns as [|p ps IH]; [reflexivity|].
    cbn [Spec.resolve]. rewrite (Hglob p (or_introl eq_refl)), IH; [reflexivity|].
    intros q Hq. apply Hglob. right; exact Hq. }
  rewrite E. reflexivity.
Qed.

(** *** The run as a whole *)

(** X15. A run never throws, and calls [setFailed] at most once, as its
    last call. It does so exactly when the check throws (a file that was
    found cannot be read), when the report cannot be written, or when the
    [fail-on-violation] input is the text true and the report counts at
    least one error. *)
Theorem run_failure_policy (env : Env) (h : Host) (w : World) (t : list Event) :
  exists w' evs,
    run env h (mkProcess w t) = (mkProcess w' (t ++ evs), Normal tt) /\
    (exists calls final,
       evs = calls ++ [final] /\ existsb is_SetFailed calls = false) /\
    (existsb is_SetFailed evs = true <->
     match run_check env h w with
     | (_, Throw _) => True
     | (_, Normal report) =>
         writeFileSync env (report_path env) (generateMarkdownReport report)
         <> None \/
         (getInput env (str "fail-on-violation") = str "true" /\
          0 < count_error (violationsBySeverity report))
     end).
Proof.
  generalize (run_trace env h w t). cbv zeta.
  destruct (run_check env h w) as [w1 [report|[msg]]].
  - destruct (writeFileSync env (report_path env) (generateMarkdownReport report))
      as [[msg]|].
    + intros R. exists w1, (head_events env ++ [SetFailed (str "Action failed: " ++ msg)]).
      split; [exact R|]. split.
      * exists (head_events env), (SetFailed (str "Action failed: " ++ msg)).
        split; reflexivity.
      * rewrite existsb_app. cbn [existsb is_SetFailed orb]. rewrite orb_true_r.
        split; [intros _; left; intros D; discriminate D | reflexivity].
    + intros (w2 & pr & R & Hpr & _).
      set (fin := final_event (is_true (getInput env (str "fail-on-violation"))) report)
        in *.
      assert (Hbody : existsb is_SetFailed
                        (head_events env ++ report_events env report ++ pr
                         ++ group_events report) = false).
      { rewrite !existsb_app.
        rewrite (proj1 (comment_events_plain Hpr)).
        rewrite (proj1 (group_event_plain (group_events_kind report))).
        reflexivity. }
      assert (Hevs : head_events env ++ report_events env report ++ pr
                     ++ group_events report ++ [fin]
                     = (head_events env ++ report_events env report ++ pr
                        ++ group_events report) ++ [fin])
        by (rewrite <- !app_assoc; reflexivity).
      exists w2, (head_events env ++ report_events env report ++ pr
                  ++ group_events report ++ [fin]).
      split; [exact R|]. split.
      * exists (head_events env ++ report_events env report ++ pr
                ++ group_events report), fin.
        split; [exact Hevs | exact Hbody].
      * rewrite Hevs, existsb_app, Hbody. cbn [existsb orb]. rewrite orb_false_r.
        unfold fin. rewrite final_event_failed, andb_true_iff.
        unfold is_true. rewrite eqb_eq, Nat.ltb_lt.
        split; [intros H; right; exact H | intros [H|H]; [congruence | exact H]].
  - intros R. exists w1, (head_events env ++ [SetFailed (str "Action failed: " ++ msg)]).
    split; [exact R|]. split.
    + exists (head_events env), (SetFailed (str "Action failed: " ++ msg)).
      split; reflexivity.
    + rewrite existsb_app. cbn [existsb is_SetFailed orb]. rewrite orb_true_r.
      split; [intros _; exact I | reflexivity].
Qed.

(** X16. The outputs of a run. A run that gets as far as writing the report
    sets three outputs, in this order and once each: [violations-found], the
    total of the report; [compliance-status], FAIL when some file has status
    FAIL and PASS otherwise; and [report-path]. A run whose check throws or
    whose report cannot be written sets no output at all. *)
Theorem run_outputs (env : Env) (h : Host) (w : World) (t : list Event) :
  exists w' evs,
    run env h (mkProcess w t) = (mkProcess w' (t ++ evs), Normal tt) /\
    match run_check env h w with
    | (_, Throw _) => outputs_of evs = []
    | (_, Normal report) =>
        match writeFileSync env (report_path env) (generateMarkdownReport report) with
        | Some _ => outputs_of evs = []
        | None =>
            In (WriteFile (report_path env) (generateMarkdownReport report)) evs /\
            outputs_of evs
            = [ (str "violations-found", num (totalViolations report));
                (str "compliance-status",
                 if existsb (has_status FAIL) (fileResults report)
                 then str "FAIL" else str "PASS");
                (str "report-path", report_path env) ]
        end
    end.
Proof.
  generalize (run_trace env h w t). cbv zeta.
  destruct (run_check env h w) as [w1 [report|[msg]]] eqn:Ec.
  - destruct (writeFileSync env (report_path env) (generateMarkdownReport report))
      as [[msg]|].
    + intros R. eexists; eexists. split; [exact R|]. reflexivity.
    + intros (w2 & pr & R & Hpr & _).
      eexists; eexists. split; [exact R|]. split.
      * apply in_or_app. right. left. reflexivity.
      * unfold outputs_of. rewrite !flat_map_app.
        fold (outputs_of pr). fold (outputs_of (group_events report)).
        match goal with
        | |- context [flat_map _ [final_event ?b report]] =>
            fold (outputs_of [final_event b report]);
            rewrite (proj1 (final_event_plain b report))
        end.
        rewrite (proj1 (proj2 (comment_events_plain Hpr))).
        rewrite (proj2 (group_event_plain (group_events_kind report))).
        unfold run_check in Ec. rewrite <- (error_count_failed_files _ _ _ _ Ec).
        reflexivity.
  - intros R. eexists; eexists. split; [exact R|]. reflexivity.
Qed.

(** X17. The annotations of a run that wrote its report: one annotation per
    violation of the report, attached to the file of the violation, in the
    order of the report, at the level of the severity (error, warning,
    notice), with the icon, the rule id and the message as its text and the
    regulation as its title. So the annotations at each level are as many
    as the counter of the report says, and all together as many as its
    total. *)
Theorem run_annotations (env : Env) (h : Host) (w w1 : World) (t : list Event)
    (report : ComplianceReport) :
  run_check env h w = (w1, Normal report) ->
  writeFileSync env (report_path env) (generateMarkdownReport report) = None ->
  exists w' evs,
    run env h (mkProcess w t) = (mkProcess w' (t ++ evs), Normal tt) /\
    annotations_of evs = file_annotations (fileResults report) /\
    length (filter (has_level LError) (annotations_of evs))
    = count_error (violationsBySeverity report) /\
    length (filter (has_level LWarning) (annotations_of evs))
    = count_warning (violationsBySeverity report) /\
    length (filter (has_level LNotice) (annotations_of evs))
    = count_info (violationsBySeverity report) /\
    length (annotations_of evs) = totalViolations report.
Proof.
  intros Ec Ew. generalize (run_trace env h w t). cbv zeta. rewrite Ec, Ew.
  intros (w2 & pr & R & Hpr & _).
  destruct (checkFiles_generates _ _ _ _ Ec) as (frs & -> & _).
  eexists; eexists. split; [exact R|].
  assert (A : annotations_of
                (head_events env ++ report_events env (generateReport frs) ++ pr
                 ++ group_events (generateReport frs)
                 ++ [final_event (is_true (getInput env (str "fail-on-violation")))
                       (generateReport frs)])
              = file_annotations frs).
  { unfold annotations_of. rewrite !filter_app.
    fold (annotations_of pr). fold (annotations_of (group_events (generateReport frs))).
    match goal with
    | |- context [filter _ [final_event ?b ?r]] =>
        fold (annotations_of [final_event b r]);
        rewrite (proj2 (final_event_plain b r))
    end.
    rewrite (proj2 (proj2 (comment_events_plain Hpr))), annotations_group.
    cbn [head_events report_events filter app]. rewrite app_nil_r.
    destruct (totalViolations (generateReport frs)) eqn:E; [|reflexivity].
    rewrite generateReport_total_sum, <- file_annotations_length in E.
    destruct (file_annotations frs); [reflexivity | discriminate E]. }
  rewrite A. cbn [fileResults generateReport].
  split; [reflexivity|].
  pose proof (fun s => file_annotations_level s frs) as L.
  pose proof (fun s => generateReport_count_of s frs) as C.
  split; [|split; [|split]].
  - etransitivity; [exact (L error) | symmetry; exact (C error)].
  - etransitivity; [exact (L warning) | symmetry; exact (C warning)].
  - etransitivity; [exact (L info) | symmetry; exact (C info)].
  - now rewrite file_annotations_length, generateReport_total_sum.
Qed.

Lemma run_annotations_witness :
  exists w1 report w' evs,
    run_check (sample_env None []) (Sample.one_log Sample.june_2026) Sample.world0
    = (w1, Normal report) /\
    run (sample_env None []) (Sample.one_log Sample.june_2026)
        (mkProcess Sample.world0 [])
    = (mkProcess w' ([] ++ evs), Normal tt) /\
    annotations_of evs = file_annotations (fileResults report) /\
    length (annotations_of evs) = totalViolations report.
Proof.
  assert (E : exists w1 report,
             run_check (sample_env None []) (Sample.one_log Sample.june_2026)
                       Sample.world0
             = (w1, Normal report))
    by (vm_compute; eauto).
  destruct E as (w1 & report & E).
  destruct (run_annotations (sample_env None []) _ _ [] E eq_refl)
    as (w' & evs & R & A & _ & _ & _ & T).
  exists w1, report, w', evs. auto.
Defined.

(** X18. A run whose patterns find no file at all passes: it writes the
    report, sets [violations-found] to 0 and [compliance-status] to PASS,
    makes no annotation and no [setFailed] call, and ends with the message
    that all files passed, whatever [fail-on-violation] says. *)
Theorem run_without_files (env : Env) (h : Host) (w : World) (t : list Event) :
  (forall p, In p (patterns_of (getInput env (str "files"))) ->
             glob h p = Normal []) ->
  writeFileSync env (report_path env) (generateMarkdownReport (generateReport []))
  = None ->
  exists w' evs,
    run env h (mkProcess w t) = (mkProcess w' (t ++ evs), Normal tt) /\
    outputs_of evs
    = [ (str "violations-found", str "0");
        (str "compliance-status", str "PASS");
        (str "report-path", report_path env) ] /\
    annotations_of evs = [] /\
    existsb is_SetFailed evs = false /\
    last evs EndGroup
    = Info (check_mark ++ str " All files passed aviation compliance checks!").
Proof.
  intros Hglob Ew. generalize (run_trace env h w t). cbv zeta.
  unfold run_check. rewrite (@checkFiles_no_files _ _ _ _ Hglob), Ew.
  intros (w2 & pr & R & Hpr & _).
  destruct (comment_events_plain Hpr) as (P1 & P2 & P3).
  assert (F : final_event (is_true (getInput env (str "fail-on-violation")))
                (generateReport [])
              = Info (check_mark ++ str " All files passed aviation compliance checks!")).
  { unfold final_event. cbv zeta.
    destruct (is_true (getInput env (str "fail-on-violation"))); reflexivity. }
  rewrite F in R.
  change (group_events (generateReport [])) with (@nil Event) in R.
  cbn [app] in R.
  eexists; eexists. split; [exact R|].
  split; [|split; [|split]].
  - unfold outputs_of. rewrite !flat_map_app. fold (outputs_of pr). rewrite P2.
    reflexivity.
  - unfold annotations_of. rewrite !filter_app. fold (annotations_of pr).
    rewrite P3. reflexivity.
  - rewrite !existsb_app, P1. reflexivity.
  - rewrite !app_assoc. apply last_last.
Qed.

Lemma run_without_files_witness :
  exists w' evs,
    run (sample_env None []) (Sample.host [] [] Sample.june_2026)
        (mkProcess Sample.world0 [])
    = (mkProcess w' ([] ++ evs), Normal tt) /\
    existsb is_SetFailed evs = false.
Proof.
  destruct (run_without_files (sample_env None [])
              (Sample.host [] [] Sample.june_2026) Sample.world0 [])
    as (w' & evs & R & _ & _ & F & _).
  - intros p Hp. vm_compute in Hp.
    destruct Hp as [<-|[<-|[]]]; vm_compute; reflexivity.
  - reflexivity.
  - exists w', evs. auto.
Defined.

(** *** The comment on the pull request *)

Ltac comment_done :=
  act_step; eexists; eexists;
  split; [rewrite <- ?app_assoc; reflexivity|];
  cbn [filter existsb is_request is_write_request is_warning length app orb
       console world];
  repeat split; auto; try (intros D; discriminate D).

(** X19. [postPRComment] never throws, whatever fails: building the
    client, reading the repository, listing the comments or writing one.
    It writes nothing to the console, makes no request when there is no
    pull request, and at most one request that writes; and when there is a
    pull request and it makes no such request, it logs a warning. *)
Theorem postPRComment_never_throws (token markdown : jsstring)
    (env : Env) (h : Host) (p : Process) :
  exists w' evs,
    postPRComment token markdown env h p
    = (mkProcess w' (trace p ++ evs), Normal tt) /\
    console w' = console (world p) /\
    (pull_request env = None -> existsb is_request evs = false) /\
    length (filter is_write_request evs) <= 1 /\
    (existsb is_warning evs = true \/ pull_request env = None \/
     existsb is_write_request evs = true).
Proof.
  unfold postPRComment, try_catchA, bindA, ask, or_throw, of_completion, emit,
    liftM, new_Date_getTime, retA.
  destruct (getOctokit env token) as [e|]; [comment_done|].
  destruct (pull_request env) as [n|].
  2:{ exists (world p), []. rewrite app_nil_r. destruct p.
      cbn [filter existsb length world trace]. repeat split; auto. }
  destruct (context_repo env) as [[owner repo]|e]; [|comment_done].
  act_step.
  destruct (listComments env owner repo n) as [comments|e]; [|comment_done].
  act_step.
  destruct (find is_bot_report comments) as [c|]; act_step.
  - destruct (updateComment env owner repo (comment_id c) _) as [e|]; comment_done.
  - destruct (createComment env owner repo n _) as [e|]; comment_done.
Qed.

(** X20. What [postPRComment] writes: a request that writes is made only
    after the comments of the pull request were listed, and it is the
    update of the first listed comment of a Bot whose body holds the text
    Aviation Compliance Report, if there is one, and the creation of a new
    comment if there is none; its body is the markdown followed by the time
    stamp of the clock reading. *)
Theorem postPRComment_update_or_create (token markdown : jsstring)
    (env : Env) (h : Host) (p : Process) :
  exists w' evs,
    postPRComment token markdown env h p
    = (mkProcess w' (trace p ++ evs), Normal tt) /\
    forall e, In e evs -> is_write_request e = true ->
      exists owner repo n comments,
        context_repo env = Normal (owner, repo) /\
        pull_request env = Some n /\
        listComments env owner repo n = Normal comments /\
        (exists before after,
           evs = before ++ e :: after /\
           In (ListComments owner repo n) before) /\
        let body := comment_body_of markdown
                      (toISOString env (Date_now h (clock_reads (world p)))) in
        e = match find is_bot_report comments with
            | Some c => UpdateComment owner repo (comment_id c) body
            | None => CreateComment owner repo n body
            end.
Proof.
  assert (Hno : forall (w' : World) (evs : list Event),
             (forall e, In e evs -> is_write_request e = false) ->
             forall e, In e evs -> is_write_request e = true ->
               exists owner repo n comments,
                 context_repo env = Normal (owner, repo) /\
                 pull_request env = Some n /\
                 listComments env owner repo n = Normal comments /\
                 (exists before after,
                    evs = before ++ e :: after /\
                    In (ListComments owner repo n) before) /\
                 let body := comment_body_of markdown
                               (toISOString env (Date_now h (clock_reads (world p)))) in
                 e = match find is_bot_report comments with
                     | Some c => UpdateComment owner repo (comment_id c) body
                     | None => CreateComment owner repo n body
                     end).
  { intros _ evs H e He Hw. rewrite (H e He) in Hw. discriminate Hw. }
  assert (Hplain : forall a b : Event,
             is_write_request a = false -> is_write_request b = false ->
             forall e, In e ([a] ++ [b]) -> is_write_request e = false).
  { intros a b Ha Hb e [<-|[<-|[]]]; assumption. }
  unfold postPRComment, try_catchA, bindA, ask, or_throw, of_completion, emit,
    liftM, new_Date_getTime, retA.
  destruct (getOctokit env token) as [e|].
  { act_step. eexists; eexists. split; [reflexivity|]. apply (Hno (world p)).
    intros e' [<-|[]]. reflexivity. }
  destruct (pull_request env) as [n|] eqn:En.
  2:{ exists (world p), []. rewrite app_nil_r. destruct p.
      split; [reflexivity|]. intros e []. }
  destruct (context_repo env) as [[owner repo]|e] eqn:Er.
  2:{ act_step. eexists; eexists. split; [reflexivity|]. apply (Hno (world p)).
      intros e' [<-|[]]. reflexivity. }
  act_step.
  destruct (listComments env owner repo n) as [comments|e] eqn:El.
  2:{ act_step. eexists; eexists.
      split; [rewrite <- ?app_assoc; reflexivity|]. apply (Hno (world p)).
      apply Hplain; reflexivity. }
  act_step.
  assert (Hwrite : forall (write other : Event),
             is_write_request other = false ->
             write = match find is_bot_report comments with
                     | Some c =>
                         UpdateComment owner repo (comment_id c)
                           (comment_body_of markdown
                              (toISOString env (Date_now h (clock_reads (world p)))))
                     | None =>
                         CreateComment owner repo n
                           (comment_body_of markdown
                              (toISOString env (Date_now h (clock_reads (world p)))))
                     end ->
             forall e, In e ([ListComments owner repo n] ++ [write] ++ [other]) ->
               is_write_request e = true ->
               exists owner' repo' n' comments',
                 Normal (owner, repo) = Normal (owner', repo') /\
                 Some n = Some n' /\
                 listComments env owner' repo' n' = Normal comments' /\
                 (exists before after,
                    [ListComments owner repo n] ++ [write] ++ [other]
                    = before ++ e :: after /\
                    In (ListComments owner' repo' n') before) /\
                 let body := comment_body_of markdown
                               (toISOString env (Date_now h (clock_reads (world p)))) in
                 e = match find is_bot_report comments' with
                     | Some c => UpdateComment owner' repo' (comment_id c) body
                     | None => CreateComment owner' repo' n' body
                     end).
  { intros write other Ho Hwr e He Hw.
    destruct He as [<-|[<-|[<-|[]]]];
      [discriminate Hw | | rewrite Ho in Hw; discriminate Hw].
    exists owner, repo, n, comments.
    split; [reflexivity|]. split; [reflexivity|]. split; [exact El|].
    split; [|exact Hwr].
    exists [ListComments owner repo n], [other].
    split; [reflexivity | left; reflexivity]. }
  destruct (find is_bot_report comments) as [c|] eqn:Ef; act_step.
  - destruct (updateComment env owner repo (comment_id c) _) as [e|];
      act_step; eexists; eexists;
      (split; [rewrite <- ?app_assoc; reflexivity|]);
      apply Hwrite; reflexivity.
  - destruct (createComment env owner repo n _) as [e|];
      act_step; eexists; eexists;
      (split; [rewrite <- ?app_assoc; reflexivity|]);
      apply Hwrite; reflexivity.
Qed.

(** X21. The action recognises its own comment: a comment of a Bot whose
    body is the body the action posts for any report, at any time, passes
    the test by which the action looks for its earlier comment. So when the
    listing holds such a comment, the search for the earlier comment finds
    one. *)
Theorem posted_comment_is_recognised (report : ComplianceReport) (iso : jsstring)
    (id : nat) (comments : list Comment) :
  let posted := mkComment id (Some (str "Bot"))
                  (Some (comment_body_of (generateMarkdownReport report) iso)) in
  is_bot_report posted = true /\
  (In posted comments ->
   exists c, find is_bot_report comments = Some c /\ is_bot_report c = true).
Proof.
  cbv zeta.
  assert (H : is_bot_report
                (mkComment id (Some (str "Bot"))
                   (Some (comment_body_of (generateMarkdownReport report) iso)))
              = true).
  { unfold is_bot_report. cbn [user_type comment_body].
    rewrite eqb_refl. cbn [andb].
    rewrite markdown_is_render. unfold comment_body_of, Spec.render, Spec.render_header.
    change (str " Aviation Compliance Report") with ([32%N] ++ marker).
    rewrite <- !app_assoc.
    rewrite (app_assoc (str "# ")), (app_assoc (str "# " ++ airplane)).
    apply includes_app. }
  split; [exact H|]. intros Hin.
  destruct (find is_bot_report comments) as [c|] eqn:F.
  - exists c. split; [reflexivity|]. exact (proj2 (find_some _ _ F)).
  - rewrite (find_none _ _ F _ Hin) in H. discriminate H.
Qed.

End MainRun.
